(** * Neon Arcade: player progression, leaderboard and achievements

    A shallow embedding of the progression engine of the arcade front end:

    - [src/hooks/useLineraClient.ts] (the version with the demo-mode
      fallback): the connection, score and result submission, rooms,
      profile and leaderboard queries over [localStorage], and the
      dispatch to the remote client; of the earlier copy in the same
      file, [getUserProfile];
    - [src/lib/linera/config.ts] and [src/lib/linera/client.ts]: the
      configuration, the loading of the SDK and the remote
      [LineraGameClient];
    - [src/hooks/useAchievements.ts]: statistics, achievement unlocks and
      progress, call by call and in the component from render to
      render;
    - the snake game component, which reports its games to the
      achievements.

    Conventions of the embedding.

    - A JavaScript number that holds a count, a score or a position is a
      [Z], the integer the double holds.  Counts are raised by one per
      call and their sums and products are exact.  A snake score is an
      argument of [submitSnakeScore] and can be any double: the sums and
      quotients it enters, and the win rate
      [Math.round((wins / gamesPlayed) * 100)], are computed with the
      operations of the Standard Library's [SpecFloat] at the binary64
      format, which round above [2^53].
    - A JavaScript object used as a table from player address to value is
      an association list in insertion order with one entry per key: this
      is the order [Object.keys] enumerates for keys that are not array
      indices, which is the case of the addresses (["0x..."]).
    - [localStorage] is a record with one slot per key the code uses.  A
      slot is absent, holds text [JSON.parse] rejects, or holds a value.
    - A function that runs inside [try]/[catch] is a computation in a
      state-and-exception monad over [localStorage]: a write made before an
      exception stays made.
    - [await] points do not interleave: each operation of the store runs
      to completion on the store left by the previous one.
    - React state is read from the render a callback belongs to and set
      for the next render.
    - [Date.now()] is an argument of the operation that reads the clock. *)

From Stdlib Require Import ZArith List String Ascii Bool Lia.
From Stdlib Require Import Sorted Permutation.
From Stdlib Require Import DecimalString HexadecimalString.
From Stdlib Require Import SpecFloat.
Import ListNotations.
Local Open Scope string_scope.
Local Open Scope list_scope.
Local Open Scope Z_scope.

Set Implicit Arguments.

(** ** JavaScript values and operators *)

Module JS.

(** [a || b] on numbers: [0] is the falsy number. *)
Definition or_num (a b : Z) : Z := if a =? 0 then b else a.

(** [o[k] || d] where [o[k]] is a number or [undefined]. *)
Definition num_or (v : option Z) (d : Z) : Z :=
  match v with
  | Some n => or_num n d
  | None => d
  end.

(** [o[k] || d] where [o[k]] is an object or [undefined]: every object
    is truthy. *)
Definition obj_or {A : Type} (v : option A) (d : A) : A :=
  match v with
  | Some a => a
  | None => d
  end.

(** [s || d] on strings: the empty string is falsy. *)
Definition str_or (v : option string) (d : string) : string :=
  match v with
  | Some EmptyString => d
  | Some s => s
  | None => d
  end.

(** *** Objects as tables *)

Definition Obj (V : Type) : Type := list (string * V).

Fixpoint get {V : Type} (k : string) (o : Obj V) : option V :=
  match o with
  | [] => None
  | (k', v) :: o' => if String.eqb k' k then Some v else get k o'
  end.

(** [o[k] = v]: overwrite in place, or append a new property. *)
Fixpoint set {V : Type} (k : string) (v : V) (o : Obj V) : Obj V :=
  match o with
  | [] => [(k, v)]
  | (k', v') :: o' =>
      if String.eqb k' k then (k', v) :: o' else (k', v') :: set k v o'
  end.

(** [Object.keys(o)] *)
Definition keys {V : Type} (o : Obj V) : list string := map fst o.

(** *** Arrays *)

(** [Array.from(new Set(l))]: the first occurrence of each element, in
    order. *)
Fixpoint dedup_acc (seen l : list string) : list string :=
  match l with
  | [] => []
  | x :: l' =>
      if existsb (String.eqb x) seen then dedup_acc seen l'
      else x :: dedup_acc (x :: seen) l'
  end.

Definition set_of (l : list string) : list string := dedup_acc [] l.

(** [a.slice(0, end)]: a negative [end] counts from the end of the
    array. *)
Definition slice0 {A : Type} (l : list A) (e : Z) : list A :=
  let len := Z.of_nat (List.length l) in
  let k := if e <? 0 then Z.max (len + e) 0 else Z.min e len in
  firstn (Z.to_nat k) l.

(** [a.sort(cmp)] with [cmp(a, b) = key(b) - key(a)].  The language
    specifies the sort as stable, which fixes its result: the elements in
    descending key order, elements of equal key in their order in [a]
    (see [stable_sorted_unique]).  The result is computed by stable
    insertion from the right. *)
Section Sort.
Variable A : Type.
Variable key : A -> Z.

Fixpoint insert_desc (x : A) (l : list A) : list A :=
  match l with
  | [] => [x]
  | y :: l' =>
      if key y - key x <=? 0 then x :: y :: l'
      else y :: insert_desc x l'
  end.

Fixpoint sort_desc (l : list A) : list A :=
  match l with
  | [] => []
  | x :: l' => insert_desc x (sort_desc l')
  end.
End Sort.

(** *** 32-bit integers and number formatting *)

(** [ToInt32] *)
Definition to_int32 (z : Z) : Z := (z + 2 ^ 31) mod 2 ^ 32 - 2 ^ 31.

Definition charCodes (s : string) : list Z :=
  map (fun c => Z.of_nat (nat_of_ascii c)) (list_ascii_of_string s).

(** [String(n)] for an integer [n]. *)
Definition dec_string (z : Z) : string :=
  DecimalString.NilZero.string_of_int (Z.to_int z).

(** [n.toString(16)] for an integer [n]. *)
Definition hex_string (z : Z) : string :=
  HexadecimalString.NilZero.string_of_int (Z.to_hex_int z).

(** [s.slice(0, n)] for [n >= 0]. *)
Definition str_take (n : nat) (s : string) : string := substring 0 n s.

(** [s.toUpperCase()] on ASCII text. *)
Definition upper (c : ascii) : ascii :=
  let n := nat_of_ascii c in
  if (97 <=? n)%nat && (n <=? 122)%nat then ascii_of_nat (n - 32) else c.

Definition toUpperCase (s : string) : string :=
  string_of_list_ascii (map upper (list_ascii_of_string s)).

(** *** Double precision *)

Definition prec : Z := 53.
Definition emax : Z := 1024.

(** The double nearest to an integer (exact below [2^53]). *)
Definition of_Z (z : Z) : spec_float :=
  binary_normalize prec emax z 0 false.

Definition fdiv (x y : spec_float) : spec_float := SFdiv prec emax x y.
Definition fmul (x y : spec_float) : spec_float := SFmul prec emax x y.

(** [Math.round]: the nearest integer, a tie going up.  On the finite
    double [m * 2^e] this is [floor (m * 2^e + 1/2)].  The value at NaN
    and the infinities, which [Math.round] returns unchanged, is not
    used: no quotient of two counts below [2^1023] is one of them. *)
Definition Math_round (x : spec_float) : Z :=
  match x with
  | S754_finite s m e =>
      let v := if s then Z.neg m else Z.pos m in
      if 0 <=? e then v * 2 ^ e
      else (2 * v + 2 ^ (- e)) / 2 ^ (1 - e)
  | _ => 0
  end.

Definition fadd (x y : spec_float) : spec_float := SFadd prec emax x y.

(** [Math.floor] of a finite double.  The value at NaN and the
    infinities, which [Math.floor] returns unchanged, is not used. *)
Definition Math_floor (x : spec_float) : Z :=
  match x with
  | S754_finite s m e =>
      let v := if s then Z.neg m else Z.pos m in
      if 0 <=? e then v * 2 ^ e else v / 2 ^ (- e)
  | _ => 0
  end.

(** [a + b] on doubles that hold integers: the double nearest to the
    exact sum, a tie going to the even mantissa.  Thus [2^54 + 50] is
    [2^54 + 48]. *)
Definition add (a b : Z) : Z := Math_floor (of_Z (a + b)).

(** [Math.floor(a / b)]: the floor of the double quotient. *)
Definition floor_div (a b : Z) : Z :=
  Math_floor (fdiv (of_Z a) (of_Z b)).

(** [a % b] on doubles that hold integers; the remainder is exact and
    has the sign of [a]. *)
Definition rem (a b : Z) : Z := Z.rem a b.

(** The result of [Math.round] on any double: NaN and the infinities are
    returned unchanged. *)
Inductive Rounded :=
| NotANumber
| Infinite (negative : bool)
| Integer (z : Z).

Definition Math_round_any (x : spec_float) : Rounded :=
  match x with
  | S754_nan => NotANumber
  | S754_infinity s => Infinite s
  | _ => Integer (Math_round x)
  end.

End JS.

(** ** Shared types ([src/lib/linera/types.ts]) *)

Module Types.

Record UserProfile := {
  username : string;
  avatarId : Z;
  level : Z;
  xp : Z;
  snakeHighScore : Z;
  snakeGames : Z;
  snakeLaddersWins : Z;
  snakeLaddersLosses : Z;
  tictactoeWins : Z;
  tictactoeLosses : Z;
  unoWins : Z;
  unoLosses : Z
}.

(** [avatar] is the position of the glyph in the hook's [AVATARS] table;
    the glyphs themselves are display data. *)
Record LeaderboardEntry := {
  rank : Z;
  playerName : string;
  playerAddress : string;
  score : Z;
  gamesPlayed : Z;
  winRate : Z;
  avatar : Z
}.

Inductive RoomStatus := waiting | playing | finished.

(** A room; the local store adds [createdAt], the remote service
    [chainId]. *)
Record GameRoom := {
  id : string;
  game : string;
  players : Z;
  maxPlayers : Z;
  fee : Z;
  host : string;
  status : RoomStatus;
  chainId : option string;
  createdAt : option Z
}.

Definition with_rank (r : Z) (e : LeaderboardEntry) : LeaderboardEntry :=
  {| rank := r; playerName := playerName e; playerAddress := playerAddress e;
     score := score e; gamesPlayed := gamesPlayed e; winRate := winRate e;
     avatar := avatar e |}.

End Types.

(** ** Configuration ([src/lib/linera/config.ts]) *)

Module Config.

(** The build-time environment [import.meta.env]; a variable that is not
    set is [None]. *)
Record Env := {
  VITE_LINERA_FAUCET_URL : option string;
  VITE_LINERA_APP_ID : option string;
  VITE_LINERA_STORAGE_URL : option string
}.

Definition LINERA_FAUCET_URL (env : Env) : string :=
  JS.str_or (VITE_LINERA_FAUCET_URL env)
    "https://faucet.testnet-conway.linera.net".

Definition LINERA_APP_ID (env : Env) : string :=
  JS.str_or (VITE_LINERA_APP_ID env) "".

Definition LINERA_STORAGE_URL (env : Env) : string :=
  JS.str_or (VITE_LINERA_STORAGE_URL env) "".

(** [Boolean(LINERA_APP_ID && LINERA_APP_ID.length > 0)] *)
Definition isLineraConfigured (env : Env) : bool :=
  negb (String.eqb (LINERA_APP_ID env) "")
  && (0 <? Z.of_nat (String.length (LINERA_APP_ID env))).

Definition isDemoMode (env : Env) : bool := negb (isLineraConfigured env).

End Config.

(** ** The remote client ([src/lib/linera/client.ts]) *)

Module Client.
Import Types.

(** *** The SDK module

    The module variables [lineraModule], [isInitialized] and
    [initializationAttempted].  Of the value of [lineraModule] the code
    below only tests whether it is [null]. *)
Record Sdk := {
  lineraModule : option unit;
  isInitialized : bool;
  initializationAttempted : bool
}.

(** The variables as the module declares them. *)
Definition initialSdk : Sdk :=
  {| lineraModule := None; isInitialized := false;
     initializationAttempted := false |}.

(** [initializeLinera]: the dynamic import of the SDK is commented out in
    the source, so the body of the [try] logs a message and returns
    [false]. *)
Definition initializeLinera (env : Config.Env) (s : Sdk) : bool * Sdk :=
  if isInitialized s then (true, s)
  else if initializationAttempted s then (false, s)
  else
    let s' :=
      {| lineraModule := lineraModule s; isInitialized := isInitialized s;
         initializationAttempted := true |} in
    if negb (Config.isLineraConfigured env) then (false, s')
    else (false, s').

(** [isInitialized && lineraModule !== null] *)
Definition isLineraAvailable (s : Sdk) : bool :=
  isInitialized s
  && match lineraModule s with Some _ => true | None => false end.

(** *** The client *)

(** The operations of [GRAPHQL_MUTATIONS] and [GRAPHQL_QUERIES] the hook
    reaches, by name and arguments. *)
Inductive Request :=
| SUBMIT_SNAKE_SCORE (score : Z)
| SUBMIT_TICTACTOE_RESULT (won : bool) (opponent : option string)
| SUBMIT_SNAKELADDERS_RESULT (won : bool) (position : Z)
| SUBMIT_UNO_RESULT (won : bool)
| UPDATE_PROFILE (username : string) (avatarId : Z)
| CREATE_ROOM (gameType : string) (maxPlayers entryFee : Z)
| JOIN_ROOM (roomId : string)
| GET_LEADERBOARD (gameType : string) (limit : Z)
| GET_USER_PROFILE (address : string)
| GET_SNAKE_HIGH_SCORE (address : string)
| GET_ACTIVE_ROOMS (gameType : option string).

(** The [data] member of a response, with the members the client reads:
    [createRoom_roomId] is [data.createRoom?.roomId] and
    [joinRoom_success] is [data.joinRoom?.success]. *)
Record Data := {
  leaderboard : option (list LeaderboardEntry);
  userProfile : option UserProfile;
  snakeHighScore : option Z;
  createRoom_roomId : option string;
  joinRoom_success : option bool;
  activeRooms : option (list GameRoom)
}.

(** [GraphQLResponse]: [data] is [None] when the member is missing,
    [null] or another falsy value. *)
Record GraphQLResponse := { data : option Data }.

(** What [application.query] does with a request: the promise is
    rejected, or it resolves to text that [JSON.parse] rejects, or to
    the text of a response. *)
Inductive Reply :=
| Rejected
| NotJSON
| Resolved (r : GraphQLResponse).

Definition LineraApplication := Request -> Reply.

(** The members of the client the operations read; [client] and [wallet]
    tell whether the members are set. *)
Record LineraGameClient := {
  client : bool;
  wallet : bool;
  application : option LineraApplication;
  chainId : string
}.

Definition isConnected (c : LineraGameClient) : bool :=
  client c && wallet c.

(** The getter [address]. *)
Definition address (c : LineraGameClient) : string := chainId c.

(** What [connect] resolves to. *)
Record ConnectResult := {
  success : bool;
  connected_address : string;
  connect_error : option string
}.

Definition disconnect (c : LineraGameClient) : LineraGameClient :=
  {| client := false; wallet := false; application := None; chainId := "" |}.

(** [query]: [null] without an application and on any exception. *)
Definition query (c : LineraGameClient) (q : Request)
  : option GraphQLResponse :=
  match application c with
  | None => None
  | Some app =>
      match app q with
      | Resolved r => Some r
      | Rejected | NotJSON => None
      end
  end.

Definition mutate (c : LineraGameClient) (q : Request)
  : option GraphQLResponse := query c q.

(** [Boolean(result?.data)] *)
Definition has_data (result : option GraphQLResponse) : bool :=
  match result with
  | Some {| data := Some _ |} => true
  | _ => false
  end.

Definition submitSnakeScore (c : LineraGameClient) (score : Z) : bool :=
  has_data (mutate c (SUBMIT_SNAKE_SCORE score)).

Definition submitTicTacToeResult (c : LineraGameClient) (won : bool)
    (opponent : option string) : bool :=
  has_data (mutate c (SUBMIT_TICTACTOE_RESULT won opponent)).

Definition submitSnakeLaddersResult (c : LineraGameClient) (won : bool)
    (position : Z) : bool :=
  has_data (mutate c (SUBMIT_SNAKELADDERS_RESULT won position)).

Definition submitUnoResult (c : LineraGameClient) (won : bool) : bool :=
  has_data (mutate c (SUBMIT_UNO_RESULT won)).

Definition updateProfile (c : LineraGameClient) (username : string)
    (avatarId : Z) : bool :=
  has_data (mutate c (UPDATE_PROFILE username avatarId)).

(** [result?.data?.m] *)
Definition member {A : Type} (m : Data -> option A)
    (result : option GraphQLResponse) : option A :=
  match result with
  | Some {| data := Some d |} => m d
  | _ => None
  end.

Definition createRoom (c : LineraGameClient) (gameType : string)
    (maxPlayers entryFee : Z) : option string :=
  match member createRoom_roomId
          (mutate c (CREATE_ROOM gameType maxPlayers entryFee)) with
  | Some EmptyString => None
  | Some roomId => Some roomId
  | None => None
  end.

Definition joinRoom (c : LineraGameClient) (roomId : string) : bool :=
  JS.obj_or (member joinRoom_success (mutate c (JOIN_ROOM roomId))) false.

Definition getLeaderboard (c : LineraGameClient) (gameType : string)
    (limit : Z) : list LeaderboardEntry :=
  JS.obj_or (member leaderboard (query c (GET_LEADERBOARD gameType limit)))
            [].

Definition getUserProfile (c : LineraGameClient) (address : option string)
  : option UserProfile :=
  let targetAddress := JS.str_or address (chainId c) in
  match targetAddress with
  | EmptyString => None
  | _ => member userProfile (query c (GET_USER_PROFILE targetAddress))
  end.

Definition getSnakeHighScore (c : LineraGameClient)
    (address : option string) : Z :=
  let targetAddress := JS.str_or address (chainId c) in
  match targetAddress with
  | EmptyString => 0
  | _ =>
      JS.num_or
        (member snakeHighScore
                (query c (GET_SNAKE_HIGH_SCORE targetAddress))) 0
  end.

Definition getActiveRooms (c : LineraGameClient)
    (gameType : option string) : list GameRoom :=
  JS.obj_or (member activeRooms (query c (GET_ACTIVE_ROOMS gameType))) [].

End Client.

(** ** [localStorage] *)

Module Storage.

(** A statistics object: [{ wins, losses }], with [bestPosition] for
    snake and ladders. *)
Record Stats := {
  wins : Z;
  losses : Z;
  bestPosition : option Z
}.

(** The value stored under an address in [linera-profiles]. *)
Record Profile := {
  username : string;
  avatarId : Z
}.

(** The content of a key: [getItem] returns [null] (or the empty text),
    or text on which [JSON.parse] throws, or the text of a value. *)
Inductive Slot (A : Type) :=
| Absent
| Corrupt
| Json (v : A).
Arguments Absent {A}.
Arguments Corrupt {A}.

Record LocalStorage := {
  linera_snake_scores : Slot (JS.Obj Z);
  linera_tictactoe_stats : Slot (JS.Obj Stats);
  linera_snakeladders_stats : Slot (JS.Obj Stats);
  linera_uno_stats : Slot (JS.Obj Stats);
  linera_profiles : Slot (JS.Obj Profile);
  linera_games_played : Slot (JS.Obj Z);
  linera_rooms : Slot (list Types.GameRoom)
}.

Definition empty : LocalStorage :=
  {| linera_snake_scores := Absent; linera_tictactoe_stats := Absent;
     linera_snakeladders_stats := Absent; linera_uno_stats := Absent;
     linera_profiles := Absent; linera_games_played := Absent;
     linera_rooms := Absent |}.

Definition set_snake_scores v (ls : LocalStorage) : LocalStorage :=
  {| linera_snake_scores := Json v;
     linera_tictactoe_stats := linera_tictactoe_stats ls;
     linera_snakeladders_stats := linera_snakeladders_stats ls;
     linera_uno_stats := linera_uno_stats ls;
     linera_profiles := linera_profiles ls;
     linera_games_played := linera_games_played ls ;
     linera_rooms := linera_rooms ls |}.

Definition set_tictactoe_stats v (ls : LocalStorage) : LocalStorage :=
  {| linera_snake_scores := linera_snake_scores ls;
     linera_tictactoe_stats := Json v;
     linera_snakeladders_stats := linera_snakeladders_stats ls;
     linera_uno_stats := linera_uno_stats ls;
     linera_profiles := linera_profiles ls;
     linera_games_played := linera_games_played ls ;
     linera_rooms := linera_rooms ls |}.

Definition set_snakeladders_stats v (ls : LocalStorage) : LocalStorage :=
  {| linera_snake_scores := linera_snake_scores ls;
     linera_tictactoe_stats := linera_tictactoe_stats ls;
     linera_snakeladders_stats := Json v;
     linera_uno_stats := linera_uno_stats ls;
     linera_profiles := linera_profiles ls;
     linera_games_played := linera_games_played ls ;
     linera_rooms := linera_rooms ls |}.

Definition set_uno_stats v (ls : LocalStorage) : LocalStorage :=
  {| linera_snake_scores := linera_snake_scores ls;
     linera_tictactoe_stats := linera_tictactoe_stats ls;
     linera_snakeladders_stats := linera_snakeladders_stats ls;
     linera_uno_stats := Json v;
     linera_profiles := linera_profiles ls;
     linera_games_played := linera_games_played ls ;
     linera_rooms := linera_rooms ls |}.

Definition set_profiles v (ls : LocalStorage) : LocalStorage :=
  {| linera_snake_scores := linera_snake_scores ls;
     linera_tictactoe_stats := linera_tictactoe_stats ls;
     linera_snakeladders_stats := linera_snakeladders_stats ls;
     linera_uno_stats := linera_uno_stats ls;
     linera_profiles := Json v;
     linera_games_played := linera_games_played ls ;
     linera_rooms := linera_rooms ls |}.

Definition set_games_played v (ls : LocalStorage) : LocalStorage :=
  {| linera_snake_scores := linera_snake_scores ls;
     linera_tictactoe_stats := linera_tictactoe_stats ls;
     linera_snakeladders_stats := linera_snakeladders_stats ls;
     linera_uno_stats := linera_uno_stats ls;
     linera_profiles := linera_profiles ls;
     linera_games_played := Json v ;
     linera_rooms := linera_rooms ls |}.

Definition set_rooms v (ls : LocalStorage) : LocalStorage :=
  {| linera_snake_scores := linera_snake_scores ls;
     linera_tictactoe_stats := linera_tictactoe_stats ls;
     linera_snakeladders_stats := linera_snakeladders_stats ls;
     linera_uno_stats := linera_uno_stats ls;
     linera_profiles := linera_profiles ls;
     linera_games_played := linera_games_played ls;
     linera_rooms := Json v |}.

(** *** Computations that read and write the store and may throw *)

Inductive Result (A : Type) :=
| Ok (a : A)
| Throw.
Arguments Throw {A}.

Definition M (A : Type) : Type := LocalStorage -> Result A * LocalStorage.

Definition ret {A : Type} (a : A) : M A := fun ls => (Ok a, ls).

Definition bind {A B : Type} (m : M A) (f : A -> M B) : M B :=
  fun ls =>
    match m ls with
    | (Ok a, ls') => f a ls'
    | (Throw, ls') => (Throw, ls')
    end.

(** [try { m } catch { h }], as a total function of the store. *)
Definition try_catch {A : Type} (m : M A) (h : A)
  : LocalStorage -> A * LocalStorage :=
  fun ls =>
    match m ls with
    | (Ok a, ls') => (a, ls')
    | (Throw, ls') => (h, ls')
    end.

(** [JSON.parse(localStorage.getItem(key) || d)] where [d] is the text
    of the value [dflt]. *)
Definition parse_or {A : Type} (s : Slot A) (dflt : A) : Result A :=
  match s with
  | Absent => Ok dflt
  | Corrupt => Throw
  | Json v => Ok v
  end.

Definition getItem_parse {A : Type} (key : LocalStorage -> Slot A)
    (dflt : A) : M A :=
  fun ls => (parse_or (key ls) dflt, ls).

(** [localStorage.setItem(key, JSON.stringify(v))] *)
Definition setItem (upd : LocalStorage -> LocalStorage) : M unit :=
  fun ls => (Ok tt, upd ls).

End Storage.

Notation "'do' x <- m ; k" := (Storage.bind m (fun x => k))
  (at level 10, x name, m at level 99, k at level 200).
Notation "'exec' m ; k" := (Storage.bind m (fun _ => k))
  (at level 10, m at level 99, k at level 200).

(** ** The hook ([src/hooks/useLineraClient.ts]) *)

Module Hook.
Import Storage.
Import Types.

Record LineraWallet := {
  address : string;
  chainId : string;
  isRealBlockchain : bool
}.

(** The React state of the hook that the operations close over. *)
Record State := {
  isConnected : bool;
  wallet : option LineraWallet;
  usingDemoMode : bool
}.

(** [!usingDemoMode && lineraClient.isConnected] *)
Definition remote (h : State) (c : Client.LineraGameClient) : bool :=
  negb (usingDemoMode h) && Client.isConnected c.

(** *** Demo mode helpers *)

Definition AVATARS_length : Z := 12.

Definition hashCode (str : string) : Z :=
  Z.abs
    (fold_left
       (fun hash char =>
          JS.to_int32 (JS.to_int32 (hash * 2 ^ 5) - hash + char))
       (JS.charCodes str) 0).

Record DemoPlayer := {
  name : string;
  demo_score : Z;
  games : Z;
  demo_winRate : Z;
  demo_avatar : Z
}.

Definition demoPlayers : list DemoPlayer :=
  [ {| name := "CryptoKing"; demo_score := 12847; games := 234;
       demo_winRate := 78; demo_avatar := 0 |};
    {| name := "Web3Pro"; demo_score := 11293; games := 198;
       demo_winRate := 72; demo_avatar := 1 |};
    {| name := "BlockMaster"; demo_score := 10892; games := 312;
       demo_winRate := 65; demo_avatar := 2 |};
    {| name := "ChainGamer"; demo_score := 9847; games := 156;
       demo_winRate := 69; demo_avatar := 3 |};
    {| name := "PixelNinja"; demo_score := 8921; games := 287;
       demo_winRate := 61; demo_avatar := 4 |};
    {| name := "TokenChamp"; demo_score := 8456; games := 201;
       demo_winRate := 58; demo_avatar := 5 |};
    {| name := "DeFiGamer"; demo_score := 7892; games := 178;
       demo_winRate := 55; demo_avatar := 6 |};
    {| name := "NFTPlayer"; demo_score := 7234; games := 245;
       demo_winRate := 52; demo_avatar := 7 |};
    {| name := "MetaGamer"; demo_score := 6891; games := 134;
       demo_winRate := 60; demo_avatar := 8 |};
    {| name := "ZeroLag"; demo_score := 6543; games := 167;
       demo_winRate := 54; demo_avatar := 2 |} ].

(** [l.map((p, i) => f(p, i + 1))], from index [i]. *)
Fixpoint mapi_from {A B : Type} (f : A -> Z -> B) (i : Z) (l : list A)
  : list B :=
  match l with
  | [] => []
  | p :: l' => f p (i + 1) :: mapi_from f (i + 1) l'
  end.

Definition generateDemoLeaderboard (gameType : string) (limit : Z)
  : list LeaderboardEntry :=
  mapi_from
    (fun p r =>
       {| rank := r;
          playerName := name p;
          playerAddress :=
            String.append "0x"
              (String.append
                 (JS.str_take 8 (JS.hex_string (hashCode (name p))))
                 "...");
          score := demo_score p;
          gamesPlayed := games p;
          winRate := demo_winRate p;
          avatar := demo_avatar p |})
    0 (JS.slice0 demoPlayers limit).

(** *** Game operations *)

Definition submitSnakeScore (h : State) (c : Client.LineraGameClient)
    (score : Z) (ls : LocalStorage) : bool * LocalStorage :=
  match isConnected h, wallet h with
  | true, Some w =>
      if remote h c then (Client.submitSnakeScore c score, ls)
      else
        try_catch
          (do storedScores <- getItem_parse linera_snake_scores [];
           let currentHigh :=
             JS.num_or (JS.get (address w) storedScores) 0 in
           exec (if score >? currentHigh
                 then setItem
                        (set_snake_scores
                           (JS.set (address w) score storedScores))
                 else ret tt);
           do gamesPlayed <- getItem_parse linera_games_played [];
           exec setItem
                  (set_games_played
                     (JS.set (address w)
                        (JS.num_or (JS.get (address w) gamesPlayed) 0 + 1)
                        gamesPlayed));
           ret true)
          false ls
  | _, _ => (false, ls)
  end.

(** [if (won) stats.wins++; else stats.losses++;] *)
Definition count (won : bool) (stats : Stats) : Stats :=
  if won
  then {| wins := wins stats + 1; losses := losses stats;
          bestPosition := bestPosition stats |}
  else {| wins := wins stats; losses := losses stats + 1;
          bestPosition := bestPosition stats |}.

Definition submitTicTacToeResult (h : State) (c : Client.LineraGameClient)
    (won : bool) (ls : LocalStorage) : bool * LocalStorage :=
  match isConnected h, wallet h with
  | true, Some w =>
      if remote h c then (Client.submitTicTacToeResult c won None, ls)
      else
        try_catch
          (do storedStats <- getItem_parse linera_tictactoe_stats [];
           let stats :=
             JS.obj_or (JS.get (address w) storedStats)
               {| wins := 0; losses := 0; bestPosition := None |} in
           let stats := count won stats in
           exec setItem
                  (set_tictactoe_stats
                     (JS.set (address w) stats storedStats));
           ret true)
          false ls
  | _, _ => (false, ls)
  end.

(** [if (position < stats.bestPosition) stats.bestPosition = position;]
    (a comparison with [undefined] is false). *)
Definition improve (position : Z) (stats : Stats) : Stats :=
  match bestPosition stats with
  | Some best =>
      if position <? best
      then {| wins := wins stats; losses := losses stats;
              bestPosition := Some position |}
      else stats
  | None => stats
  end.

Definition submitSnakeLaddersResult (h : State)
    (c : Client.LineraGameClient) (won : bool) (position : Z)
    (ls : LocalStorage) : bool * LocalStorage :=
  match isConnected h, wallet h with
  | true, Some w =>
      if remote h c
      then (Client.submitSnakeLaddersResult c won position, ls)
      else
        try_catch
          (do storedStats <- getItem_parse linera_snakeladders_stats [];
           let stats :=
             JS.obj_or (JS.get (address w) storedStats)
               {| wins := 0; losses := 0; bestPosition := Some 4 |} in
           let stats := count won stats in
           let stats := improve position stats in
           exec setItem
                  (set_snakeladders_stats
                     (JS.set (address w) stats storedStats));
           ret true)
          false ls
  | _, _ => (false, ls)
  end.

Definition submitUnoResult (h : State) (c : Client.LineraGameClient)
    (won : bool) (ls : LocalStorage) : bool * LocalStorage :=
  match isConnected h, wallet h with
  | true, Some w =>
      if remote h c then (Client.submitUnoResult c won, ls)
      else
        try_catch
          (do storedStats <- getItem_parse linera_uno_stats [];
           let stats :=
             JS.obj_or (JS.get (address w) storedStats)
               {| wins := 0; losses := 0; bestPosition := None |} in
           let stats := count won stats in
           exec setItem
                  (set_uno_stats (JS.set (address w) stats storedStats));
           ret true)
          false ls
  | _, _ => (false, ls)
  end.

Definition updateProfile (h : State) (c : Client.LineraGameClient)
    (username : string) (avatarId : Z) (ls : LocalStorage)
  : bool * LocalStorage :=
  match isConnected h, wallet h with
  | true, Some w =>
      if remote h c then (Client.updateProfile c username avatarId, ls)
      else
        try_catch
          (do storedProfiles <- getItem_parse linera_profiles [];
           exec setItem
                  (set_profiles
                     (JS.set (address w)
                        {| Storage.username := username;
                           Storage.avatarId := avatarId |}
                        storedProfiles));
           ret true)
          false ls
  | _, _ => (false, ls)
  end.

(** *** Room operations

    [random] is the text [Math.random().toString(36).slice(2, 6)
    .toUpperCase()] produces during the call, [now] the value of
    [Date.now()]. *)

Definition createRoom (h : State) (c : Client.LineraGameClient)
    (gameType : string) (maxPlayers fee : Z) (random : string) (now : Z)
    (ls : LocalStorage) : option string * LocalStorage :=
  match isConnected h, wallet h with
  | true, Some w =>
      if remote h c
      then (Client.createRoom c gameType maxPlayers fee, ls)
      else
        try_catch
          (let roomId :=
             String.append (JS.toUpperCase (JS.str_take 3 gameType))
               (String.append "-" random) in
           do storedRooms <- getItem_parse linera_rooms [];
           do storedProfiles <- getItem_parse linera_profiles [];
           let profile := JS.get (address w) storedProfiles in
           exec setItem
                  (set_rooms
                     (storedRooms ++
                      [ {| id := roomId;
                           game := gameType;
                           players := 1;
                           Types.maxPlayers := maxPlayers;
                           Types.fee := fee;
                           host :=
                             JS.str_or
                               (option_map Storage.username profile)
                               (JS.str_take 10 (address w));
                           status := waiting;
                           Types.chainId := None;
                           createdAt := Some now |} ]));
           ret (Some roomId))
          None ls
  | _, _ => (None, ls)
  end.

(** [room.players++] and the change of status of a full room. *)
Definition enter (room : GameRoom) : GameRoom :=
  {| id := id room;
     game := game room;
     players := players room + 1;
     maxPlayers := maxPlayers room;
     fee := fee room;
     host := host room;
     status :=
       if players room + 1 >=? maxPlayers room then playing
       else status room;
     Types.chainId := Types.chainId room;
     createdAt := createdAt room |}.

(** The rooms after [joinRoom] on the first room of the given id, when
    there is one with a free place. *)
Fixpoint joined (roomId : string) (rooms : list GameRoom)
  : option (list GameRoom) :=
  match rooms with
  | [] => None
  | room :: rooms' =>
      if String.eqb (id room) roomId
      then (if players room >=? maxPlayers room then None
            else Some (enter room :: rooms'))
      else option_map (cons room) (joined roomId rooms')
  end.

Definition joinRoom (h : State) (c : Client.LineraGameClient)
    (roomId : string) (ls : LocalStorage) : bool * LocalStorage :=
  match isConnected h, wallet h with
  | true, Some w =>
      if remote h c then (Client.joinRoom c roomId, ls)
      else
        try_catch
          (do storedRooms <- getItem_parse linera_rooms [];
           match joined roomId storedRooms with
           | None => ret false
           | Some rooms =>
               exec setItem (set_rooms rooms);
               ret true
           end)
          false ls
  | _, _ => (false, ls)
  end.

(** [now - r.createdAt < 3600000 && r.status !== 'finished']; the
    comparison is false for a room without [createdAt]. *)
Definition active (now : Z) (r : GameRoom) : bool :=
  match createdAt r with
  | Some t => (now - t <? 3600000)
  | None => false
  end
  && match status r with finished => false | _ => true end.

Definition getActiveRooms (h : State) (c : Client.LineraGameClient)
    (gameType : option string) (now : Z) (ls : LocalStorage)
  : list GameRoom :=
  if remote h c then Client.getActiveRooms c gameType
  else
    fst
      (try_catch
         (do storedRooms <- getItem_parse linera_rooms [];
          let activeRooms := filter (active now) storedRooms in
          match gameType with
          | Some g =>
              if negb (String.eqb g "") && negb (String.eqb g "all")
              then ret (filter (fun r => String.eqb (game r) g) activeRooms)
              else ret activeRooms
          | None => ret activeRooms
          end)
         [] ls).

(** *** Query operations *)

(** The score, wins and losses of one player on the board of
    [gameType]: the [switch] of [getLeaderboard]. *)
Definition tally (gameType : string) (snakeScore : Z)
    (tttStats slStats unoStats : Stats) : Z * Z * Z :=
  if String.eqb gameType "snake" then
    (snakeScore, JS.floor_div snakeScore 50, 0)
  else if String.eqb gameType "tictactoe" then
    (wins tttStats * 100, wins tttStats, losses tttStats)
  else if String.eqb gameType "snakeladders" then
    (wins slStats * 150, wins slStats, losses slStats)
  else if String.eqb gameType "uno" then
    (wins unoStats * 100, wins unoStats, losses unoStats)
  else
    (JS.add snakeScore
       ((wins tttStats + wins slStats + wins unoStats) * 100),
     wins tttStats + wins slStats + wins unoStats,
     losses tttStats + losses slStats + losses unoStats).

(** [wins + losses || storedGames[address] || 1] *)
Definition gamesPlayed_of (wins losses : Z) (stored : option Z) : Z :=
  JS.or_num (wins + losses) (JS.num_or stored 1).

(** [gamesPlayed > 0 ? Math.round((wins / gamesPlayed) * 100) : 0] *)
Definition winRate_of (wins gamesPlayed : Z) : Z :=
  if gamesPlayed >? 0
  then JS.Math_round
         (JS.fmul (JS.fdiv (JS.of_Z wins) (JS.of_Z gamesPlayed))
                  (JS.of_Z 100))
  else 0.

Definition no_stats : Stats :=
  {| wins := 0; losses := 0; bestPosition := None |}.

(** The callback of [Array.from(allPlayers).map]. *)
Definition entry_of (gameType : string)
    (storedScores : JS.Obj Z) (storedTTT storedSL storedUno : JS.Obj Stats)
    (storedProfiles : JS.Obj Profile) (storedGames : JS.Obj Z)
    (address : string) : LeaderboardEntry :=
  let profile := JS.get address storedProfiles in
  let snakeScore := JS.num_or (JS.get address storedScores) 0 in
  let tttStats := JS.obj_or (JS.get address storedTTT) no_stats in
  let slStats := JS.obj_or (JS.get address storedSL) no_stats in
  let unoStats := JS.obj_or (JS.get address storedUno) no_stats in
  let '(score, wins, losses) :=
    tally gameType snakeScore tttStats slStats unoStats in
  let gamesPlayed :=
    gamesPlayed_of wins losses (JS.get address storedGames) in
  let winRate := winRate_of wins gamesPlayed in
  {| rank := 0;
     playerName :=
       JS.str_or (option_map Storage.username profile)
         (String.append "Player"
            (JS.dec_string (JS.rem (hashCode address) 1000)));
     playerAddress := address;
     score := score;
     gamesPlayed := gamesPlayed;
     winRate := winRate;
     avatar := JS.rem (hashCode address) AVATARS_length |}.

(** [new Set([...Object.keys(a), ...Object.keys(b), ...])] as an array. *)
Definition allPlayers_of (storedScores : JS.Obj Z)
    (storedTTT storedSL storedUno : JS.Obj Stats) : list string :=
  JS.set_of
    (JS.keys storedScores ++ JS.keys storedTTT ++ JS.keys storedSL
       ++ JS.keys storedUno).

(** [entries.sort((a, b) => b.score - a.score)] followed by
    [entries.forEach((entry, index) => { entry.rank = index + 1; })]. *)
Definition ranked (entries : list LeaderboardEntry)
  : list LeaderboardEntry :=
  mapi_from (fun e r => with_rank r e) 0 (JS.sort_desc score entries).

Definition DEFAULT_LIMIT : Z := 10.

Definition getLeaderboard (h : State) (c : Client.LineraGameClient)
    (gameType : string) (limit : option Z) (ls : LocalStorage)
  : list LeaderboardEntry :=
  let limit := JS.obj_or limit DEFAULT_LIMIT in
  if remote h c then Client.getLeaderboard c gameType limit
  else
    fst
      (try_catch
         (do storedScores <- getItem_parse linera_snake_scores [];
          do storedTTT <- getItem_parse linera_tictactoe_stats [];
          do storedSL <- getItem_parse linera_snakeladders_stats [];
          do storedUno <- getItem_parse linera_uno_stats [];
          do storedProfiles <- getItem_parse linera_profiles [];
          do storedGames <- getItem_parse linera_games_played [];
          let allPlayers :=
            allPlayers_of storedScores storedTTT storedSL storedUno in
          let entries :=
            map (entry_of gameType storedScores storedTTT storedSL
                   storedUno storedProfiles storedGames)
                allPlayers in
          let entries := ranked entries in
          if (Z.of_nat (List.length entries) =? 0)
          then ret (generateDemoLeaderboard gameType limit)
          else ret (JS.slice0 entries limit))
         (generateDemoLeaderboard gameType limit) ls).

(** [address || wallet?.address]; the empty text stands for
    [undefined], which is falsy as well. *)
Definition targetAddress_of (h : State) (address : option string)
  : string :=
  JS.str_or address
    (match wallet h with Some w => Hook.address w | None => "" end).

Definition getUserProfile (h : State) (c : Client.LineraGameClient)
    (address : option string) (ls : LocalStorage) : option UserProfile :=
  match targetAddress_of h address with
  | EmptyString => None
  | targetAddress =>
      if remote h c then Client.getUserProfile c (Some targetAddress)
      else
        fst
          (try_catch
             (do storedProfiles <- getItem_parse linera_profiles [];
              do storedScores <- getItem_parse linera_snake_scores [];
              do storedTTT <- getItem_parse linera_tictactoe_stats [];
              do storedSL <- getItem_parse linera_snakeladders_stats [];
              do storedUno <- getItem_parse linera_uno_stats [];
              do storedGames <- getItem_parse linera_games_played [];
              let profile := JS.get targetAddress storedProfiles in
              let snakeHighScore :=
                JS.num_or (JS.get targetAddress storedScores) 0 in
              let tttStats :=
                JS.obj_or (JS.get targetAddress storedTTT) no_stats in
              let slStats :=
                JS.obj_or (JS.get targetAddress storedSL) no_stats in
              let unoStats :=
                JS.obj_or (JS.get targetAddress storedUno) no_stats in
              let snakeGames :=
                JS.num_or (JS.get targetAddress storedGames) 0 in
              let totalWins :=
                wins tttStats + wins slStats + wins unoStats in
              let totalXP := JS.add snakeHighScore (totalWins * 50) in
              ret (Some
                {| username :=
                     JS.str_or (option_map Storage.username profile)
                       "Anonymous Player";
                   avatarId :=
                     JS.num_or (option_map Storage.avatarId profile) 0;
                   level := JS.add (JS.floor_div totalXP 500) 1;
                   xp := JS.rem totalXP 500;
                   snakeHighScore := snakeHighScore;
                   snakeGames := snakeGames;
                   snakeLaddersWins := wins slStats;
                   snakeLaddersLosses := losses slStats;
                   tictactoeWins := wins tttStats;
                   tictactoeLosses := losses tttStats;
                   unoWins := wins unoStats;
                   unoLosses := losses unoStats |}))
             None ls)
  end.

Definition getSnakeHighScore (h : State) (c : Client.LineraGameClient)
    (address : option string) (ls : LocalStorage) : Z :=
  match targetAddress_of h address with
  | EmptyString => 0
  | targetAddress =>
      if remote h c then Client.getSnakeHighScore c (Some targetAddress)
      else
        fst
          (try_catch
             (do storedScores <- getItem_parse linera_snake_scores [];
              ret (JS.num_or (JS.get targetAddress storedScores) 0))
             0 ls)
  end.

(** *** Connection

    The rest of the React state of the hook, with the [initAttempted]
    ref. *)
Record Session := {
  state : State;
  isConnecting : bool;
  error : option string;
  initAttempted : bool
}.

(** The state of a hook that has just been created. *)
Definition initialSession : Session :=
  {| state := {| isConnected := false; wallet := None;
                 usingDemoMode := true |};
     isConnecting := false; error := None; initAttempted := false |}.

(** What the connection acts on: the hook, the SDK module state, the
    [lineraClient] singleton and the key [linera-wallet] of
    [localStorage]. *)
Record World := {
  session : Session;
  sdk : Client.Sdk;
  lineraClient : Client.LineraGameClient;
  linera_wallet : Slot LineraWallet
}.

(** The session once a wallet is set: [setWallet], [setIsConnected(true)]
    and [setUsingDemoMode]. *)
Definition signed_in (w : LineraWallet) (demo : bool) (s : Session)
  : Session :=
  {| state := {| isConnected := true; wallet := Some w;
                 usingDemoMode := demo |};
     isConnecting := isConnecting s; error := error s;
     initAttempted := initAttempted s |}.

(** The wallet of a session on the chain of the remote client. *)
Definition realWallet (c : Client.LineraGameClient) : LineraWallet :=
  {| address := Client.address c; chainId := Client.address c;
     isRealBlockchain := true |}.

(** [checkConnection], the effect that runs when the hook mounts. *)
Definition checkConnection (env : Config.Env) (w : World) : World :=
  if initAttempted (session w) then w
  else
    let s0 :=
      {| state := state (session w);
         isConnecting := isConnecting (session w);
         error := error (session w); initAttempted := true |} in
    let sdk' :=
      if Config.isLineraConfigured env
      then snd (Client.initializeLinera env (sdk w))
      else sdk w in
    if Config.isLineraConfigured env
       && (Client.isLineraAvailable sdk'
           && Client.isConnected (lineraClient w))
    then
      {| session := signed_in (realWallet (lineraClient w)) false s0;
         sdk := sdk'; lineraClient := lineraClient w;
         linera_wallet := linera_wallet w |}
    else
      match linera_wallet w with
      | Absent =>
          {| session := s0; sdk := sdk'; lineraClient := lineraClient w;
             linera_wallet := Absent |}
      | Json parsed =>
          {| session :=
               signed_in
                 {| address := address parsed; chainId := chainId parsed;
                    isRealBlockchain := false |}
                 true s0;
             sdk := sdk'; lineraClient := lineraClient w;
             linera_wallet := linera_wallet w |}
      | Corrupt =>
          {| session := s0; sdk := sdk'; lineraClient := lineraClient w;
             linera_wallet := Absent |}
      end.

(** [connect].  [remoteConnect] is what [lineraClient.connect()] resolves
    to and the client it leaves, should the call be made; [r1], [r2] and
    [r3] are the texts that [Math.random().toString(16).slice(2, 10)],
    [Math.random().toString(16).slice(2, 6)] and
    [Math.random().toString(36).slice(2, 10)] produce for the mock
    wallet. *)
Definition connect (env : Config.Env)
    (remoteConnect : Client.ConnectResult * Client.LineraGameClient)
    (r1 r2 r3 : string) (w : World) : World :=
  let s0 :=
    {| state := state (session w); isConnecting := false; error := None;
       initAttempted := initAttempted (session w) |} in
  let sdk' :=
    if Config.isLineraConfigured env
    then snd (Client.initializeLinera env (sdk w))
    else sdk w in
  let called :=
    Config.isLineraConfigured env && Client.isLineraAvailable sdk' in
  let c' := if called then snd remoteConnect else lineraClient w in
  if called && Client.success (fst remoteConnect)
  then
    {| session :=
         signed_in
           {| address := Client.connected_address (fst remoteConnect);
              chainId := Client.connected_address (fst remoteConnect);
              isRealBlockchain := true |}
           false s0;
       sdk := sdk'; lineraClient := c';
       linera_wallet := linera_wallet w |}
  else
    let newWallet :=
      {| address :=
           String.append "0x" (String.append r1 (String.append "..." r2));
         chainId := String.append "chain-" r3;
         isRealBlockchain := false |} in
    {| session := signed_in newWallet true s0;
       sdk := sdk'; lineraClient := c';
       linera_wallet := Json newWallet |}.

Definition disconnect (w : World) : World :=
  {| session :=
       {| state := {| isConnected := false; wallet := None;
                      usingDemoMode :=
                        usingDemoMode (state (session w)) |};
          isConnecting := isConnecting (session w);
          error := error (session w);
          initAttempted := initAttempted (session w) |};
     sdk := sdk w;
     lineraClient :=
       if remote (state (session w)) (lineraClient w)
       then Client.disconnect (lineraClient w)
       else lineraClient w;
     linera_wallet := Absent |}.

End Hook.

(** ** The earlier copy of the hook

    [src/hooks/useLineraClient.ts] holds two copies of the hook.  The
    first one (lines 1 to 344) has no remote client and keeps
    tic-tac-toe statistics only.  Its [getUserProfile] computes the
    level and the experience by formulas of its own. *)

Module EarlierHook.
Import Storage.

Record LineraWallet := {
  address : string;
  chainId : string
}.

Record UserProfile := {
  username : string;
  avatarId : Z;
  level : Z;
  xp : Z;
  snakeHighScore : Z;
  snakeGames : Z;
  tictactoeWins : Z;
  tictactoeLosses : Z
}.

(** [Math.floor((snakeHighScore / 100 + tttStats.wins * 5) / 10) + 1];
    [snakeHighScore / 100] is not an integer in general, so the sum and
    the quotient are those of the doubles. *)
Definition level_of (snakeHighScore wins : Z) : Z :=
  JS.add
    (JS.Math_floor
       (JS.fdiv
          (JS.fadd (JS.fdiv (JS.of_Z snakeHighScore) (JS.of_Z 100))
                   (JS.of_Z (wins * 5)))
          (JS.of_Z 10)))
    1.

Definition getUserProfile (wallet : option LineraWallet)
    (address : option string) (ls : LocalStorage) : option UserProfile :=
  match JS.str_or address
          (match wallet with Some w => EarlierHook.address w | None => "" end)
  with
  | EmptyString => None
  | targetAddress =>
      fst
        (try_catch
           (do storedProfiles <- getItem_parse linera_profiles [];
            do storedScores <- getItem_parse linera_snake_scores [];
            do storedStats <- getItem_parse linera_tictactoe_stats [];
            let profile := JS.get targetAddress storedProfiles in
            let snakeHighScore :=
              JS.num_or (JS.get targetAddress storedScores) 0 in
            let tttStats :=
              JS.obj_or (JS.get targetAddress storedStats)
                {| wins := 0; losses := 0; bestPosition := None |} in
            ret (Some
              {| username :=
                   JS.str_or (option_map Storage.username profile)
                     "Anonymous Player";
                 avatarId :=
                   JS.num_or (option_map Storage.avatarId profile) 0;
                 level := level_of snakeHighScore (wins tttStats);
                 xp :=
                   JS.add (JS.add snakeHighScore (wins tttStats * 50))
                          (losses tttStats * 10);
                 snakeHighScore := snakeHighScore;
                 snakeGames := JS.add (JS.floor_div snakeHighScore 50) 1;
                 tictactoeWins := wins tttStats;
                 tictactoeLosses := losses tttStats |}))
           None ls)
  end.

End EarlierHook.

(** ** Achievements ([src/hooks/useAchievements.ts]) *)

Module Achievements.

Inductive Category := snake | tictactoe | snakeladders | uno | general.
Inductive Rarity := common | rare | epic | legendary.

(** An achievement; the title, description and icon of the source are
    display texts and play no part in the unlock logic. *)
Record Achievement := {
  id : string;
  unlocked : bool;
  unlockedAt : option Z;
  category : Category;
  rarity : Rarity;
  xpReward : Z
}.

(** A catalogue entry: [Omit<Achievement, 'unlocked' | 'unlockedAt'>]. *)
Definition entry (i : string) (c : Category) (r : Rarity) (x : Z)
  : Achievement :=
  {| id := i; unlocked := false; unlockedAt := None;
     category := c; rarity := r; xpReward := x |}.

Definition ALL_ACHIEVEMENTS : list Achievement :=
  [ entry "first_game" general common 10;
    entry "play_10" general common 25;
    entry "play_50" general rare 100;
    entry "play_100" general epic 250;
    entry "first_win" general common 15;
    entry "win_streak_3" general rare 50;
    entry "win_streak_5" general epic 100;
    entry "win_streak_10" general legendary 500;
    entry "snake_50" snake common 20;
    entry "snake_100" snake rare 50;
    entry "snake_200" snake epic 150;
    entry "snake_500" snake legendary 500;
    entry "snake_no_walls" snake epic 100;
    entry "ttt_first_win" tictactoe common 15;
    entry "ttt_5_wins" tictactoe rare 50;
    entry "ttt_perfect" tictactoe epic 100;
    entry "ttt_20_wins" tictactoe legendary 300;
    entry "sl_first_win" snakeladders common 20;
    entry "sl_ladder_3" snakeladders rare 40;
    entry "sl_no_snakes" snakeladders epic 150;
    entry "sl_comeback" snakeladders legendary 300;
    entry "uno_first_win" uno common 20;
    entry "uno_plus4" uno common 10;
    entry "uno_reverse" uno rare 50;
    entry "uno_domination" uno epic 200;
    entry "uno_speedrun" uno legendary 400 ].

Record AchievementStats := {
  totalGames : Z;
  totalWins : Z;
  currentWinStreak : Z;
  bestWinStreak : Z;
  snakeHighScore : Z;
  tttWins : Z;
  slWins : Z;
  unoWins : Z
}.

(** The state of the hook; [saved] is the content last written under
    [linera-achievements]. *)
Record State := {
  achievements : list Achievement;
  stats : AchievementStats;
  recentUnlock : option Achievement;
  saved : option (list Achievement * AchievementStats)
}.

Definition initialStats : AchievementStats :=
  {| totalGames := 0; totalWins := 0; currentWinStreak := 0;
     bestWinStreak := 0; snakeHighScore := 0; tttWins := 0; slWins := 0;
     unoWins := 0 |}.

(** [{ ...a, unlocked: true, unlockedAt: now }] *)
Definition unlock (now : Z) (a : Achievement) : Achievement :=
  {| id := id a; unlocked := true; unlockedAt := Some now;
     category := category a; rarity := rarity a; xpReward := xpReward a |}.

(** The effect that loads the state: the catalogue, each entry with the
    saved flag and time stamp of the saved achievement of the same id. *)
Definition merge (savedAchievements : list Achievement)
  : list Achievement :=
  map (fun a =>
         match find (fun s => String.eqb (id s) (id a)) savedAchievements with
         | Some s =>
             {| id := id a; unlocked := unlocked s;
                unlockedAt := unlockedAt s; category := category a;
                rarity := rarity a; xpReward := xpReward a |}
         | None => a
         end)
      ALL_ACHIEVEMENTS.

Definition load (stored : option (list Achievement * AchievementStats))
  : State :=
  match stored with
  | Some (savedAchievements, savedStats) =>
      {| achievements := merge savedAchievements; stats := savedStats;
         recentUnlock := None; saved := stored |}
  | None =>
      {| achievements := ALL_ACHIEVEMENTS; stats := initialStats;
         recentUnlock := None; saved := None |}
  end.

(** [achievements.map(a => a.id === id ? unlock(a) : a)] *)
Definition unlock_id (now : Z) (i : string) (l : list Achievement)
  : list Achievement :=
  map (fun a => if String.eqb (id a) i then unlock now a else a) l.

Definition checkAndUnlock (achievementId : string) (now : Z) (st : State)
  : bool * State :=
  match find (fun a => String.eqb (id a) achievementId) (achievements st) with
  | None => (false, st)
  | Some achievement =>
      if unlocked achievement then (false, st)
      else
        let updated := unlock_id now achievementId (achievements st) in
        (true,
         {| achievements := updated;
            stats := stats st;
            recentUnlock := Some (unlock now achievement);
            saved := Some (updated, stats st) |})
  end.

(** The members of [extraData] the hook reads; a missing member is
    [None] or [false]. *)
Record ExtraData := {
  extra_score : option Z;
  perfectTTT : bool;
  playedPlus4 : bool;
  wonWithReverse : bool;
  noSnakesHit : bool
}.

Definition updateStats (game : string) (won : bool)
    (extraData : option ExtraData) (stats : AchievementStats)
  : AchievementStats :=
  let totalGames' := totalGames stats + 1 in
  let totalWins' := if won then totalWins stats + 1 else totalWins stats in
  let currentWinStreak' :=
    if won then currentWinStreak stats + 1 else 0 in
  let bestWinStreak' :=
    if won
    then (if currentWinStreak' >? bestWinStreak stats
          then currentWinStreak' else bestWinStreak stats)
    else bestWinStreak stats in
  let snakeHighScore' :=
    match extraData with
    | Some {| extra_score := Some s |} =>
        if String.eqb game "snake" && negb (s =? 0)
        then (if s >? snakeHighScore stats then s else snakeHighScore stats)
        else snakeHighScore stats
    | _ => snakeHighScore stats
    end in
  {| totalGames := totalGames';
     totalWins := totalWins';
     currentWinStreak := currentWinStreak';
     bestWinStreak := bestWinStreak';
     snakeHighScore := snakeHighScore';
     tttWins :=
       if String.eqb game "tictactoe" && won
       then tttWins stats + 1 else tttWins stats;
     slWins :=
       if String.eqb game "snakeladders" && won
       then slWins stats + 1 else slWins stats;
     unoWins :=
       if String.eqb game "uno" && won
       then unoWins stats + 1 else unoWins stats |}.

(** [extraData?.flag] *)
Definition flag (f : ExtraData -> bool) (extraData : option ExtraData)
  : bool :=
  match extraData with
  | Some x => f x
  | None => false
  end.

(** The [checkAchievements] array: ids with their conditions. *)
Definition checkAchievements (newStats : AchievementStats)
    (extraData : option ExtraData) : list (string * bool) :=
  [ ("first_game", totalGames newStats >=? 1);
    ("play_10", totalGames newStats >=? 10);
    ("play_50", totalGames newStats >=? 50);
    ("play_100", totalGames newStats >=? 100);
    ("first_win", totalWins newStats >=? 1);
    ("win_streak_3", currentWinStreak newStats >=? 3);
    ("win_streak_5", currentWinStreak newStats >=? 5);
    ("win_streak_10", currentWinStreak newStats >=? 10);
    ("snake_50", snakeHighScore newStats >=? 50);
    ("snake_100", snakeHighScore newStats >=? 100);
    ("snake_200", snakeHighScore newStats >=? 200);
    ("snake_500", snakeHighScore newStats >=? 500);
    ("ttt_first_win", tttWins newStats >=? 1);
    ("ttt_5_wins", tttWins newStats >=? 5);
    ("ttt_20_wins", tttWins newStats >=? 20);
    ("sl_first_win", slWins newStats >=? 1);
    ("uno_first_win", unoWins newStats >=? 1);
    ("uno_domination", unoWins newStats >=? 10) ]
  ++ (if flag perfectTTT extraData then [("ttt_perfect", true)] else [])
  ++ (if flag playedPlus4 extraData then [("uno_plus4", true)] else [])
  ++ (if flag wonWithReverse extraData then [("uno_reverse", true)] else [])
  ++ (if flag noSnakesHit extraData then [("sl_no_snakes", true)] else []).

(** One iteration of the [forEach] that processes the unlocks, on the
    pair of [updatedAchievements] and [newUnlocks]. *)
Definition processUnlock (now : Z)
    (acc : list Achievement * list Achievement) (check : string * bool)
  : list Achievement * list Achievement :=
  let '(updatedAchievements, newUnlocks) := acc in
  let '(i, condition) := check in
  if condition then
    match find (fun a => String.eqb (id a) i) updatedAchievements with
    | Some achievement =>
        if unlocked achievement then acc
        else (unlock_id now i updatedAchievements,
              newUnlocks ++ [unlock now achievement])
    | None => acc
    end
  else acc.

Definition trackGamePlayed (game : string) (won : bool)
    (extraData : option ExtraData) (now : Z) (st : State)
  : list Achievement * State :=
  let newStats := updateStats game won extraData (stats st) in
  let '(updatedAchievements, newUnlocks) :=
    fold_left (processUnlock now) (checkAchievements newStats extraData)
              (achievements st, []) in
  (newUnlocks,
   {| achievements :=
        match newUnlocks with
        | [] => achievements st
        | _ => updatedAchievements
        end;
      stats := newStats;
      recentUnlock := last (map Some newUnlocks) (recentUnlock st);
      saved := Some (updatedAchievements, newStats) |}).

Definition clearRecentUnlock (st : State) : State :=
  {| achievements := achievements st; stats := stats st;
     recentUnlock := None; saved := saved st |}.

Record Progress := {
  progress_unlocked : Z;
  total : Z;
  percentage : JS.Rounded
}.

Definition getProgress (st : State) : Progress :=
  let unlocked :=
    Z.of_nat (List.length (filter unlocked (achievements st))) in
  let total := Z.of_nat (List.length (achievements st)) in
  {| progress_unlocked := unlocked;
     total := total;
     percentage :=
       JS.Math_round_any
         (JS.fmul (JS.fdiv (JS.of_Z unlocked) (JS.of_Z total))
                  (JS.of_Z 100)) |}.

End Achievements.

(** ** The achievements hook in its component

    [checkAndUnlock] and [trackGamePlayed] are callbacks of a render
    ([useCallback] with [achievements] and [stats] among the
    dependencies): a call reads [achievements] and [stats] as the render
    that made the callback had them, whatever was set since.
    [setAchievements], [setStats] and [setRecentUnlock] replace what
    React holds for the next render, and [localStorage] is written at
    once.  The functions of the same names above are the call made first
    after a render, when React holds what the callback reads. *)

Module UseAchievements.
Import Achievements.

(** [seen] is the state as last rendered, which the callbacks read;
    [held] is what React holds for the next render, with the content of
    [localStorage] in [saved]. *)
Record Component := {
  seen : State;
  held : State
}.

Definition render (c : Component) : Component :=
  {| seen := held c; held := held c |}.

(** The state of the first render: [useState([])] and the initial
    statistics; [stored] is what [localStorage] holds. *)
Definition firstRender (stored : option (list Achievement * AchievementStats))
  : State :=
  {| achievements := []; stats := initialStats; recentUnlock := None;
     saved := stored |}.

(** The component once it is mounted: the first render, the effect that
    loads the state, and the render the effect causes. *)
Definition mount (stored : option (list Achievement * AchievementStats))
  : Component :=
  render {| seen := firstRender stored; held := load stored |}.

Definition checkAndUnlock (achievementId : string) (now : Z)
    (c : Component) : bool * Component :=
  match find (fun a => String.eqb (id a) achievementId)
             (achievements (seen c)) with
  | None => (false, c)
  | Some achievement =>
      if unlocked achievement then (false, c)
      else
        let updated :=
          unlock_id now achievementId (achievements (seen c)) in
        (true,
         {| seen := seen c;
            held :=
              {| achievements := updated;
                 stats := stats (held c);
                 recentUnlock := Some (unlock now achievement);
                 saved := Some (updated, stats (seen c)) |} |})
  end.

Definition trackGamePlayed (game : string) (won : bool)
    (extraData : option ExtraData) (now : Z) (c : Component)
  : list Achievement * Component :=
  let newStats := updateStats game won extraData (stats (seen c)) in
  let '(updatedAchievements, newUnlocks) :=
    fold_left (processUnlock now) (checkAchievements newStats extraData)
              (achievements (seen c), []) in
  (newUnlocks,
   {| seen := seen c;
      held :=
        {| achievements :=
             match newUnlocks with
             | [] => achievements (held c)
             | _ => updatedAchievements
             end;
           stats := newStats;
           recentUnlock :=
             last (map Some newUnlocks) (recentUnlock (held c));
           saved := Some (updatedAchievements, newStats) |} |}).

Definition clearRecentUnlock (c : Component) : Component :=
  {| seen := seen c;
     held :=
       {| achievements := achievements (held c); stats := stats (held c);
          recentUnlock := None; saved := saved (held c) |} |}.

Definition getProgress (c : Component) : Progress :=
  Achievements.getProgress (seen c).

End UseAchievements.

(** ** The snake game

    The component [SnakeGame], the caller of [trackGamePlayed] (its text
    is the second one of [src/components/layout/Navbar.tsx]).  A tick of
    the game loop and a key or button event run to completion on the
    state the previous one left.  [newFood] is the cell [generateFood]
    returns when the event calls it, [now] the value of [Date.now()]. *)

Module SnakeGame.

Definition GRID_SIZE : Z := 20.
Definition INITIAL_SPEED : Z := 150.

Record Position := { x : Z; y : Z }.

Inductive Direction := UP | DOWN | LEFT | RIGHT.

(** The values of [gameState]. *)
Inductive Phase := idle | playing | paused | gameover.

(** The state of the component: its React state, with [direction] for
    the state and the ref [directionRef], which are set together; the
    key [snake-highscore] of [localStorage]; and the state of the
    achievements hook it uses. *)
Record Game := {
  snake : list Position;
  food : Position;
  direction : Direction;
  gameState : Phase;
  score : Z;
  highScore : Z;
  speed : Z;
  showWinCelebration : bool;
  snake_highscore : option Z;
  achievements : Achievements.State
}.

(** The state on mount: [highScore] is
    [saved ? parseInt(saved, 10) : 0]. *)
Definition initial (saved : option Z) (hook : Achievements.State) : Game :=
  {| snake := [ {| x := 10; y := 10 |} ];
     food := {| x := 15; y := 10 |};
     direction := RIGHT;
     gameState := idle;
     score := 0;
     highScore := match saved with Some n => n | None => 0 end;
     speed := INITIAL_SPEED;
     showWinCelebration := false;
     snake_highscore := saved;
     achievements := hook |}.

Definition with_gameState (p : Phase) (g : Game) : Game :=
  {| snake := snake g; food := food g; direction := direction g;
     gameState := p; score := score g; highScore := highScore g;
     speed := speed g; showWinCelebration := showWinCelebration g;
     snake_highscore := snake_highscore g;
     achievements := achievements g |}.

Definition with_direction (d : Direction) (g : Game) : Game :=
  {| snake := snake g; food := food g; direction := d;
     gameState := gameState g; score := score g; highScore := highScore g;
     speed := speed g; showWinCelebration := showWinCelebration g;
     snake_highscore := snake_highscore g;
     achievements := achievements g |}.

Definition resetGame (newFood : Position) (g : Game) : Game :=
  {| snake := [ {| x := 10; y := 10 |} ];
     food := newFood;
     direction := RIGHT;
     gameState := idle;
     score := 0;
     highScore := highScore g;
     speed := INITIAL_SPEED;
     showWinCelebration := false;
     snake_highscore := snake_highscore g;
     achievements := achievements g |}.

Definition startGame (newFood : Position) (g : Game) : Game :=
  match gameState g with
  | idle | gameover => with_gameState playing (resetGame newFood g)
  | paused => with_gameState playing g
  | playing => g
  end.

Definition pauseGame (g : Game) : Game :=
  match gameState g with
  | playing => with_gameState paused g
  | _ => g
  end.

(** [{ score: finalScore }] *)
Definition scoreData (finalScore : Z) : Achievements.ExtraData :=
  {| Achievements.extra_score := Some finalScore;
     Achievements.perfectTTT := false;
     Achievements.playedPlus4 := false;
     Achievements.wonWithReverse := false;
     Achievements.noSnakesHit := false |}.

Definition handleGameOver (finalScore : Z) (now : Z) (g : Game) : Game :=
  let isNewHighScore := finalScore >? highScore g in
  {| snake := snake g; food := food g; direction := direction g;
     gameState := gameover;
     score := score g;
     highScore := if isNewHighScore then finalScore else highScore g;
     speed := speed g;
     showWinCelebration :=
       if isNewHighScore then true else showWinCelebration g;
     snake_highscore :=
       if isNewHighScore then Some finalScore else snake_highscore g;
     achievements :=
       snd (Achievements.trackGamePlayed "snake" isNewHighScore
              (Some (scoreData finalScore)) now (achievements g)) |}.

(** [segment.x === p.x && segment.y === p.y] *)
Definition same (p q : Position) : bool := (x p =? x q) && (y p =? y q).

(** [prevSnake.some(segment => ...)] *)
Definition hits (p : Position) (s : list Position) : bool :=
  existsb (fun segment => same segment p) s.

Definition ahead (d : Direction) (head : Position) : Position :=
  match d with
  | UP => {| x := x head; y := y head - 1 |}
  | DOWN => {| x := x head; y := y head + 1 |}
  | LEFT => {| x := x head - 1; y := y head |}
  | RIGHT => {| x := x head + 1; y := y head |}
  end.

(** [moveSnake], a tick of the game loop.  The snake always has a head
    (an empty array would make the source throw). *)
Definition moveSnake (newFood : Position) (now : Z) (g : Game) : Game :=
  match gameState g, snake g with
  | playing, head :: _ =>
      let newHead := ahead (direction g) head in
      if (x newHead <? 0) || (x newHead >=? GRID_SIZE)
         || (y newHead <? 0) || (y newHead >=? GRID_SIZE)
      then handleGameOver (score g) now g
      else if hits newHead (snake g)
      then handleGameOver (score g) now g
      else if same newHead (food g)
      then
        {| snake := newHead :: snake g;
           food := newFood;
           direction := direction g;
           gameState := gameState g;
           score := score g + 10;
           highScore := highScore g;
           speed := Z.max 50 (speed g - 2);
           showWinCelebration := showWinCelebration g;
           snake_highscore := snake_highscore g;
           achievements := achievements g |}
      else
        {| snake := removelast (newHead :: snake g);
           food := food g;
           direction := direction g;
           gameState := gameState g;
           score := score g;
           highScore := highScore g;
           speed := speed g;
           showWinCelebration := showWinCelebration g;
           snake_highscore := snake_highscore g;
           achievements := achievements g |}
  | _, _ => g
  end.

Definition opposite (d : Direction) : Direction :=
  match d with
  | UP => DOWN
  | DOWN => UP
  | LEFT => RIGHT
  | RIGHT => LEFT
  end.

Definition Direction_eqb (a b : Direction) : bool :=
  match a, b with
  | UP, UP | DOWN, DOWN | LEFT, LEFT | RIGHT, RIGHT => true
  | _, _ => false
  end.

(** [if (currentDir !== opposites[newDir]) { ... }] *)
Definition handleDirectionClick (newDir : Direction) (g : Game) : Game :=
  if Direction_eqb (direction g) (opposite newDir) then g
  else with_direction newDir g.

(** The direction a key asks for. *)
Definition keyDirection (code : string) : option Direction :=
  if String.eqb code "ArrowUp" || String.eqb code "KeyW" then Some UP
  else if String.eqb code "ArrowDown" || String.eqb code "KeyS"
  then Some DOWN
  else if String.eqb code "ArrowLeft" || String.eqb code "KeyA"
  then Some LEFT
  else if String.eqb code "ArrowRight" || String.eqb code "KeyD"
  then Some RIGHT
  else None.

Definition handleKeyDown (code : string) (newFood : Position) (g : Game)
  : Game :=
  match gameState g with
  | idle | gameover =>
      if String.eqb code "Space" || String.eqb code "Enter"
      then startGame newFood g
      else g
  | playing | paused =>
      if String.eqb code "Space"
      then match gameState g with
           | playing => pauseGame g
           | _ => startGame newFood g
           end
      else
        match keyDirection code with
        | Some newDirection =>
            if Direction_eqb (direction g) (opposite newDirection) then g
            else with_direction newDirection g
        | None => g
        end
  end.

End SnakeGame.

(** ** Observations used in the statements *)

Import Storage.

(** The table a readable slot holds; the default [{}] when absent. *)
Definition table {A : Type} (s : Slot (JS.Obj A)) : JS.Obj A :=
  match s with
  | Json o => o
  | Absent | Corrupt => []
  end.

Definition readable {A : Type} (s : Slot A) : Prop := s <> Corrupt.

(** Every slot the queries read parses. *)
Definition all_readable (ls : LocalStorage) : Prop :=
  readable (linera_snake_scores ls) /\ readable (linera_tictactoe_stats ls)
  /\ readable (linera_snakeladders_stats ls) /\ readable (linera_uno_stats ls)
  /\ readable (linera_profiles ls) /\ readable (linera_games_played ls).

(** The stored snake high score of a player, read the way the code reads
    it: [storedScores[address] || 0]. *)
Definition storedHigh (address : string) (ls : LocalStorage) : Z :=
  JS.num_or (JS.get address (table (linera_snake_scores ls))) 0.

(** The store after a sequence of snake-score submissions. *)
Definition submitScores (h : Hook.State) (c : Client.LineraGameClient)
    (scores : list Z) (ls : LocalStorage) : LocalStorage :=
  fold_left (fun ls s => snd (Hook.submitSnakeScore h c s ls)) scores ls.

(** [max(s1..sn)] of a non-empty sequence. *)
Definition maximum (s1 : Z) (rest : list Z) : Z := fold_left Z.max rest s1.

(** A session in demo mode with a wallet. *)
Definition demo_session (h : Hook.State) (c : Client.LineraGameClient)
    (w : Hook.LineraWallet) : Prop :=
  Hook.isConnected h = true /\ Hook.wallet h = Some w
  /\ Hook.remote h c = false.

(** A session whose calls go to the remote client. *)
Definition remote_session (h : Hook.State) (c : Client.LineraGameClient)
    (w : Hook.LineraWallet) : Prop :=
  Hook.isConnected h = true /\ Hook.wallet h = Some w
  /\ Hook.remote h c = true.

(** *** Sample sessions and stores *)

Definition alice : Hook.LineraWallet :=
  {| Hook.address := "0xa11ce...01"; Hook.chainId := "chain-a";
     Hook.isRealBlockchain := false |}.

(** The hook in demo mode, connected with the wallet of [alice]. *)
Definition demoHook : Hook.State :=
  {| Hook.isConnected := true; Hook.wallet := Some alice;
     Hook.usingDemoMode := true |}.

(** The remote client before any connection. *)
Definition offline : Client.LineraGameClient :=
  {| Client.client := false; Client.wallet := false;
     Client.application := None; Client.chainId := "" |}.

(** The statistics object a call reads for a player:
    [storedStats[address] || dflt]. *)
Definition statsOf (address : string) (dflt : Stats)
    (s : Slot (JS.Obj Stats)) : Stats :=
  JS.obj_or (JS.get address (table s)) dflt.

(** The remote client, connected to an application that rejects every
    request, and the hook of a session that selected it. *)
Definition failing : Client.LineraGameClient :=
  {| Client.client := true; Client.wallet := true;
     Client.application := Some (fun _ => Client.Rejected);
     Client.chainId := "chain-a" |}.

Definition remoteHook : Hook.State :=
  {| Hook.isConnected := true; Hook.wallet := Some alice;
     Hook.usingDemoMode := false |}.

(** A remote call fails: [mutate]/[query] returns [null] or a response
    without data. *)
Definition remote_fails (c : Client.LineraGameClient)
    (q : Client.Request) : Prop :=
  Client.has_data (Client.query c q) = false.

(** A store where [alice] has a snake high score of 120, two tic-tac-toe
    wins and one uno win. *)
Definition sampleStore : LocalStorage :=
  {| linera_snake_scores := Json [(Hook.address alice, 120)];
     linera_tictactoe_stats :=
       Json [(Hook.address alice,
              {| wins := 2; losses := 1; bestPosition := None |})];
     linera_snakeladders_stats := Absent;
     linera_uno_stats :=
       Json [(Hook.address alice,
              {| wins := 1; losses := 0; bestPosition := None |})];
     linera_profiles := Absent;
     linera_games_played := Json [(Hook.address alice, 7)];
     linera_rooms := Absent |}.

(** The wallet of [alice] in the earlier copy of the hook. *)
Definition earlierAlice : EarlierHook.LineraWallet :=
  {| EarlierHook.address := Hook.address alice;
     EarlierHook.chainId := Hook.chainId alice |}.

(** *** Runs of the achievements hook

    [play], [run], [act] and [actAll] thread the state from call to
    call: each call is made first after a render.  They are the
    sequences [rendered] of the component, in which a render follows
    every call (see [turns_rendered]). *)

(** One call of [trackGamePlayed]: game, outcome, extra data and the time
    [Date.now()] returns during the call. *)
Definition Call : Type := string * bool * option Achievements.ExtraData * Z.

Definition play (st : Achievements.State) (call : Call)
  : Achievements.State :=
  let '(game, won, extraData, now) := call in
  snd (Achievements.trackGamePlayed game won extraData now st).

Definition run (calls : list Call) (st : Achievements.State)
  : Achievements.State :=
  fold_left play calls st.

(** The states after each call of a sequence. *)
Fixpoint history (calls : list Call) (st : Achievements.State)
  : list Achievements.State :=
  match calls with
  | [] => []
  | call :: calls' => play st call :: history calls' (play st call)
  end.

(** The values [currentWinStreak] takes after each call. *)
Definition streaks (calls : list Call) (st : Achievements.State) : list Z :=
  map (fun s => Achievements.currentWinStreak (Achievements.stats s))
      (history calls st).

Definition win (now : Z) : Call := ("tictactoe", true, None, now).
Definition loss (now : Z) : Call := ("tictactoe", false, None, now).

(** [l'] has the achievements of [l], and every achievement unlocked in
    [l] is in [l'] unchanged, at the same place. *)
Definition keeps (l l' : list Achievements.Achievement) : Prop :=
  map Achievements.id l' = map Achievements.id l
  /\ forall n a, nth_error l n = Some a ->
       Achievements.unlocked a = true -> nth_error l' n = Some a.

(** The achievement [u] is locked in [l]. *)
Definition locked_in (l : list Achievements.Achievement)
    (u : Achievements.Achievement) : Prop :=
  exists n a, nth_error l n = Some a
    /\ Achievements.id a = Achievements.id u
    /\ Achievements.unlocked a = false.

(** The ids of a list of achievements are pairwise distinct. *)
Fixpoint distinct (l : list string) : bool :=
  match l with
  | [] => true
  | x :: l' => negb (existsb (String.eqb x) l') && distinct l'
  end.

(** *** The leaderboard of a store *)

(** The known players, in the iteration order of [allPlayers]. *)
Definition players (ls : LocalStorage) : list string :=
  Hook.allPlayers_of (table (linera_snake_scores ls))
    (table (linera_tictactoe_stats ls))
    (table (linera_snakeladders_stats ls))
    (table (linera_uno_stats ls)).

(** The entry [getLeaderboard] builds for a player, before ranking. *)
Definition entryFor (gameType : string) (ls : LocalStorage)
    (address : string) : Types.LeaderboardEntry :=
  Hook.entry_of gameType (table (linera_snake_scores ls))
    (table (linera_tictactoe_stats ls))
    (table (linera_snakeladders_stats ls))
    (table (linera_uno_stats ls))
    (table (linera_profiles ls))
    (table (linera_games_played ls)) address.

(** The score, wins and losses [getLeaderboard] computes for a player. *)
Definition tallyFor (gameType : string) (ls : LocalStorage)
    (address : string) : Z * Z * Z :=
  Hook.tally gameType (storedHigh address ls)
    (statsOf address Hook.no_stats (linera_tictactoe_stats ls))
    (statsOf address Hook.no_stats (linera_snakeladders_stats ls))
    (statsOf address Hook.no_stats (linera_uno_stats ls)).

Definition scoreFor gameType ls address : Z :=
  fst (fst (tallyFor gameType ls address)).
Definition winsFor gameType ls address : Z :=
  snd (fst (tallyFor gameType ls address)).
Definition lossesFor gameType ls address : Z :=
  snd (tallyFor gameType ls address).

(** The sorted and ranked entries, before [slice]. *)
Definition board (gameType : string) (ls : LocalStorage)
  : list Types.LeaderboardEntry :=
  Hook.ranked (map (entryFor gameType ls) (players ls)).

(** [l'] is a stable sort of [l] in descending order of key: it is in
    descending order and, for each key, has the elements of [l] of that
    key in their order in [l]. *)
Definition stable_sorted {A : Type} (key : A -> Z) (l l' : list A) : Prop :=
  StronglySorted (fun a b => key a >= key b) l'
  /\ forall k, filter (fun a => key a =? k) l'
               = filter (fun a => key a =? k) l.

(** [x] occurs in [l] at a place before an occurrence of [y]. *)
Inductive before {A : Type} (x y : A) : list A -> Prop :=
| before_here (l : list A) : In y l -> before x y (x :: l)
| before_later (z : A) (l : list A) : before x y l -> before x y (z :: l).

(** A store with the snake scores A: 100, B: 250, C: 250, written in the
    order A, B, C. *)
Definition threePlayers : LocalStorage :=
  set_snake_scores [("0xA", 100); ("0xB", 250); ("0xC", 250)] Storage.empty.

(** A store where [alice] has one snake-and-ladders win and nothing
    else. *)
Definition oneLadderWin : LocalStorage :=
  set_snakeladders_stats
    [(Hook.address alice,
      {| wins := 1; losses := 0; bestPosition := Some 1 |})]
    Storage.empty.

(** The statistics of a player on the board of a win/loss game. *)
Definition winLossStats (gameType : string) (ls : LocalStorage)
    (address : string) : Stats :=
  if String.eqb gameType "tictactoe"
  then statsOf address Hook.no_stats (linera_tictactoe_stats ls)
  else if String.eqb gameType "snakeladders"
  then statsOf address Hook.no_stats (linera_snakeladders_stats ls)
  else statsOf address Hook.no_stats (linera_uno_stats ls).

Definition winLossGame (gameType : string) : Prop :=
  gameType = "tictactoe" \/ gameType = "snakeladders" \/ gameType = "uno".

(** [round(100 * wins / gamesPlayed)] on exact quotients, a tie going up:
    [floor(100 * wins / gamesPlayed + 1/2)]. *)
Definition exactRound (wins gamesPlayed : Z) : Z :=
  (200 * wins + gamesPlayed) / (2 * gamesPlayed).

(** [100 * wins / gamesPlayed] is half way between two integers. *)
Definition tie (wins gamesPlayed : Z) : bool :=
  (200 * wins) mod (2 * gamesPlayed) =? gamesPlayed.

(** The record [mrs] of a shifted mantissa locates the quotient [N / D]:
    its mantissa is the integer part, and its round and sticky bits tell
    where the fraction lies with respect to one half. *)
Definition locates (N D : Z) (mrs : shr_record) : Prop :=
  shr_m mrs = N / D
  /\ match shr_r mrs, shr_s mrs with
     | false, false => N mod D = 0
     | false, true => 0 < 2 * (N mod D) < D
     | true, false => 2 * (N mod D) = D
     | true, true => D < 2 * (N mod D)
     end.

(** A store where [alice] has 23 wins and 17 losses at tic-tac-toe. *)
Definition twentyThreeOfForty : LocalStorage :=
  set_tictactoe_stats
    [(Hook.address alice,
      {| wins := 23; losses := 17; bestPosition := None |})]
    Storage.empty.

(** A store where [alice] has 1 win and 2 losses at tic-tac-toe. *)
Definition oneOfThree : LocalStorage :=
  set_tictactoe_stats
    [(Hook.address alice,
      {| wins := 1; losses := 2; bestPosition := None |})]
    Storage.empty.

(** *** Sequences of operations of the hook *)

(** The play counter of a player, read the way the code reads it:
    [gamesPlayed[address] || 0]. *)
Definition playCount (address : string) (ls : LocalStorage) : Z :=
  JS.num_or (JS.get address (table (linera_games_played ls))) 0.

(** A call of one of the five operations that record a game or a
    profile. *)
Inductive Op :=
| SnakeScore (score : Z)
| TicTacToe (won : bool)
| SnakeLadders (won : bool) (position : Z)
| Uno (won : bool)
| SetProfile (username : string) (avatarId : Z).

Definition perform (h : Hook.State) (c : Client.LineraGameClient) (op : Op)
    (ls : LocalStorage) : bool * LocalStorage :=
  match op with
  | SnakeScore score => Hook.submitSnakeScore h c score ls
  | TicTacToe won => Hook.submitTicTacToeResult h c won ls
  | SnakeLadders won position =>
      Hook.submitSnakeLaddersResult h c won position ls
  | Uno won => Hook.submitUnoResult h c won ls
  | SetProfile username avatarId =>
      Hook.updateProfile h c username avatarId ls
  end.

(** The store after a sequence of operations. *)
Definition performAll (h : Hook.State) (c : Client.LineraGameClient)
    (ops : list Op) (ls : LocalStorage) : LocalStorage :=
  fold_left (fun ls op => snd (perform h c op ls)) ops ls.

(** The number of operations of a sequence that satisfy [f]. *)
Definition tally_ops (f : Op -> bool) (ops : list Op) : Z :=
  Z.of_nat (List.length (filter f ops)).

Definition tttResult (won : bool) (op : Op) : bool :=
  match op with TicTacToe b => Bool.eqb b won | _ => false end.
Definition ladderResult (won : bool) (op : Op) : bool :=
  match op with SnakeLadders b _ => Bool.eqb b won | _ => false end.
Definition unoResult (won : bool) (op : Op) : bool :=
  match op with Uno b => Bool.eqb b won | _ => false end.
Definition isSnakeScore (op : Op) : bool :=
  match op with SnakeScore _ => true | _ => false end.

(** The slot is corrupt after exactly when it was corrupt before. *)
Definition same_state {A : Type} (s s' : Slot A) : Prop :=
  s = Corrupt <-> s' = Corrupt.

(** The rooms a readable slot holds; the default [[]] when absent. *)
Definition roomsOf (ls : LocalStorage) : list Types.GameRoom :=
  match linera_rooms ls with
  | Json rooms => rooms
  | Absent | Corrupt => []
  end.

(** The store after [n] calls of [joinRoom] for a room. *)
Definition joins (h : Hook.State) (c : Client.LineraGameClient)
    (roomId : string) (n : nat) (ls : LocalStorage) : LocalStorage :=
  Nat.iter n (fun ls => snd (Hook.joinRoom h c roomId ls)) ls.

(** The first room of an id in a list. *)
Definition roomOf (roomId : string) (rooms : list Types.GameRoom)
  : option Types.GameRoom :=
  find (fun r => String.eqb (Types.id r) roomId) rooms.

(** A store whose play-counter text does not parse. *)
Definition brokenCounter : LocalStorage :=
  {| linera_snake_scores := Json [(Hook.address alice, 10)];
     linera_tictactoe_stats := Absent;
     linera_snakeladders_stats := Absent;
     linera_uno_stats := Absent;
     linera_profiles := Absent;
     linera_games_played := Corrupt;
     linera_rooms := Absent |}.

(** What the store holds for a player: the entries of the six tables. *)
Definition recordsOf (a : string) (ls : LocalStorage)
  : option Z * option Stats * option Stats * option Stats
    * option Profile * option Z :=
  (JS.get a (table (linera_snake_scores ls)),
   JS.get a (table (linera_tictactoe_stats ls)),
   JS.get a (table (linera_snakeladders_stats ls)),
   JS.get a (table (linera_uno_stats ls)),
   JS.get a (table (linera_profiles ls)),
   JS.get a (table (linera_games_played ls))).

(** The same texts parse in both stores. *)
Definition same_shape (ls ls' : LocalStorage) : Prop :=
  same_state (linera_snake_scores ls) (linera_snake_scores ls')
  /\ same_state (linera_tictactoe_stats ls) (linera_tictactoe_stats ls')
  /\ same_state (linera_snakeladders_stats ls)
                (linera_snakeladders_stats ls')
  /\ same_state (linera_uno_stats ls) (linera_uno_stats ls')
  /\ same_state (linera_profiles ls) (linera_profiles ls')
  /\ same_state (linera_games_played ls) (linera_games_played ls').

(** The win/loss statistics of a player, as the queries read them. *)
Definition tttOf (a : string) (ls : LocalStorage) : Stats :=
  statsOf a Hook.no_stats (linera_tictactoe_stats ls).
Definition ladderOf (a : string) (ls : LocalStorage) : Stats :=
  statsOf a Hook.no_stats (linera_snakeladders_stats ls).
Definition unoOf (a : string) (ls : LocalStorage) : Stats :=
  statsOf a Hook.no_stats (linera_uno_stats ls).

(** [1] when the operation satisfies [f], else [0]. *)
Definition one_if (f : Op -> bool) (op : Op) : Z := if f op then 1 else 0.

(** The counters the store holds for a player are not negative and count
    at most [n] games, and the snake high score is below [50 * 2^44]. *)
Definition plausible (n : Z) (ls : LocalStorage) (a : string) : Prop :=
  0 <= storedHigh a ls < 50 * 2 ^ 44
  /\ 0 <= wins (tttOf a ls) /\ 0 <= losses (tttOf a ls)
  /\ 0 <= wins (ladderOf a ls) /\ 0 <= losses (ladderOf a ls)
  /\ 0 <= wins (unoOf a ls) /\ 0 <= losses (unoOf a ls)
  /\ 0 <= playCount a ls
  /\ wins (tttOf a ls) + losses (tttOf a ls)
     + wins (ladderOf a ls) + losses (ladderOf a ls)
     + wins (unoOf a ls) + losses (unoOf a ls) + playCount a ls <= n.

(** The snake scores of a sequence of operations are below [50 * 2^44]. *)
Definition modest (ops : list Op) : Prop :=
  forall s, In (SnakeScore s) ops -> s < 50 * 2 ^ 44.

(** A sequence of calls of the operations, each with the state of the
    hook and of the client at the time of the call. *)
Definition performEach
    (calls : list (Hook.State * Client.LineraGameClient * Op))
    (ls : LocalStorage) : LocalStorage :=
  fold_left (fun ls call =>
               snd (perform (fst (fst call)) (snd (fst call)) (snd call) ls))
            calls ls.

(** Every call of the sequence is answered from [localStorage]. *)
Definition in_demo_mode
    (calls : list (Hook.State * Client.LineraGameClient * Op)) : Prop :=
  Forall (fun call => Hook.remote (fst (fst call)) (snd (fst call)) = false)
         calls.

(** A second wallet. *)
Definition bob : Hook.LineraWallet :=
  {| Hook.address := "0xb0b...02"; Hook.chainId := "chain-b";
     Hook.isRealBlockchain := false |}.

(** Calls under two wallets and one after a disconnect: [alice] wins at
    tic-tac-toe and scores 120 at snake, [bob] loses at tic-tac-toe, and
    a result is submitted without a wallet. *)
Definition twoWallets
  : list (Hook.State * Client.LineraGameClient * Op) :=
  [ (demoHook, offline, TicTacToe true);
    ({| Hook.isConnected := true; Hook.wallet := Some bob;
        Hook.usingDemoMode := true |}, offline, TicTacToe false);
    (demoHook, offline, SnakeScore 120);
    ({| Hook.isConnected := false; Hook.wallet := None;
        Hook.usingDemoMode := true |}, offline, Uno true) ].

(** The identifier [createRoom] gives a room:
    [`${gameType.slice(0, 3).toUpperCase()}-${random}`]. *)
Definition roomIdOf (gameType random : string) : string :=
  String.append (JS.toUpperCase (JS.str_take 3 gameType))
    (String.append "-" random).

(** A query of [getActiveRooms] that does not filter out the rooms of
    [gameType]: no game type, the empty one, ["all"] or [gameType]. *)
Definition admits (query : option string) (gameType : string) : Prop :=
  query = None \/ query = Some "" \/ query = Some "all"
  \/ query = Some gameType.


(** *** Sessions of the achievements hook *)

(** A call of one of the operations of the hook that change its state. *)
Inductive Action :=
| Track (call : Call)
| Unlock (achievementId : string) (now : Z)
| Clear.

Definition act (st : Achievements.State) (a : Action) : Achievements.State :=
  match a with
  | Track call => play st call
  | Unlock achievementId now =>
      snd (Achievements.checkAndUnlock achievementId now st)
  | Clear => Achievements.clearRecentUnlock st
  end.

Definition actAll (actions : list Action) (st : Achievements.State)
  : Achievements.State :=
  fold_left act actions st.

(** The achievement of an id is in the list, and it is unlocked. *)
Definition known (l : list Achievements.Achievement) (i : string) : bool :=
  existsb (fun a => String.eqb (Achievements.id a) i) l.

Definition unlockedIn (l : list Achievements.Achievement) (i : string)
  : bool :=
  existsb (fun a => String.eqb (Achievements.id a) i
                    && Achievements.unlocked a) l.

(** The condition of an id holds in a list of checks. *)
Definition holds (checks : list (string * bool)) (i : string) : bool :=
  existsb (fun check => String.eqb (fst check) i && snd check) checks.

(** The members of an achievement that the catalogue fixes. *)
Definition static (a : Achievements.Achievement)
  : string * Achievements.Category * Achievements.Rarity * Z :=
  (Achievements.id a, Achievements.category a, Achievements.rarity a,
   Achievements.xpReward a).

(** The list has the achievements of the catalogue, in its order. *)
Definition shaped (l : list Achievements.Achievement) : Prop :=
  map static l = map static Achievements.ALL_ACHIEVEMENTS.

(** The achievements no condition of [trackGamePlayed] mentions. *)
Definition untracked : list string :=
  ["snake_no_walls"; "sl_ladder_3"; "sl_comeback"; "uno_speedrun"].

Definition wonCall (call : Call) : bool := snd (fst (fst call)).
Definition gameOf (call : Call) : string := fst (fst (fst call)).

(** The number of won calls for a game. *)
Definition winsAt (game : string) (calls : list Call) : Z :=
  Z.of_nat
    (List.length
       (filter (fun call => String.eqb (gameOf call) game && wonCall call)
               calls)).

(** The state of the hook before the effect that loads it has run. *)
Definition unloaded : Achievements.State :=
  {| Achievements.achievements := [];
     Achievements.stats := Achievements.initialStats;
     Achievements.recentUnlock := None;
     Achievements.saved := None |}.

(** *** The achievements hook from render to render *)

(** What happens to the component: a call of one of its operations, or
    a render. *)
Inductive Turn :=
| Calls (a : Action)
| Renders.

Definition turn (c : UseAchievements.Component) (t : Turn)
  : UseAchievements.Component :=
  match t with
  | Calls (Track (game, won, extraData, now)) =>
      snd (UseAchievements.trackGamePlayed game won extraData now c)
  | Calls (Unlock achievementId now) =>
      snd (UseAchievements.checkAndUnlock achievementId now c)
  | Calls Clear => UseAchievements.clearRecentUnlock c
  | Renders => UseAchievements.render c
  end.

Definition turns (ts : list Turn) (c : UseAchievements.Component)
  : UseAchievements.Component :=
  fold_left turn ts c.

(** The calls of a sequence, the component rendering after each. *)
Definition rendered (actions : list Action) : list Turn :=
  flat_map (fun a => [Calls a; Renders]) actions.

(** Calls of [trackGamePlayed] with renders in between: [None] stands
    for a render. *)
Definition tracking (plays : list (option Call)) : list Turn :=
  map (fun play =>
         match play with
         | Some call => Calls (Track call)
         | None => Renders
         end)
      plays.

(** The ids a call reports as newly unlocked: those of the achievements
    [trackGamePlayed] returns, and the id given to a [checkAndUnlock]
    that returns [true]. *)
Definition reportedBy (c : UseAchievements.Component) (t : Turn)
  : list string :=
  match t with
  | Calls (Track (game, won, extraData, now)) =>
      map Achievements.id
        (fst (UseAchievements.trackGamePlayed game won extraData now c))
  | Calls (Unlock achievementId now) =>
      if fst (UseAchievements.checkAndUnlock achievementId now c)
      then [achievementId] else []
  | _ => []
  end.

Fixpoint reported (ts : list Turn) (c : UseAchievements.Component)
  : list string :=
  match ts with
  | [] => []
  | t :: ts' => reportedBy c t ++ reported ts' (turn c t)
  end.

(** The values [currentWinStreak] takes in the state React holds, after
    each call. *)
Fixpoint streaksAlong (ts : list Turn) (c : UseAchievements.Component)
  : list Z :=
  match ts with
  | [] => []
  | Renders :: ts' => streaksAlong ts' (turn c Renders)
  | t :: ts' =>
      Achievements.currentWinStreak
        (Achievements.stats (UseAchievements.held (turn c t)))
      :: streaksAlong ts' (turn c t)
  end.

(** A component that has just rendered. *)
Definition fresh (st : Achievements.State)
  : UseAchievements.Component :=
  {| UseAchievements.seen := st; UseAchievements.held := st |}.

(** The number of calls of [trackGamePlayed] in a sequence. *)
Definition trackCalls (ts : list Turn) : Z :=
  Z.of_nat
    (List.length
       (filter (fun t => match t with Calls (Track _) => true | _ => false end)
               ts)).

(** *** Sessions of the connection *)

(** The page as it is when it has just been loaded: a new hook, the
    module variables and the client as declared, and [saved] under the
    key [linera-wallet]. *)
Definition freshWorld (saved : Slot Hook.LineraWallet) : Hook.World :=
  {| Hook.session := Hook.initialSession;
     Hook.sdk := Client.initialSdk;
     Hook.lineraClient := offline;
     Hook.linera_wallet := saved |}.

(** Loading the page again: [localStorage] is all that stays. *)
Definition reload (w : Hook.World) : Hook.World :=
  freshWorld (Hook.linera_wallet w).

(** What happens to the connection: the effect that runs on mount, and
    the calls of [connect] and [disconnect]. *)
Inductive Event :=
| Mount
| Connect (remoteConnect : Client.ConnectResult * Client.LineraGameClient)
    (r1 r2 r3 : string)
| Disconnect.

Definition step (env : Config.Env) (w : Hook.World) (ev : Event)
  : Hook.World :=
  match ev with
  | Mount => Hook.checkConnection env w
  | Connect remoteConnect r1 r2 r3 =>
      Hook.connect env remoteConnect r1 r2 r3 w
  | Disconnect => Hook.disconnect w
  end.

Definition steps (env : Config.Env) (events : list Event) (w : Hook.World)
  : Hook.World :=
  fold_left (step env) events w.

(** The wallet [connect] makes up in demo mode. *)
Definition mockWallet (r1 r2 r3 : string) : Hook.LineraWallet :=
  {| Hook.address :=
       String.append "0x" (String.append r1 (String.append "..." r2));
     Hook.chainId := String.append "chain-" r3;
     Hook.isRealBlockchain := false |}.

(** The module state after [n] calls of [initializeLinera]. *)
Definition initialized (env : Config.Env) (n : nat) : Client.Sdk :=
  Nat.iter n (fun s => snd (Client.initializeLinera env s))
    Client.initialSdk.

(** *** Runs of the snake game *)

(** What happens to the game: a tick of the game loop, a key, a click on
    a direction button (the buttons are disabled unless the game is
    playing), and the buttons that start, pause and reset. *)
Inductive GameEvent :=
| Tick (newFood : SnakeGame.Position) (now : Z)
| Key (code : string) (newFood : SnakeGame.Position)
| Click (newDir : SnakeGame.Direction)
| Start (newFood : SnakeGame.Position)
| Pause
| Again (newFood : SnakeGame.Position).

Definition react (g : SnakeGame.Game) (ev : GameEvent) : SnakeGame.Game :=
  match ev with
  | Tick newFood now => SnakeGame.moveSnake newFood now g
  | Key code newFood => SnakeGame.handleKeyDown code newFood g
  | Click newDir =>
      match SnakeGame.gameState g with
      | SnakeGame.playing => SnakeGame.handleDirectionClick newDir g
      | _ => g
      end
  | Start newFood => SnakeGame.startGame newFood g
  | Pause => SnakeGame.pauseGame g
  | Again newFood => SnakeGame.resetGame newFood g
  end.

Definition playGame (events : list GameEvent) (g : SnakeGame.Game)
  : SnakeGame.Game :=
  fold_left react events g.

(** The cell is on the board. *)
Definition inside (p : SnakeGame.Position) : Prop :=
  0 <= SnakeGame.x p < SnakeGame.GRID_SIZE
  /\ 0 <= SnakeGame.y p < SnakeGame.GRID_SIZE.

(** The number of segments of the snake. *)
Definition segments (g : SnakeGame.Game) : Z :=
  Z.of_nat (List.length (SnakeGame.snake g)).

(** The cells of the board. *)
Definition cells : list SnakeGame.Position :=
  map (fun xy => {| SnakeGame.x := fst xy; SnakeGame.y := snd xy |})
      (list_prod (map Z.of_nat (seq 0 20)) (map Z.of_nat (seq 0 20))).

(** The snake achievements with the score each asks for. *)
Definition snakeGoals : list (string * Z) :=
  [("snake_50", 50); ("snake_100", 100); ("snake_200", 200);
   ("snake_500", 500)].

(** The board is in order: the snake has a head, lies on the board and
    does not cross itself, and the score and the speed are those of its
    length. *)
Definition board_ok (g : SnakeGame.Game) : Prop :=
  SnakeGame.snake g <> []
  /\ Forall inside (SnakeGame.snake g)
  /\ NoDup (SnakeGame.snake g)
  /\ SnakeGame.score g = 10 * (segments g - 1)
  /\ SnakeGame.speed g = Z.max 50 (150 - 2 * (segments g - 1)).

(** The game and the achievements agree on the snake high score, which
    is saved once it is positive; [first_win] and the snake achievements
    are unlocked exactly when the high score has reached their goal. *)
Definition records_ok (g : SnakeGame.Game) : Prop :=
  let hook := SnakeGame.achievements g in
  shaped (Achievements.achievements hook)
  /\ 0 <= SnakeGame.highScore g
  /\ Achievements.snakeHighScore (Achievements.stats hook)
     = SnakeGame.highScore g
  /\ SnakeGame.snake_highscore g
     = (if SnakeGame.highScore g =? 0 then None
        else Some (SnakeGame.highScore g))
  /\ (1 <=? Achievements.totalWins (Achievements.stats hook))
     = (0 <? SnakeGame.highScore g)
  /\ 0 <= Achievements.totalWins (Achievements.stats hook)
  /\ unlockedIn (Achievements.achievements hook) "first_win"
     = (0 <? SnakeGame.highScore g)
  /\ forall i n, In (i, n) snakeGoals ->
       unlockedIn (Achievements.achievements hook) i
       = (n <=? SnakeGame.highScore g).

(** The exact value of the polynomial hash: [c1 * 31^(n-1) + ... + cn]. *)
Definition polynomial31 (codes : list Z) : Z :=
  fold_left (fun hash char => 31 * hash + char) codes 0.

(** * Properties *)

Unset Implicit Arguments.

(** ** Double precision

    The operations of [SpecFloat] on normal doubles round the exact
    result to the nearest mantissa of 53 bits.  What follows establishes
    the error bounds of the conversion, the division and the
    multiplication from the definitions of the library, and that sums
    and floored quotients of integers below [2^53] are exact. *)

Lemma digits2_pos_size p : digits2_pos p = Pos.size p.
Proof. induction p; simpl; congruence. Qed.

Lemma Zdigits2_bounds m :
  0 < m -> 2 ^ (Zdigits2 m - 1) <= m < 2 ^ Zdigits2 m.
Proof.
  destruct m as [|p|p]; try lia. intros _. simpl Zdigits2.
  rewrite digits2_pos_size.
  pose proof (Pos.size_gt p) as Hgt. pose proof (Pos.size_le p) as Hle.
  apply Pos2Z.pos_lt_pos in Hgt. apply Pos2Z.pos_le_pos in Hle.
  rewrite Pos2Z.inj_pow in Hgt, Hle.
  change (Z.pos p~0) with (2 * Z.pos p) in Hle.
  split; [|exact Hgt].
  replace (Z.pos (Pos.size p)) with (Z.succ (Z.pos (Pos.size p) - 1)) in Hle
    by lia.
  rewrite Z.pow_succ_r in Hle by lia. lia.
Qed.

Lemma Zdigits2_unique m d :
  0 < m -> 2 ^ (d - 1) <= m < 2 ^ d -> Zdigits2 m = d.
Proof.
  intros Hm Hd. pose proof (Zdigits2_bounds m Hm) as Hb.
  assert (H0 : 0 < Zdigits2 m) by (destruct m; simpl in *; lia).
  assert (Hd0 : 0 < d).
  { destruct d as [|q|q]; [simpl in Hd; lia|lia|].
    rewrite (Z.pow_neg_r 2 (Z.neg q)) in Hd by lia. lia. }
  assert (Zdigits2 m - 1 < d).
  { apply (Z.pow_lt_mono_r_iff 2); lia. }
  assert (d - 1 < Zdigits2 m).
  { apply (Z.pow_lt_mono_r_iff 2); lia. }
  lia.
Qed.

Lemma shr_1_locates N D mrs :
  0 < D -> 0 <= N -> locates N D mrs -> locates N (2 * D) (shr_1 mrs).
Proof.
  intros HD HN [Hm Hl].
  assert (Hq : N / (2 * D) = (N / D) / 2).
  { rewrite (Z.mul_comm 2 D). rewrite Z.div_div by lia. reflexivity. }
  assert (Hr : N mod (2 * D) = N mod D + D * ((N / D) mod 2)).
  { rewrite (Z.mul_comm 2 D). apply Z.rem_mul_r; lia. }
  pose proof (Z.mod_pos_bound N D HD) as Hb.
  assert (Hmn : 0 <= N / D) by (apply Z.div_pos; lia).
  destruct mrs as [m r s]. cbn [shr_m shr_r shr_s] in Hm, Hl. subst m.
  unfold locates. rewrite Hq, Hr. unfold shr_1.
  destruct (N / D) as [|p|p] eqn:E; [| |lia].
  - cbn [shr_m shr_r shr_s]. split; [reflexivity|].
    change (0 mod 2) with 0. rewrite Z.mul_0_r, Z.add_0_r.
    destruct r, s; cbn [orb]; lia.
  - destruct p as [p|p|]; cbn [shr_m shr_r shr_s].
    + assert (H2 : Z.pos p~1 = 2 * Z.pos p + 1) by reflexivity.
      split; [rewrite H2; apply Z.div_unique with 1; lia|].
      replace (Z.pos p~1 mod 2) with 1
        by (rewrite H2; apply Z.mod_unique with (Z.pos p); lia).
      destruct r, s; cbn [orb]; lia.
    + assert (H2 : Z.pos p~0 = 2 * Z.pos p) by reflexivity.
      split; [rewrite H2; apply Z.div_unique with 0; lia|].
      replace (Z.pos p~0 mod 2) with 0
        by (rewrite H2; apply Z.mod_unique with (Z.pos p); lia).
      destruct r, s; cbn [orb]; lia.
    + split; [reflexivity|].
      change (1 mod 2) with 1.
      destruct r, s; cbn [orb]; lia.
Qed.

Lemma iter_pos_locates p : forall N D mrs,
  0 < D -> 0 <= N -> locates N D mrs ->
  locates N (2 ^ Z.pos p * D) (iter_pos shr_1 p mrs).
Proof.
  induction p as [p IH|p IH|]; intros N D mrs HD HN Hl; simpl iter_pos.
  - replace (2 ^ Z.pos p~1 * D) with (2 ^ Z.pos p * (2 ^ Z.pos p * (2 * D))).
    + apply IH; [lia|lia|]. apply IH; [lia|lia|].
      apply shr_1_locates; assumption.
    + change (Z.pos p~1) with (2 * Z.pos p + 1).
      rewrite Z.pow_add_r, Z.pow_mul_r, Z.pow_1_r by lia.
      change (2 ^ 2) with 4.
      replace (4 ^ Z.pos p) with (2 ^ Z.pos p * 2 ^ Z.pos p)
        by (rewrite <- Z.pow_mul_l; reflexivity).
      ring.
  - replace (2 ^ Z.pos p~0 * D) with (2 ^ Z.pos p * (2 ^ Z.pos p * D)).
    + assert (0 < 2 ^ Z.pos p) by (apply Z.pow_pos_nonneg; lia).
      apply IH; [lia|lia|]. apply IH; assumption.
    + change (Z.pos p~0) with (2 * Z.pos p).
      rewrite Z.pow_mul_r by lia. change (2 ^ 2) with 4.
      replace (4 ^ Z.pos p) with (2 ^ Z.pos p * 2 ^ Z.pos p)
        by (rewrite <- Z.pow_mul_l; reflexivity).
      ring.
  - change (2 ^ 1) with 2. apply shr_1_locates; assumption.
Qed.

Lemma loc_of_record_of_loc m l :
  loc_of_shr_record (shr_record_of_loc m l) = l.
Proof. destruct l as [|[| |]]; reflexivity. Qed.

Lemma shr_m_record_of_loc m l : shr_m (shr_record_of_loc m l) = m.
Proof. destruct l as [|[| |]]; reflexivity. Qed.

(** Rounding to nearest even stays within half a unit of the located
    quotient. *)
Lemma round_nearest_even_locates N D mrs :
  0 < D -> 0 <= N -> locates N D mrs ->
  let m := round_nearest_even (shr_m mrs) (loc_of_shr_record mrs) in
  (m = N / D \/ m = N / D + 1)
  /\ Z.abs (2 * (m * D - N)) <= D.
Proof.
  intros HD HN [Hm Hl] m. subst m.
  pose proof (Z.div_mod N D ltac:(lia)) as Hdm.
  pose proof (Z.mod_pos_bound N D HD) as Hb.
  destruct mrs as [m r s]. cbn [shr_m shr_r shr_s] in *. subst m.
  destruct r, s; cbn [loc_of_shr_record round_nearest_even].
  - split; [right; reflexivity|]. nia.
  - destruct (Z.even (N / D)); (split; [auto|nia]).
  - split; [left; reflexivity|]. nia.
  - split; [left; reflexivity|]. nia.
Qed.

Lemma shr_locates N D m l e k :
  0 < D -> 0 <= N -> 0 <= k ->
  locates N D (shr_record_of_loc m l) ->
  exists mrs,
    shr (shr_record_of_loc m l) e k = (mrs, e + k)
    /\ locates N (2 ^ k * D) mrs.
Proof.
  intros HD HN Hk Hl. destruct k as [|p|p]; [| |lia].
  - exists (shr_record_of_loc m l). split.
    + unfold shr. now rewrite Z.add_0_r.
    + now rewrite Z.pow_0_r, Z.mul_1_l.
  - exists (iter_pos shr_1 p (shr_record_of_loc m l)). split.
    + reflexivity.
    + apply iter_pos_locates; assumption.
Qed.

Lemma fexp_normal d : -1074 <= d - 53 -> fexp 53 1024 d = d - 53.
Proof. unfold fexp, emin. lia. Qed.

Lemma binary_round_aux_spec m e l N D k :
  0 < D -> 0 <= N ->
  locates N D (shr_record_of_loc m l) ->
  0 <= k -> 2 ^ (52 + k) <= m < 2 ^ (53 + k) ->
  -1074 <= e + k -> e + k + 1 <= 971 ->
  exists M E,
    binary_round_aux 53 1024 false m e l = S754_finite false M E
    /\ 2 ^ 52 <= Z.pos M < 2 ^ 53
    /\ (E = e + k \/ E = e + k + 1)
    /\ Z.abs (2 * (Z.pos M * 2 ^ (E - e - k) * (2 ^ k * D) - N))
       <= 2 ^ k * D.
Proof.
  intros HD HN Hl Hk Hm He1 He2.
  assert (Hpk : 0 < 2 ^ k) by (apply Z.pow_pos_nonneg; lia).
  assert (Hm0 : 0 < m).
  { assert (0 < 2 ^ (52 + k)) by (apply Z.pow_pos_nonneg; lia). lia. }
  assert (Hd : Zdigits2 m = 53 + k).
  { apply Zdigits2_unique; [exact Hm0|].
    replace (53 + k - 1) with (52 + k) by lia. exact Hm. }
  unfold binary_round_aux, shr_fexp.
  rewrite Hd, fexp_normal by lia.
  replace (53 + k + e - 53 - e) with k by lia.
  destruct (shr_locates N D m l e k HD HN Hk Hl) as (mrs & -> & Hloc).
  assert (HD' : 0 < 2 ^ k * D) by lia.
  destruct (round_nearest_even_locates N (2 ^ k * D) mrs HD' HN Hloc)
    as [Hcase Herr].
  set (m2 := round_nearest_even (shr_m mrs) (loc_of_shr_record mrs)) in *.
  assert (Hq : N / (2 ^ k * D) = m / 2 ^ k).
  { destruct Hl as [Hl _]. rewrite shr_m_record_of_loc in Hl. subst m.
    rewrite (Z.mul_comm (2 ^ k) D), Z.div_div by lia. reflexivity. }
  assert (Hrange : 2 ^ 52 <= m / 2 ^ k < 2 ^ 53).
  { rewrite !Z.pow_add_r in Hm by lia. split.
    - apply Z.div_le_lower_bound; lia.
    - apply Z.div_lt_upper_bound; lia. }
  rewrite Hq in Hcase.
  assert (Hm2 : 2 ^ 52 <= m2 <= 2 ^ 53) by lia.
  destruct (Z.eq_dec m2 (2 ^ 53)) as [Heq|Hne].
  - (* the rounding carried into a 54th digit *)
    rewrite Heq in *.
    replace (Zdigits2 (2 ^ 53)) with 54 by reflexivity.
    rewrite fexp_normal by lia.
    replace (54 + (e + k) - 53 - (e + k)) with 1 by lia.
    cbn [shr shr_record_of_loc iter_pos].
    change (shr_1 {| shr_m := 2 ^ 53; shr_r := false; shr_s := false |})
      with {| shr_m := 2 ^ 52; shr_r := false; shr_s := false |}.
    cbn [shr_m]. change (2 ^ 52) with (Z.pos (Z.to_pos (2 ^ 52))) at 1.
    cbv iota beta.
    replace (e + k + 1 <=? 1024 - 53) with true
      by (symmetry; apply Z.leb_le; lia).
    exists (Z.to_pos (2 ^ 52)), (e + k + 1).
    split; [reflexivity|]. split; [simpl; lia|].
    split; [right; reflexivity|].
    replace (e + k + 1 - e - k) with 1 by lia.
    change (Z.pos (Z.to_pos (2 ^ 52)) * 2 ^ 1) with (2 ^ 53). exact Herr.
  - assert (Hd2 : Zdigits2 m2 = 53).
    { apply Zdigits2_unique; [lia|]. change (53 - 1) with 52. lia. }
    rewrite Hd2, fexp_normal by lia.
    replace (53 + (e + k) - 53 - (e + k)) with 0 by lia.
    cbn [shr]. rewrite shr_m_record_of_loc.
    destruct m2 as [|M|M] eqn:EM; [lia| |lia].
    replace (e + k <=? 1024 - 53) with true
      by (symmetry; apply Z.leb_le; lia).
    exists M, (e + k).
    split; [reflexivity|]. split; [lia|].
    split; [left; reflexivity|].
    replace (e + k - e - k) with 0 by lia.
    rewrite Z.pow_0_r, Z.mul_1_r. exact Herr.
Qed.

Lemma iter_xO p s : Z.pos (Pos.iter xO p s) = Z.pos p * 2 ^ Z.pos s.
Proof.
  induction s as [|s IH] using Pos.peano_ind.
  - cbn [Pos.iter]. change (Z.pos p~0) with (2 * Z.pos p).
    rewrite Z.pow_1_r. ring.
  - rewrite Pos.iter_succ, Pos2Z.inj_succ, Z.pow_succ_r by lia.
    change (Z.pos (Pos.iter xO p s)~0) with (2 * Z.pos (Pos.iter xO p s)).
    rewrite IH. ring.
Qed.

Lemma locates_exact m : locates m 1 (shr_record_of_loc m loc_Exact).
Proof.
  split; cbn [shr_record_of_loc shr_m shr_r shr_s].
  - now rewrite Z.div_1_r.
  - apply Z.mod_1_r.
Qed.

(** The double of an integer below [2^53] is the integer. *)
Lemma of_Z_spec z :
  1 <= z < 2 ^ 53 ->
  exists M E,
    JS.of_Z z = S754_finite false M E
    /\ 2 ^ 52 <= Z.pos M < 2 ^ 53
    /\ -52 <= E <= 0
    /\ Z.pos M = z * 2 ^ (- E).
Proof.
  intros Hz. destruct z as [|p|p]; try lia.
  unfold JS.of_Z, binary_normalize, binary_round.
  pose proof (Zdigits2_bounds (Z.pos p) ltac:(lia)) as Hd.
  cbn [Zdigits2] in Hd. set (d := Z.pos (digits2_pos p)) in *.
  assert (Hd1 : 1 <= d <= 53).
  { split; [unfold d; lia|].
    destruct (Z.leb_spec d 53); auto. exfalso.
    assert (2 ^ 53 <= 2 ^ (d - 1)) by (apply Z.pow_le_mono_r; lia). lia. }
  rewrite Z.add_0_r. unfold JS.prec, JS.emax.
  rewrite fexp_normal by lia.
  unfold shl_align.
  assert (Hm : exists mz : positive,
             (match d - 53 - 0 with
              | Z.neg s => (Pos.iter xO p s, d - 53)
              | _ => (p, 0)
              end) = (mz, d - 53)
             /\ Z.pos mz = Z.pos p * 2 ^ (53 - d)).
  { destruct (d - 53 - 0) as [|s|s] eqn:Es; try lia.
    - exists p. replace (d - 53) with 0 by lia.
      split; [reflexivity|]. replace (53 - d) with 0 by lia. lia.
    - exists (Pos.iter xO p s). split; [reflexivity|].
      rewrite iter_xO. f_equal. f_equal. lia. }
  destruct Hm as (mz & -> & Hmz).
  assert (Hrange : 2 ^ 52 <= Z.pos mz < 2 ^ 53).
  { rewrite Hmz.
    replace (2 ^ 52) with (2 ^ (d - 1) * 2 ^ (53 - d))
      by (rewrite <- Z.pow_add_r by lia; f_equal; lia).
    replace (2 ^ 53) with (2 ^ d * 2 ^ (53 - d))
      by (rewrite <- Z.pow_add_r by lia; f_equal; lia).
    assert (0 < 2 ^ (53 - d)) by (apply Z.pow_pos_nonneg; lia).
    nia. }
  destruct (binary_round_aux_spec (Z.pos mz) (d - 53) loc_Exact
              (Z.pos mz) 1 0)
    as (M & E & HE & HM & HEk & Herr);
    try lia; [apply locates_exact|].
  exists M, E. split; [exact HE|]. split; [exact HM|].
  rewrite Z.pow_0_r, !Z.mul_1_r in Herr.
  destruct HEk as [->| ->].
  - split; [lia|].
    replace (d - 53 + 0 - (d - 53) - 0) with 0 in Herr by lia.
    rewrite Z.pow_0_r, Z.mul_1_r in Herr.
    replace (- (d - 53 + 0)) with (53 - d) by lia. lia.
  - exfalso.
    replace (d - 53 + 0 + 1 - (d - 53) - 0) with 1 in Herr by lia.
    rewrite Z.pow_1_r in Herr. lia.
Qed.

Lemma new_location_locates N D :
  0 < D -> 0 <= N ->
  locates N D (shr_record_of_loc (N / D) (new_location D (N mod D))).
Proof.
  intros HD HN. pose proof (Z.mod_pos_bound N D HD) as Hb.
  unfold new_location, new_location_even, new_location_odd.
  destruct (Z.even D) eqn:Ev.
  - destruct (Z.eqb_spec (N mod D) 0) as [H0|H0].
    + split; [reflexivity|]. exact H0.
    + destruct (Z.compare_spec (2 * (N mod D)) D);
        (split; [reflexivity|]); cbn [shr_record_of_loc shr_r shr_s]; lia.
  - assert (Hodd : Z.odd D = true) by (rewrite <- Z.negb_even, Ev; reflexivity).
    apply Z.odd_spec in Hodd. destruct Hodd as [h Hh].
    destruct (Z.eqb_spec (N mod D) 0) as [H0|H0].
    + split; [reflexivity|]. exact H0.
    + destruct (Z.compare_spec (2 * (N mod D) + 1) D);
        (split; [reflexivity|]); cbn [shr_record_of_loc shr_r shr_s]; lia.
Qed.

Lemma div_eucl_div_mod a b :
  Z.div_eucl a b = (a / b, a mod b).
Proof. unfold Z.div, Z.modulo. now destruct (Z.div_eucl a b). Qed.

(** Division of two normal doubles: the mantissa of the quotient is
    within half a unit of the exact quotient at the scale of the result. *)
Lemma fdiv_spec M1 E1 M2 E2 :
  2 ^ 52 <= Z.pos M1 < 2 ^ 53 -> 2 ^ 52 <= Z.pos M2 < 2 ^ 53 ->
  -500 <= E1 - E2 <= 500 ->
  exists Mq Eq k j,
    JS.fdiv (S754_finite false M1 E1) (S754_finite false M2 E2)
    = S754_finite false Mq Eq
    /\ 2 ^ 52 <= Z.pos Mq < 2 ^ 53
    /\ (k = 0 \/ k = 1) /\ (j = 0 \/ j = 1)
    /\ Eq = E1 - E2 - 53 + k + j
    /\ Z.abs (2 * (Z.pos Mq * 2 ^ j * (2 ^ k * Z.pos M2)
                   - Z.pos M1 * 2 ^ 53))
       <= 2 ^ k * Z.pos M2.
Proof.
  intros H1 H2 HE.
  unfold JS.fdiv, SFdiv, SFdiv_core_binary, JS.prec, JS.emax.
  rewrite (Zdigits2_unique (Z.pos M1) 53) by (change (53 - 1) with 52; lia).
  rewrite (Zdigits2_unique (Z.pos M2) 53) by (change (53 - 1) with 52; lia).
  rewrite fexp_normal by lia.
  replace (Z.min (53 + E1 - (53 + E2) - 53) (E1 - E2)) with (E1 - E2 - 53)
    by lia.
  replace (E1 - E2 - (E1 - E2 - 53)) with 53 by lia.
  cbv iota. rewrite Z.shiftl_mul_pow2 by lia.
  rewrite div_eucl_div_mod. cbv iota beta.
  set (N := Z.pos M1 * 2 ^ 53). set (D := Z.pos M2).
  assert (HD : 0 < D) by (unfold D; lia).
  assert (HN : 0 <= N) by (unfold N; lia).
  assert (Hq : 2 ^ 52 <= N / D < 2 ^ 54).
  { split.
    - apply Z.div_le_lower_bound; [lia|]. unfold N, D. nia.
    - apply Z.div_lt_upper_bound; [lia|]. unfold N, D. nia. }
  set (k := if N / D <? 2 ^ 53 then 0 else 1).
  assert (Hk : (k = 0 \/ k = 1)
               /\ 2 ^ (52 + k) <= N / D < 2 ^ (53 + k)).
  { unfold k. destruct (Z.ltb_spec (N / D) (2 ^ 53)).
    - split; [now left|]. change (52 + 0) with 52. change (53 + 0) with 53.
      lia.
    - split; [now right|]. change (52 + 1) with 53. change (53 + 1) with 54.
      lia. }
  destruct Hk as [Hk Hrange].
  destruct (binary_round_aux_spec (N / D) (E1 - E2 - 53)
              (new_location D (N mod D)) N D k)
    as (M & E & HEq & HM & HEk & Herr);
    try lia; [apply new_location_locates; assumption|].
  exists M, E, k, (E - (E1 - E2 - 53) - k).
  split; [exact HEq|]. split; [exact HM|]. split; [exact Hk|].
  split; [lia|]. split; [lia|]. exact Herr.
Qed.

(** Multiplication of two normal doubles. *)
Lemma fmul_spec M1 E1 M2 E2 :
  2 ^ 52 <= Z.pos M1 < 2 ^ 53 -> 2 ^ 52 <= Z.pos M2 < 2 ^ 53 ->
  -500 <= E1 + E2 <= 500 ->
  exists Mp Ep k j,
    JS.fmul (S754_finite false M1 E1) (S754_finite false M2 E2)
    = S754_finite false Mp Ep
    /\ 2 ^ 52 <= Z.pos Mp < 2 ^ 53
    /\ (k = 52 \/ k = 53) /\ (j = 0 \/ j = 1)
    /\ Ep = E1 + E2 + k + j
    /\ Z.abs (2 * (Z.pos Mp * 2 ^ j * 2 ^ k - Z.pos M1 * Z.pos M2))
       <= 2 ^ k.
Proof.
  intros H1 H2 HE.
  unfold JS.fmul, SFmul, JS.prec, JS.emax. cbn [xorb].
  rewrite Pos2Z.inj_mul.
  set (N := Z.pos M1 * Z.pos M2).
  assert (Hq : 2 ^ 104 <= N < 2 ^ 106).
  { unfold N. change (2 ^ 104) with (2 ^ 52 * 2 ^ 52).
    change (2 ^ 106) with (2 ^ 53 * 2 ^ 53). nia. }
  set (k := if N <? 2 ^ 105 then 52 else 53).
  assert (Hk : (k = 52 \/ k = 53) /\ 2 ^ (52 + k) <= N < 2 ^ (53 + k)).
  { unfold k. destruct (Z.ltb_spec N (2 ^ 105)).
    - split; [now left|]. change (52 + 52) with 104.
      change (53 + 52) with 105. lia.
    - split; [now right|]. change (52 + 53) with 105.
      change (53 + 53) with 106. lia. }
  destruct Hk as [Hk Hrange].
  destruct (binary_round_aux_spec N (E1 + E2) loc_Exact N 1 k)
    as (M & E & HEq & HM & HEk & Herr);
    try lia; [apply locates_exact|].
  exists M, E, k, (E - (E1 + E2) - k).
  split; [exact HEq|]. split; [exact HM|]. split; [exact Hk|].
  split; [lia|]. split; [lia|].
  rewrite Z.mul_1_r in Herr. exact Herr.
Qed.

(** An integer below [2^53] is a double. *)
Lemma of_Z_exact z : 0 <= z < 2 ^ 53 -> JS.Math_floor (JS.of_Z z) = z.
Proof.
  intros Hz. destruct (Z.eq_dec z 0) as [-> | Hne]; [reflexivity|].
  destruct (of_Z_spec z ltac:(lia)) as (M & E & -> & HM & HE & Hv).
  unfold JS.Math_floor.
  destruct (Z.leb_spec 0 E).
  - assert (E = 0) by lia. subst E. rewrite Hv. cbn. lia.
  - rewrite Hv. apply Z.div_mul. apply Z.pow_nonzero; lia.
Qed.

Lemma add_exact a b : 0 <= a + b < 2 ^ 53 -> JS.add a b = a + b.
Proof. intros H. unfold JS.add. now apply of_Z_exact. Qed.

(** The floor of a scaled mantissa: [q <= M * 2^E < q + 1]. *)
Lemma floor_scaled M E q :
  0 < M ->
  (0 <= E -> M * 2 ^ E = q) ->
  (E < 0 -> q * 2 ^ (- E) <= M < (q + 1) * 2 ^ (- E)) ->
  (if 0 <=? E then M * 2 ^ E else M / 2 ^ (- E)) = q.
Proof.
  intros HM H1 H2. destruct (Z.leb_spec 0 E); [auto|].
  destruct (H2 ltac:(lia)) as [Hlo Hhi].
  assert (Hp : 0 < 2 ^ (- E)) by (apply Z.pow_pos_nonneg; lia).
  symmetry. apply Z.div_unique with (r := M - q * 2 ^ (- E)); lia.
Qed.

(** A mantissa within half a unit of the quotient [a / b], scaled by
    [U * b], lies between the integer quotient and its successor. *)
Lemma quotient_between a b q r Mq J KT D U :
  1 <= b -> a = b * q + r -> 0 <= r < b ->
  0 < KT -> 0 < J -> U = KT * D -> KT * b < 2 * U ->
  Z.abs (2 * (Mq * J * (KT * b) - a * U)) <= KT * b ->
  q * (U * b) <= Mq * J * (KT * b) < (q + 1) * (U * b).
Proof.
  intros Hb Ha Hr HKT HJ HU Hlt Hbound.
  assert (HKb : 0 < KT * b) by (apply Z.mul_pos_pos; lia).
  assert (HU0 : 0 < U) by lia.
  destruct (Z.eq_dec r 0) as [-> | Hr0].
  - assert (Hm : Mq * J * (KT * b) - a * U = KT * b * (Mq * J - q * D)).
    { subst a U. ring. }
    rewrite Hm in Hbound.
    assert (Hz : Mq * J - q * D = 0).
    { set (m := Mq * J - q * D) in *.
      destruct (Z.lt_trichotomy m 0) as [H0 | [H0 | H0]]; [|exact H0|].
      - assert (KT * b * m <= - (KT * b)) by nia. lia.
      - assert (KT * b <= KT * b * m) by nia. lia. }
    assert (HX : Mq * J * (KT * b) = a * U)
      by (rewrite Hz, Z.mul_0_r in Hm; lia).
    rewrite HX. subst a.
    assert (0 < U * b) by (apply Z.mul_pos_pos; lia).
    replace ((b * q + 0) * U) with (q * (U * b)) by ring.
    replace ((q + 1) * (U * b)) with (q * (U * b) + U * b) by ring. lia.
  - assert (H1 : U <= r * U) by nia.
    assert (H2 : U <= (b - r) * U) by nia.
    assert (H3 : a * U = q * (U * b) + r * U) by (subst a; ring).
    assert (H4 : (q + 1) * (U * b) = a * U + (b - r) * U) by (subst a; ring).
    lia.
Qed.

(** Below [2^53] the floor of the double quotient is the integer
    quotient. *)
Lemma floor_div_exact a b :
  0 <= a < 2 ^ 53 -> 1 <= b < 2 ^ 53 -> JS.floor_div a b = a / b.
Proof.
  intros Ha Hb. unfold JS.floor_div.
  destruct (Z.eq_dec a 0) as [-> | Hne].
  { destruct (of_Z_spec b ltac:(lia)) as (M2 & E2 & -> & _).
    reflexivity. }
  destruct (of_Z_spec a ltac:(lia)) as (M1 & E1 & -> & HM1 & HE1 & Hv1).
  destruct (of_Z_spec b ltac:(lia)) as (M2 & E2 & -> & HM2 & HE2 & Hv2).
  destruct (fdiv_spec M1 E1 M2 E2 HM1 HM2 ltac:(lia))
    as (Mq & Eq & k & j & -> & HMq & Hk & Hj & HEq & Hbound).
  unfold JS.Math_floor.
  set (s := - E1) in *. set (t := - E2) in *.
  assert (Hs : 0 <= s <= 52) by (subst s; lia).
  assert (Ht : 0 <= t <= 52) by (subst t; lia).
  set (q := a / b). set (r := a mod b).
  assert (Hdm : a = b * q + r) by (apply Z.div_mod; lia).
  assert (Hr : 0 <= r < b) by (apply Z.mod_pos_bound; lia).
  assert (Hk0 : 0 <= k <= 1) by lia.
  assert (Hj0 : 0 <= j <= 1) by lia.
  assert (HJ : 0 < 2 ^ j) by (apply Z.pow_pos_nonneg; lia).
  assert (HKT : 0 < 2 ^ (k + t)) by (apply Z.pow_pos_nonneg; lia).
  assert (HU : 2 ^ (s + 53) = 2 ^ (k + t) * 2 ^ (s + 53 - k - t)).
  { rewrite <- Z.pow_add_r by lia. f_equal. lia. }
  assert (HS : 0 < 2 ^ s) by (apply Z.pow_pos_nonneg; lia).
  assert (Hlt : 2 ^ (k + t) * b < 2 * 2 ^ (s + 53)).
  { rewrite (Z.pow_add_r 2 s 53), (Z.pow_add_r 2 k t) by lia.
    assert (2 ^ k <= 2) by (destruct Hk as [-> | ->]; cbn; lia).
    assert (0 <= 2 ^ t * b < 2 ^ 53) by lia.
    replace (2 ^ k * 2 ^ t * b) with (2 ^ k * (2 ^ t * b)) by ring.
    apply Z.le_lt_trans with (2 * (2 ^ t * b));
      [apply Z.mul_le_mono_nonneg_r; lia|lia]. }
  assert (Hb' : Z.abs (2 * (Z.pos Mq * 2 ^ j * (2 ^ (k + t) * b)
                            - a * 2 ^ (s + 53))) <= 2 ^ (k + t) * b).
  { rewrite (Z.pow_add_r 2 s 53), (Z.pow_add_r 2 k t) by lia.
    rewrite Hv1, Hv2 in Hbound.
    replace (2 ^ k * 2 ^ t * b) with (2 ^ k * (b * 2 ^ t)) by ring.
    replace (a * (2 ^ s * 2 ^ 53)) with (a * 2 ^ s * 2 ^ 53) by ring.
    exact Hbound. }
  clear Hbound.
  pose proof (quotient_between a b q r (Z.pos Mq) (2 ^ j) (2 ^ (k + t))
                (2 ^ (s + 53 - k - t)) (2 ^ (s + 53))
                ltac:(lia) Hdm Hr HKT HJ HU Hlt Hb') as [Hlo Hhi].
  clear Hb'.
  assert (HUb : 0 < 2 ^ (s + 53) * b)
    by (apply Z.mul_pos_pos; [apply Z.pow_pos_nonneg|]; lia).
  apply floor_scaled; [lia| |].
  - intros HE.
    assert (HW : 2 ^ j * 2 ^ (k + t) = 2 ^ Eq * 2 ^ (s + 53)).
    { rewrite <- !Z.pow_add_r by lia. f_equal. lia. }
    assert (HX : Z.pos Mq * 2 ^ j * (2 ^ (k + t) * b)
                 = Z.pos Mq * 2 ^ Eq * (2 ^ (s + 53) * b)).
    { transitivity (Z.pos Mq * (2 ^ j * 2 ^ (k + t)) * b); [ring|].
      rewrite HW. ring. }
    rewrite HX in Hlo, Hhi.
    apply Z.mul_le_mono_pos_r in Hlo; [|exact HUb].
    apply Z.mul_lt_mono_pos_r in Hhi; [|exact HUb].
    lia.
  - intros HE.
    assert (HW : 2 ^ (s + 53) = 2 ^ (- Eq) * (2 ^ j * 2 ^ (k + t))).
    { rewrite <- !Z.pow_add_r by lia. f_equal. lia. }
    assert (HJK : 0 < 2 ^ j * 2 ^ (k + t) * b).
    { apply Z.mul_pos_pos; [apply Z.mul_pos_pos|]; lia. }
    assert (H1 : q * (2 ^ (s + 53) * b)
                 = q * 2 ^ (- Eq) * (2 ^ j * 2 ^ (k + t) * b))
      by (rewrite HW; ring).
    assert (H2 : (q + 1) * (2 ^ (s + 53) * b)
                 = (q + 1) * 2 ^ (- Eq) * (2 ^ j * 2 ^ (k + t) * b))
      by (rewrite HW; ring).
    assert (H3 : Z.pos Mq * 2 ^ j * (2 ^ (k + t) * b)
                 = Z.pos Mq * (2 ^ j * 2 ^ (k + t) * b)) by ring.
    rewrite H1, H3 in Hlo. rewrite H2, H3 in Hhi.
    apply Z.mul_le_mono_pos_r in Hlo; [|exact HJK].
    apply Z.mul_lt_mono_pos_r in Hhi; [|exact HJK].
    lia.
Qed.

(** ** Tables *)

Lemma get_set_same (V : Type) (k : string) (v : V) (o : JS.Obj V) :
  JS.get k (JS.set k v o) = Some v.
Proof.
  induction o as [|[k' v'] o IH]; simpl.
  - now rewrite String.eqb_refl.
  - destruct (String.eqb k' k) eqn:E; simpl; rewrite E; auto.
Qed.

Lemma get_set_other (V : Type) (k k' : string) (v : V) (o : JS.Obj V) :
  k <> k' -> JS.get k' (JS.set k v o) = JS.get k' o.
Proof.
  intros Hne. induction o as [|[k0 v0] o IH]; simpl.
  - destruct (String.eqb k k') eqn:E; auto.
    apply String.eqb_eq in E. contradiction.
  - destruct (String.eqb k0 k) eqn:E; simpl.
    + apply String.eqb_eq in E. subst k0.
      destruct (String.eqb k k') eqn:E'; auto.
      apply String.eqb_eq in E'. contradiction.
    + now rewrite IH.
Qed.

(** ** Reading the store *)

Lemma parse_table (A : Type) (s : Slot (JS.Obj A)) :
  readable s -> parse_or s [] = Ok (table s).
Proof. destruct s; unfold readable; simpl; congruence. Qed.

(** ** Snake high score (C1) *)

Lemma or_num_0 (n : Z) : JS.or_num n 0 = n.
Proof. unfold JS.or_num. destruct (Z.eqb_spec n 0); lia. Qed.

Lemma storedHigh_get (a : string) (ls : LocalStorage) :
  storedHigh a ls =
  match JS.get a (table (linera_snake_scores ls)) with
  | Some n => n
  | None => 0
  end.
Proof.
  unfold storedHigh, JS.num_or.
  destruct (JS.get a _); auto using or_num_0.
Qed.

(** One submission in demo mode stores the larger of the score and the
    high score read before, whatever happens to the play counter. *)
Lemma submitSnakeScore_high h c w score ls :
  demo_session h c w ->
  readable (linera_snake_scores ls) ->
  let ls' := snd (Hook.submitSnakeScore h c score ls) in
  readable (linera_snake_scores ls')
  /\ storedHigh (Hook.address w) ls'
     = Z.max (storedHigh (Hook.address w) ls) score.
Proof.
  intros (Hc & Hw & Hr) Hread.
  unfold Hook.submitSnakeScore. rewrite Hc, Hw, Hr.
  unfold try_catch, bind, getItem_parse, setItem, ret, readable in *.
  rewrite !storedHigh_get.
  destruct (linera_snake_scores ls) as [| |o] eqn:Es; try congruence; simpl.
  - unfold JS.num_or at 1; simpl.
    destruct (Z.gtb_spec score 0); simpl.
    + destruct (linera_games_played ls); simpl;
        rewrite ?Es; simpl; rewrite String.eqb_refl; (split; [congruence|lia]).
    + destruct (linera_games_played ls); simpl;
        rewrite ?Es; simpl; (split; [congruence|lia]).
  - assert (Hn : JS.num_or (JS.get (Hook.address w) o) 0
                 = match JS.get (Hook.address w) o with
                   | Some n => n | None => 0 end).
    { unfold JS.num_or. destruct (JS.get _ o); auto using or_num_0. }
    rewrite Hn.
    destruct (Z.gtb_spec score
                (match JS.get (Hook.address w) o with
                 | Some n => n | None => 0 end)); simpl.
    + destruct (linera_games_played ls); simpl;
        rewrite ?Es; simpl; rewrite get_set_same; (split; [congruence|lia]).
    + destruct (linera_games_played ls); simpl;
        rewrite ?Es; simpl; (split; [congruence|lia]).
Qed.

Lemma submitScores_high h c w scores : forall ls,
  demo_session h c w ->
  readable (linera_snake_scores ls) ->
  storedHigh (Hook.address w) (submitScores h c scores ls)
  = fold_left Z.max scores (storedHigh (Hook.address w) ls).
Proof.
  induction scores as [|s scores IH]; intros ls Hd Hread; simpl; auto.
  destruct (submitSnakeScore_high h c w s ls Hd Hread) as [Hread' Hs].
  change (submitScores h c (s :: scores) ls)
    with (submitScores h c scores (snd (Hook.submitSnakeScore h c s ls))).
  rewrite IH; auto. now rewrite Hs.
Qed.

Lemma fold_max_le (l : list Z) : forall a, a <= fold_left Z.max l a.
Proof.
  induction l as [|x l IH]; intros a; simpl; [lia|].
  specialize (IH (Z.max a x)). lia.
Qed.

Lemma fold_max_max (l : list Z) : forall a b,
  fold_left Z.max l (Z.max a b) = Z.max a (fold_left Z.max l b).
Proof.
  induction l as [|x l IH]; intros a b; simpl; auto.
  rewrite <- IH. f_equal. lia.
Qed.

(** A submission never lowers the stored high score, in any session and
    on any store. *)
Lemma submitSnakeScore_monotone h c score a ls :
  storedHigh a ls <= storedHigh a (snd (Hook.submitSnakeScore h c score ls)).
Proof.
  unfold Hook.submitSnakeScore.
  destruct (Hook.isConnected h); simpl; [|lia].
  destruct (Hook.wallet h) as [w|]; simpl; [|lia].
  destruct (Hook.remote h c); simpl; [lia|].
  unfold try_catch, bind, getItem_parse, setItem, ret.
  rewrite !storedHigh_get.
  destruct (linera_snake_scores ls) as [| |o] eqn:Es; simpl;
    try (rewrite Es; simpl; lia).
  - unfold JS.num_or at 1; simpl.
    destruct (Z.gtb_spec score 0); simpl;
      destruct (linera_games_played ls); simpl; rewrite ?Es; simpl;
      try lia;
      destruct (String.eqb (Hook.address w) a); lia.
  - assert (Hn : JS.num_or (JS.get (Hook.address w) o) 0
                 = match JS.get (Hook.address w) o with
                   | Some n => n | None => 0 end).
    { unfold JS.num_or. destruct (JS.get _ o); auto using or_num_0. }
    rewrite Hn.
    destruct (Z.gtb_spec score
                (match JS.get (Hook.address w) o with
                 | Some n => n | None => 0 end)); simpl;
      destruct (linera_games_played ls); simpl; rewrite ?Es; simpl;
      try lia;
      (destruct (string_dec (Hook.address w) a) as [E|Hne];
       [subst a; rewrite get_set_same; lia
       | rewrite get_set_other by auto; lia]).
Qed.

(** C1, as amended.  In demo mode, starting from a store with no snake
    score for the player, after the submissions [s1, ..., sn] the stored
    high score (read with its default [0]) is [max(0, s1, ..., sn)]; it is
    [max(s1..sn)] as soon as that maximum is not negative; and no
    submission, in any session, lowers the stored high score. *)
Theorem snake_high_score_running_max h c w s1 rest ls :
  demo_session h c w ->
  readable (linera_snake_scores ls) ->
  JS.get (Hook.address w) (table (linera_snake_scores ls)) = None ->
  let a := Hook.address w in
  storedHigh a (submitScores h c (s1 :: rest) ls) = Z.max 0 (maximum s1 rest)
  /\ (0 <= maximum s1 rest ->
      storedHigh a (submitScores h c (s1 :: rest) ls) = maximum s1 rest)
  /\ (forall h' c' s ls0,
        storedHigh a ls0
        <= storedHigh a (snd (Hook.submitSnakeScore h' c' s ls0))).
Proof.
  intros Hd Hread Hnone a.
  assert (H0 : storedHigh a ls = 0).
  { unfold a. rewrite storedHigh_get, Hnone. reflexivity. }
  assert (Hmax : storedHigh a (submitScores h c (s1 :: rest) ls)
                 = Z.max 0 (maximum s1 rest)).
  { unfold a. rewrite (submitScores_high h c w (s1 :: rest) ls Hd Hread).
    fold a. rewrite H0. simpl. unfold maximum. apply fold_max_max. }
  split; [exact Hmax|]. split.
  - intros Hnn. rewrite Hmax. lia.
  - intros. apply submitSnakeScore_monotone.
Qed.

Lemma snake_high_score_running_max_witness :
  demo_session demoHook offline alice
  /\ storedHigh (Hook.address alice)
       (submitScores demoHook offline [10; 7; 25] Storage.empty) = 25.
Proof.
  assert (Hd : demo_session demoHook offline alice) by (repeat split).
  split; [exact Hd|].
  refine (proj1 (proj2 (snake_high_score_running_max demoHook offline alice
                          10 [7; 25] Storage.empty Hd _ _)) _).
  - discriminate.
  - reflexivity.
  - vm_compute. discriminate.
Defined.

(** C1 as stated fails on a negative score: nothing is stored and the high
    score reads [0], not the maximum [-5]. *)
Lemma snake_high_score_counterexample :
  linera_snake_scores (submitScores demoHook offline [-5] Storage.empty)
  = Absent
  /\ storedHigh (Hook.address alice)
       (submitScores demoHook offline [-5] Storage.empty) = 0
  /\ maximum (-5) [] = -5
  /\ storedHigh (Hook.address alice)
       (submitScores demoHook offline [-5] Storage.empty)
     <> maximum (-5) [].
Proof. vm_compute. repeat split; congruence. Qed.

(** ** Best position in snake and ladders (C10) *)

(** C10.  In demo mode, a snake-and-ladders submission leaves a
    statistics object for the player whose [bestPosition] is the smaller
    of the submitted position and the best position before, which is [4]
    when the player had no statistics: the value never increases and is
    replaced only by a strictly smaller position. *)
Theorem bestPosition_non_increasing h c w won position ls :
  demo_session h c w ->
  readable (linera_snakeladders_stats ls) ->
  let a := Hook.address w in
  let ls' := snd (Hook.submitSnakeLaddersResult h c won position ls) in
  exists stats',
    JS.get a (table (linera_snakeladders_stats ls')) = Some stats'
    /\ match JS.get a (table (linera_snakeladders_stats ls)) with
       | None => bestPosition stats' = Some (Z.min position 4)
       | Some stats =>
           forall best, bestPosition stats = Some best ->
             bestPosition stats'
             = Some (if position <? best then position else best)
             /\ (if position <? best then position else best) <= best
       end.
Proof.
  intros (Hc & Hw & Hr) Hread a ls'. subst a ls'.
  unfold Hook.submitSnakeLaddersResult. rewrite Hc, Hw, Hr.
  unfold try_catch, bind, getItem_parse, setItem, ret, readable in *.
  destruct (linera_snakeladders_stats ls) as [| |o] eqn:Es; try congruence;
    simpl.
  - rewrite String.eqb_refl. eexists; split; [reflexivity|].
    unfold Hook.improve, Hook.count.
    destruct won; simpl; destruct (Z.ltb_spec position 4); simpl;
      f_equal; lia.
  - rewrite get_set_same. eexists; split; [reflexivity|].
    destruct (JS.get (Hook.address w) o) as [stats|]; simpl.
    + intros best Hb. unfold Hook.improve, Hook.count.
      destruct won; simpl; rewrite Hb;
        destruct (Z.ltb_spec position best); simpl; split; auto; lia.
    + unfold Hook.improve, Hook.count.
      destruct won; simpl; destruct (Z.ltb_spec position 4); simpl;
        f_equal; lia.
Qed.

Lemma bestPosition_non_increasing_witness :
  demo_session demoHook offline alice
  /\ exists stats',
       JS.get (Hook.address alice)
         (table (linera_snakeladders_stats
                   (snd (Hook.submitSnakeLaddersResult demoHook offline
                           true 2 Storage.empty)))) = Some stats'
       /\ bestPosition stats' = Some (Z.min 2 4).
Proof.
  assert (Hd : demo_session demoHook offline alice) by (repeat split).
  split; [exact Hd|].
  refine (bestPosition_non_increasing demoHook offline alice true 2
            Storage.empty Hd _).
  discriminate.
Defined.

(** ** Progression formula (C2) *)

Lemma str_or_nonempty (v : option string) (d : string) :
  JS.str_or v d = EmptyString \/
  exists ch s, JS.str_or v d = String ch s.
Proof.
  destruct (JS.str_or v d) as [|ch s]; [now left|right; eauto].
Qed.

(** C2, as amended.  In demo mode, on a store whose slots parse and in
    which the snake high score and the wins of the target address are
    not negative and [totalXp = snakeHighScore + totalWins * 50] is
    below [2^53], where [totalWins] sums the tic-tac-toe,
    snake-and-ladders and uno wins, [getUserProfile] returns the profile
    of the target address with the stored counters, with
    [level = floor(totalXp / 500) + 1] and [xp = totalXp mod 500], the
    part of [totalXp] within the current level. *)
Theorem progression_formula h c address ls :
  Hook.remote h c = false ->
  all_readable ls ->
  Hook.targetAddress_of h address <> EmptyString ->
  let t := Hook.targetAddress_of h address in
  0 <= storedHigh t ls ->
  0 <= wins (statsOf t Hook.no_stats (linera_tictactoe_stats ls)) ->
  0 <= wins (statsOf t Hook.no_stats (linera_snakeladders_stats ls)) ->
  0 <= wins (statsOf t Hook.no_stats (linera_uno_stats ls)) ->
  storedHigh t ls
  + (wins (statsOf t Hook.no_stats (linera_tictactoe_stats ls))
     + wins (statsOf t Hook.no_stats (linera_snakeladders_stats ls))
     + wins (statsOf t Hook.no_stats (linera_uno_stats ls))) * 50
  < 2 ^ 53 ->
  exists p,
    Hook.getUserProfile h c address ls = Some p
    /\ Types.snakeHighScore p = storedHigh t ls
    /\ Types.tictactoeWins p
       = wins (statsOf t Hook.no_stats (linera_tictactoe_stats ls))
    /\ Types.snakeLaddersWins p
       = wins (statsOf t Hook.no_stats (linera_snakeladders_stats ls))
    /\ Types.unoWins p
       = wins (statsOf t Hook.no_stats (linera_uno_stats ls))
    /\ let totalWins :=
         Types.tictactoeWins p + Types.snakeLaddersWins p + Types.unoWins p in
       let totalXp := Types.snakeHighScore p + totalWins * 50 in
       Types.level p = totalXp / 500 + 1
       /\ Types.xp p = totalXp mod 500
       /\ 0 <= Types.xp p < 500
       /\ totalXp = 500 * (Types.level p - 1) + Types.xp p.
Proof.
  intros Hr (H1 & H2 & H3 & H4 & H5 & H6) Hne t Hs Ht Hl Hu Hlt.
  assert (Hx : 0 <= storedHigh t ls
                    + (wins (statsOf t Hook.no_stats
                               (linera_tictactoe_stats ls))
                       + wins (statsOf t Hook.no_stats
                                 (linera_snakeladders_stats ls))
                       + wins (statsOf t Hook.no_stats (linera_uno_stats ls)))
                      * 50
               < 2 ^ 53) by lia.
  clear Hs Ht Hl Hu Hlt.
  unfold Hook.getUserProfile. fold t.
  destruct t as [|ch s] eqn:Et; [subst t; congruence|].
  rewrite Hr.
  unfold try_catch, bind, getItem_parse, ret.
  rewrite !parse_table by assumption.
  eexists; split; [reflexivity|].
  cbn [Types.snakeHighScore Types.tictactoeWins Types.snakeLaddersWins
       Types.unoWins Types.level Types.xp].
  unfold storedHigh, statsOf, JS.rem in *.
  repeat (split; [reflexivity|]).
  match type of Hx with
  | 0 <= ?x < _ => set (totalXp := x) in *
  end.
  rewrite (add_exact _ _ Hx). fold totalXp.
  rewrite floor_div_exact by lia.
  pose proof (Z.div_pos totalXp 500 ltac:(lia) ltac:(lia)).
  assert (totalXp / 500 < 2 ^ 52)
    by (apply Z.div_lt_upper_bound; lia).
  rewrite add_exact by lia.
  rewrite Z.rem_mod_nonneg by lia.
  split; [reflexivity|]. split; [reflexivity|].
  split; [apply Z.mod_pos_bound; lia|].
  pose proof (Z.div_mod totalXp 500); lia.
Qed.

Lemma progression_formula_witness :
  Hook.remote demoHook offline = false
  /\ exists p,
       Hook.getUserProfile demoHook offline None sampleStore = Some p
       /\ Types.snakeHighScore p = 120
       /\ Types.tictactoeWins p + Types.snakeLaddersWins p + Types.unoWins p
          = 3
       /\ Types.level p = 1
       /\ Types.xp p = 270.
Proof.
  split; [reflexivity|].
  destruct (progression_formula demoHook offline None sampleStore)
    as (p & Hp & Hs & Ht & Hl & Hu & Hlev & Hxp & _).
  - reflexivity.
  - repeat split; discriminate.
  - discriminate.
  - vm_compute. discriminate.
  - vm_compute. discriminate.
  - vm_compute. discriminate.
  - vm_compute. discriminate.
  - vm_compute. reflexivity.
  - exists p. split; [exact Hp|].
    cbv zeta in Hlev, Hxp. rewrite Hlev, Hxp, Hs, Ht, Hl, Hu.
    vm_compute. repeat split.
Defined.

(** C2 as stated fails in two places.  Above [2^53] the sum is rounded
    to a double: after a snake score of [2^54] and one win at
    tic-tac-toe, [totalXp] is [2^54 + 48] and [xp] is 32, where
    [(2^54 + 50) mod 500] is 34.  And the earlier copy of [getUserProfile] follows other
    formulas: on the store with [snakeHighScore = 120] and three wins
    (two of them at tic-tac-toe, with one loss) it returns level 2 and
    [xp = 230], where the formula gives level 1 and [xp = 270]. *)
Lemma progression_formula_counterexample :
  option_map (fun p => (Types.snakeHighScore p, Types.tictactoeWins p,
                        Types.xp p))
    (Hook.getUserProfile demoHook offline None
       (performAll demoHook offline [SnakeScore (2 ^ 54); TicTacToe true]
          Storage.empty))
  = Some (2 ^ 54, 1, 32)
  /\ (2 ^ 54 + 1 * 50) mod 500 = 34
  /\ option_map (fun p => (EarlierHook.snakeHighScore p,
                            EarlierHook.level p, EarlierHook.xp p))
       (EarlierHook.getUserProfile (Some earlierAlice) None sampleStore)
     = Some (120, 2, 230)
  /\ (120 + 3 * 50) / 500 + 1 = 1
  /\ (120 + 3 * 50) mod 500 = 270.
Proof. vm_compute. repeat split. Qed.

(** ** Failure of a remote call (C9) *)

(** A remote call fails exactly when there is no application, the
    request is rejected, the reply is not JSON, or the response carries no
    data. *)
Lemma remote_fails_iff c q :
  remote_fails c q <->
  Client.application c = None
  \/ exists app, Client.application c = Some app
       /\ (app q = Client.Rejected \/ app q = Client.NotJSON
           \/ app q = Client.Resolved {| Client.data := None |}).
Proof.
  unfold remote_fails, Client.has_data, Client.query.
  destruct (Client.application c) as [app|]; [|intuition].
  split.
  - intros H. right. exists app. split; [reflexivity|].
    destruct (app q) as [| |[[d|]]]; auto; discriminate.
  - intros [H|(app' & [= <-] & [H|[H|H]])]; [discriminate|..];
      rewrite H; reflexivity.
Qed.

(** C9.  In a session that selected the remote backend, an operation
    whose remote call fails returns its failure value ([false], or [null]
    for [createRoom] and for the profile query) and leaves the local store
    as it was: the operation is not redirected to the local store.  The
    queries that answer with a collection or a number return the empty
    array or [0] in the same way, not the content of the local store. *)
Theorem remote_failure_not_redirected h c w ls :
  remote_session h c w ->
  (forall score,
      remote_fails c (Client.SUBMIT_SNAKE_SCORE score) ->
      Hook.submitSnakeScore h c score ls = (false, ls))
  /\ (forall won,
        remote_fails c (Client.SUBMIT_TICTACTOE_RESULT won None) ->
        Hook.submitTicTacToeResult h c won ls = (false, ls))
  /\ (forall won position,
        remote_fails c (Client.SUBMIT_SNAKELADDERS_RESULT won position) ->
        Hook.submitSnakeLaddersResult h c won position ls = (false, ls))
  /\ (forall won,
        remote_fails c (Client.SUBMIT_UNO_RESULT won) ->
        Hook.submitUnoResult h c won ls = (false, ls))
  /\ (forall username avatarId,
        remote_fails c (Client.UPDATE_PROFILE username avatarId) ->
        Hook.updateProfile h c username avatarId ls = (false, ls))
  /\ (forall gameType maxPlayers fee random now,
        remote_fails c (Client.CREATE_ROOM gameType maxPlayers fee) ->
        Hook.createRoom h c gameType maxPlayers fee random now ls
        = (None, ls))
  /\ (forall roomId,
        remote_fails c (Client.JOIN_ROOM roomId) ->
        Hook.joinRoom h c roomId ls = (false, ls))
  /\ (forall address,
        Hook.targetAddress_of h address <> EmptyString ->
        remote_fails c
          (Client.GET_USER_PROFILE (Hook.targetAddress_of h address)) ->
        Hook.getUserProfile h c address ls = None)
  /\ (forall gameType limit,
        remote_fails c
          (Client.GET_LEADERBOARD gameType
             (JS.obj_or limit Hook.DEFAULT_LIMIT)) ->
        Hook.getLeaderboard h c gameType limit ls = [])
  /\ (forall address,
        Hook.targetAddress_of h address <> EmptyString ->
        remote_fails c
          (Client.GET_SNAKE_HIGH_SCORE (Hook.targetAddress_of h address)) ->
        Hook.getSnakeHighScore h c address ls = 0)
  /\ (forall gameType now,
        remote_fails c (Client.GET_ACTIVE_ROOMS gameType) ->
        Hook.getActiveRooms h c gameType now ls = []).
Proof.
  intros (Hc & Hw & Hr).
  assert (Hmem : forall (A : Type) (m : Client.Data -> option A) q,
             remote_fails c q -> Client.member m (Client.query c q) = None).
  { intros A m q Hq. unfold remote_fails, Client.has_data in Hq.
    unfold Client.member.
    destruct (Client.query c q) as [[[d|]]|]; auto; discriminate. }
  unfold Hook.submitSnakeScore, Hook.submitTicTacToeResult,
    Hook.submitSnakeLaddersResult, Hook.submitUnoResult, Hook.updateProfile,
    Hook.createRoom, Hook.joinRoom, Hook.getUserProfile,
    Hook.getLeaderboard, Hook.getSnakeHighScore, Hook.getActiveRooms.
  rewrite Hc, Hw, Hr.
  unfold Client.submitSnakeScore, Client.submitTicTacToeResult,
    Client.submitSnakeLaddersResult, Client.submitUnoResult,
    Client.updateProfile, Client.createRoom, Client.joinRoom,
    Client.getLeaderboard, Client.getActiveRooms, Client.mutate.
  split; [intros; f_equal; assumption|].
  split; [intros; f_equal; assumption|].
  split; [intros; f_equal; assumption|].
  split; [intros; f_equal; assumption|].
  split; [intros; f_equal; assumption|].
  split; [intros; rewrite Hmem by assumption; reflexivity|].
  split; [intros; rewrite Hmem by assumption; reflexivity|].
  split.
  { intros address Hne Hq.
    destruct (Hook.targetAddress_of h address) as [|ch s] eqn:Et;
      [congruence|].
    rewrite ?Hr. unfold Client.getUserProfile. simpl JS.str_or.
    apply Hmem. exact Hq. }
  split; [intros; rewrite Hmem by assumption; reflexivity|].
  split.
  { intros address Hne Hq.
    destruct (Hook.targetAddress_of h address) as [|ch s] eqn:Et;
      [congruence|].
    rewrite ?Hr. unfold Client.getSnakeHighScore. simpl JS.str_or.
    rewrite Hmem by assumption. reflexivity. }
  intros; rewrite Hmem by assumption; reflexivity.
Qed.

Lemma remote_failure_not_redirected_witness :
  remote_session remoteHook failing alice
  /\ Hook.submitSnakeScore remoteHook failing 25 Storage.empty
     = (false, Storage.empty).
Proof.
  assert (Hs : remote_session remoteHook failing alice) by (repeat split).
  split; [exact Hs|].
  apply (proj1 (remote_failure_not_redirected remoteHook failing alice
                  Storage.empty Hs) 25).
  reflexivity.
Defined.

(** ** Win streaks (C3) *)

Import Achievements.

Lemma updateStats_streak game won extraData s :
  currentWinStreak (updateStats game won extraData s)
  = (if won then currentWinStreak s + 1 else 0)
  /\ bestWinStreak (updateStats game won extraData s)
     = Z.max (bestWinStreak s)
         (if won then currentWinStreak s + 1 else bestWinStreak s).
Proof.
  unfold updateStats; simpl. split; [reflexivity|].
  destruct won; [|lia].
  destruct (Z.gtb_spec (currentWinStreak s + 1) (bestWinStreak s)); lia.
Qed.

Lemma trackGamePlayed_stats game won extraData now st :
  stats (snd (trackGamePlayed game won extraData now st))
  = updateStats game won extraData (stats st).
Proof.
  unfold trackGamePlayed.
  destruct (fold_left _ _ _) as [updated news]. reflexivity.
Qed.

(** From a state whose best streak is at least the current one and not
    negative, the best streak after a run is the largest of the best
    streak before and of the current streaks along the run. *)
Lemma bestWinStreak_run calls : forall st,
  currentWinStreak (stats st) <= bestWinStreak (stats st) ->
  0 <= bestWinStreak (stats st) ->
  bestWinStreak (stats (run calls st))
     = fold_left Z.max (streaks calls st) (bestWinStreak (stats st)).
Proof.
  induction calls as [|[[[game won] extraData] now] calls IH];
    intros st Hle Hnn.
  - reflexivity.
  - change (run (_ :: calls) st)
      with (run calls (play st (game, won, extraData, now))).
    change (streaks (_ :: calls) st)
      with (currentWinStreak (stats (play st (game, won, extraData, now)))
            :: streaks calls (play st (game, won, extraData, now))).
    set (st' := play st (game, won, extraData, now)).
    assert (Hs : stats st' = updateStats game won extraData (stats st))
      by apply trackGamePlayed_stats.
    destruct (updateStats_streak game won extraData (stats st)) as [Hc Hb].
    rewrite <- Hs in Hc, Hb.
    assert (Hle' : currentWinStreak (stats st') <= bestWinStreak (stats st')).
    { rewrite Hc, Hb. destruct won; lia. }
    assert (Hnn' : 0 <= bestWinStreak (stats st')) by (rewrite Hb; lia).
    rewrite (IH st' Hle' Hnn'). simpl. f_equal.
    rewrite Hc, Hb. destruct won; lia.
Qed.

(** ** From render to render *)

(** The first call after a render is the call on the state React
    holds. *)
Lemma trackGamePlayed_fresh game won extraData now st :
  UseAchievements.trackGamePlayed game won extraData now (fresh st)
  = (fst (trackGamePlayed game won extraData now st),
     {| UseAchievements.seen := st;
        UseAchievements.held :=
          snd (trackGamePlayed game won extraData now st) |}).
Proof.
  unfold UseAchievements.trackGamePlayed, trackGamePlayed, fresh.
  cbn [UseAchievements.seen UseAchievements.held].
  destruct (fold_left _ _ _) as [updated news]. reflexivity.
Qed.

Lemma checkAndUnlock_fresh achievementId now st :
  UseAchievements.checkAndUnlock achievementId now (fresh st)
  = (fst (checkAndUnlock achievementId now st),
     {| UseAchievements.seen := st;
        UseAchievements.held := snd (checkAndUnlock achievementId now st) |}).
Proof.
  unfold UseAchievements.checkAndUnlock, checkAndUnlock, fresh.
  cbn [UseAchievements.seen UseAchievements.held].
  destruct (find _ _) as [a|]; [|reflexivity].
  destruct (unlocked a); reflexivity.
Qed.

Lemma turn_fresh st a :
  turn (turn (fresh st) (Calls a)) Renders = fresh (act st a).
Proof.
  destruct a as [[[[game won] extraData] now]|i now|]; cbn [turn act play].
  - rewrite trackGamePlayed_fresh. reflexivity.
  - rewrite checkAndUnlock_fresh. reflexivity.
  - unfold UseAchievements.clearRecentUnlock, clearRecentUnlock, fresh.
    reflexivity.
Qed.

Lemma turns_rendered actions : forall st,
  turns (rendered actions) (fresh st) = fresh (actAll actions st).
Proof.
  induction actions as [|a actions IH]; intros st; [reflexivity|].
  change (turns (rendered (a :: actions)) (fresh st))
    with (turns (rendered actions)
            (turn (turn (fresh st) (Calls a)) Renders)).
  rewrite turn_fresh. apply IH.
Qed.

Lemma mount_fresh stored : UseAchievements.mount stored = fresh (load stored).
Proof. reflexivity. Qed.

Lemma actAll_tracks calls : forall st,
  actAll (map Track calls) st = run calls st.
Proof.
  induction calls as [|call calls IH]; intros st; [reflexivity|].
  apply IH.
Qed.

Lemma streaksAlong_rendered calls : forall st,
  streaksAlong (rendered (map Track calls)) (fresh st) = streaks calls st.
Proof.
  induction calls as [|call calls IH]; intros st; [reflexivity|].
  change (rendered (map Track (call :: calls)))
    with (Calls (Track call) :: Renders :: rendered (map Track calls)).
  cbn [streaksAlong].
  change (turn (turn (fresh st) (Calls (Track call))) Renders)
    with (turn (turn (fresh st) (Calls (Track call))) Renders).
  rewrite turn_fresh. rewrite IH.
  destruct call as [[[game won] extraData] now]. cbn [turn].
  rewrite trackGamePlayed_fresh. reflexivity.
Qed.

Lemma track_stats game won extraData now c :
  stats (UseAchievements.held
           (snd (UseAchievements.trackGamePlayed game won extraData now c)))
  = updateStats game won extraData (stats (UseAchievements.seen c)).
Proof.
  unfold UseAchievements.trackGamePlayed.
  destruct (fold_left _ _ _) as [updated news]. reflexivity.
Qed.

Lemma track_seen game won extraData now c :
  UseAchievements.seen
    (snd (UseAchievements.trackGamePlayed game won extraData now c))
  = UseAchievements.seen c.
Proof.
  unfold UseAchievements.trackGamePlayed.
  destruct (fold_left _ _ _) as [updated news]. reflexivity.
Qed.

(** C3, as amended.  A call of [trackGamePlayed] sets a
    [currentWinStreak] that is one more than that of its render on a win
    and [0] on a loss.  When the component renders after each call,
    every win adds one to the streak and every loss resets it; along
    every such sequence from the initial state [bestWinStreak] is the
    maximum of the values [currentWinStreak] has taken; and win, win,
    loss, win gives the streaks 1, 2, 0, 1 and the best streak 2. *)
Theorem win_streak_tracking :
  (forall game won extraData now c,
      currentWinStreak
        (stats (UseAchievements.held
                  (snd (UseAchievements.trackGamePlayed game won extraData
                          now c))))
      = if won then currentWinStreak (stats (UseAchievements.seen c)) + 1
        else 0)
  /\ (forall calls game won extraData now,
        let c := turns (rendered (map Track calls))
                   (UseAchievements.mount None) in
        currentWinStreak
          (stats (UseAchievements.held
                    (turns (rendered [Track (game, won, extraData, now)]) c)))
        = if won then currentWinStreak (stats (UseAchievements.held c)) + 1
          else 0)
  /\ (forall calls,
        let ts := rendered (map Track calls) in
        bestWinStreak
          (stats (UseAchievements.held
                    (turns ts (UseAchievements.mount None))))
        = fold_left Z.max (streaksAlong ts (UseAchievements.mount None)) 0)
  /\ streaksAlong (rendered (map Track [win 1; win 2; loss 3; win 4]))
       (UseAchievements.mount None)
     = [1; 2; 0; 1]
  /\ bestWinStreak
       (stats (UseAchievements.held
                 (turns (rendered (map Track [win 1; win 2; loss 3; win 4]))
                    (UseAchievements.mount None))))
     = 2.
Proof.
  split; [|split; [|split; [|split]]].
  - intros. rewrite track_stats.
    apply (updateStats_streak game won extraData
             (stats (UseAchievements.seen c))).
  - intros calls game won extraData now c. subst c.
    rewrite mount_fresh, turns_rendered, turns_rendered.
    cbn [UseAchievements.held fresh actAll fold_left act play].
    rewrite trackGamePlayed_stats.
    apply (updateStats_streak game won extraData).
  - intros calls ts. subst ts.
    rewrite mount_fresh, turns_rendered, streaksAlong_rendered,
      actAll_tracks.
    cbn [UseAchievements.held fresh].
    apply (bestWinStreak_run calls (load None)); simpl; lia.
  - reflexivity.
  - reflexivity.
Qed.

(** C3 as stated fails for calls made in one render: after two wins
    reported before the component renders again the streak is 1, and one
    game is counted. *)
Lemma win_streak_counterexample :
  streaksAlong [Calls (Track (win 1)); Calls (Track (win 2)); Renders]
    (UseAchievements.mount None)
  = [1; 1]
  /\ stats (UseAchievements.seen
              (turns [Calls (Track (win 1)); Calls (Track (win 2)); Renders]
                 (UseAchievements.mount None)))
     = {| totalGames := 1; totalWins := 1; currentWinStreak := 1;
          bestWinStreak := 1; snakeHighScore := 0; tttWins := 1;
          slWins := 0; unoWins := 0 |}.
Proof. split; reflexivity. Qed.

(** ** One-way unlocks (C4) *)

Lemma distinct_NoDup (l : list string) : distinct l = true -> NoDup l.
Proof.
  induction l as [|x l IH]; simpl; intros H; constructor.
  - apply andb_prop in H. destruct H as [H _].
    intros Hin. apply negb_true_iff in H.
    assert (existsb (String.eqb x) l = true).
    { apply existsb_exists. exists x. split; auto. apply String.eqb_refl. }
    congruence.
  - apply IH. apply andb_prop in H. tauto.
Qed.

Lemma unlock_id_ids now i l :
  map id (unlock_id now i l) = map id l.
Proof.
  unfold unlock_id. rewrite map_map. apply map_ext.
  intros a. destruct (String.eqb (id a) i); reflexivity.
Qed.

Lemma unlock_id_other now i l n a :
  nth_error l n = Some a -> id a <> i ->
  nth_error (unlock_id now i l) n = Some a.
Proof.
  intros Hn Hne. unfold unlock_id. rewrite nth_error_map, Hn. simpl.
  destruct (String.eqb_spec (id a) i); congruence.
Qed.

Lemma find_nth_error (A : Type) (f : A -> bool) (l : list A) (a : A) :
  find f l = Some a -> exists n, nth_error l n = Some a /\ f a = true.
Proof.
  induction l as [|x l IH]; simpl; [discriminate|].
  destruct (f x) eqn:E.
  - intros [= <-]. exists 0%nat. auto.
  - intros H. destruct (IH H) as (n & Hn & Hf). exists (S n). auto.
Qed.

Lemma distinct_ids_same_place l n m a b :
  NoDup (map id l) ->
  nth_error l n = Some a -> nth_error l m = Some b -> id a = id b ->
  n = m.
Proof.
  intros Hnd Ha Hb Hid.
  apply (proj1 (NoDup_nth_error (map id l)) Hnd).
  - rewrite length_map. apply nth_error_Some. congruence.
  - rewrite !nth_error_map, Ha, Hb. simpl. congruence.
Qed.

Lemma keeps_refl l : keeps l l.
Proof. split; auto. Qed.

Lemma keeps_trans l1 l2 l3 : keeps l1 l2 -> keeps l2 l3 -> keeps l1 l3.
Proof.
  intros [H1 K1] [H2 K2]. split; [congruence|].
  intros n a Hn Hu. apply K2; auto.
Qed.

(** Unlocking the achievement found locked under an id keeps every
    unlocked achievement. *)
Lemma unlock_id_keeps now i l a :
  NoDup (map id l) ->
  find (fun a => String.eqb (id a) i) l = Some a ->
  unlocked a = false ->
  keeps l (unlock_id now i l).
Proof.
  intros Hnd Hf Hl. split; [apply unlock_id_ids|].
  intros n b Hn Hu. apply unlock_id_other; auto.
  intros Hid. destruct (find_nth_error _ _ _ _ Hf) as (m & Hm & He).
  apply String.eqb_eq in He.
  assert (n = m) by (apply (distinct_ids_same_place l n m b a); congruence).
  subst m. congruence.
Qed.

Lemma locked_in_before l l' u :
  keeps l l' -> locked_in l' u -> locked_in l u.
Proof.
  intros [Hids Hk] (n & a & Hn & Hid & Hl).
  assert (Hn' : nth_error (map id l) n = Some (id a)).
  { rewrite <- Hids, nth_error_map, Hn. reflexivity. }
  rewrite nth_error_map in Hn'.
  destruct (nth_error l n) as [a0|] eqn:E0; [|discriminate].
  injection Hn' as Hid0.
  exists n, a0. split; [exact E0|]. split; [congruence|].
  destruct (unlocked a0) eqn:Eu; auto.
  rewrite (Hk n a0 E0 Eu) in Hn. congruence.
Qed.

(** The loop that processes the unlocks keeps every unlocked achievement
    and reports only achievements that were locked. *)
Lemma processUnlock_fold now checks : forall l news,
  NoDup (map id l) ->
  let r := fold_left (processUnlock now) checks (l, news) in
  keeps l (fst r)
  /\ forall u, In u (snd r) ->
       In u news
       \/ (locked_in l u /\ unlocked u = true /\ unlockedAt u = Some now).
Proof.
  induction checks as [|[i condition] checks IH]; intros l news Hnd; simpl.
  - split; [apply keeps_refl|auto].
  - destruct condition; [|apply IH; auto].
    destruct (find (fun a => String.eqb (id a) i) l) as [a|] eqn:Ef;
      [|apply IH; auto].
    destruct (unlocked a) eqn:Eu; [apply IH; auto|].
    pose proof (unlock_id_keeps now i l a Hnd Ef Eu) as Hk.
    assert (Hnd' : NoDup (map id (unlock_id now i l)))
      by (rewrite unlock_id_ids; exact Hnd).
    destruct (IH (unlock_id now i l) (news ++ [unlock now a]) Hnd')
      as [Hk' Hn']. split.
    + eapply keeps_trans; eauto.
    + intros u Hu. destruct (Hn' u Hu) as [Hin|(Hloc & Hun & Hat)].
      * apply in_app_or in Hin. destruct Hin as [Hin|[<-|[]]]; auto.
        right. repeat split.
        destruct (find_nth_error _ _ _ _ Ef) as (m & Hm & He).
        exists m, a. auto.
      * right. repeat split; auto. eapply locked_in_before; eauto.
Qed.

Lemma locked_in_not_unlocked l u a :
  NoDup (map id l) -> locked_in l u ->
  In a l -> unlocked a = true -> id u <> id a.
Proof.
  intros Hnd (n & a0 & Hn & Hid & Hl) Hin Hu Heq.
  apply In_nth_error in Hin. destruct Hin as [m Hm].
  assert (n = m)
    by (apply (distinct_ids_same_place l n m a0 a); congruence).
  subst m. congruence.
Qed.

(** [trackGamePlayed] keeps the unlocked achievements. *)
Lemma trackGamePlayed_keeps st :
  NoDup (map id (achievements st)) ->
  forall game won extraData now,
    keeps (achievements st)
      (achievements (snd (trackGamePlayed game won extraData now st))).
Proof.
  intros Hnd game won extraData now. unfold trackGamePlayed.
  pose proof (processUnlock_fold now
                (checkAchievements
                   (updateStats game won extraData (stats st)) extraData)
                (achievements st) [] Hnd) as [Hk _].
  destruct (fold_left _ _ _) as [updated news]. simpl in *.
  destruct news; [apply keeps_refl|exact Hk].
Qed.

(** Every state the hook loads has the ids of the catalogue, which are
    distinct, and the operations keep the ids. *)
Lemma load_ids stored :
  map id (achievements (load stored)) = map id ALL_ACHIEVEMENTS.
Proof.
  destruct stored as [[savedAchievements savedStats]|]; [|reflexivity].
  unfold load. cbn [achievements]. unfold merge.
  rewrite map_map. apply map_ext.
  intros a. destruct (find _ savedAchievements); reflexivity.
Qed.

Lemma catalogue_ids_distinct : NoDup (map id ALL_ACHIEVEMENTS).
Proof. apply distinct_NoDup. reflexivity. Qed.

Lemma checkAndUnlock_keeps st achievementId now :
  NoDup (map id (achievements st)) ->
  keeps (achievements st)
        (achievements (snd (checkAndUnlock achievementId now st))).
Proof.
  intros Hnd. unfold checkAndUnlock.
  destruct (find _ (achievements st)) as [a|] eqn:Ef; [|apply keeps_refl].
  destruct (unlocked a) eqn:Eu; [apply keeps_refl|].
  simpl. eapply unlock_id_keeps; eauto.
Qed.

Lemma act_keeps st a :
  NoDup (map id (achievements st)) ->
  keeps (achievements st) (achievements (act st a)).
Proof.
  intros Hnd. destruct a as [[[[game won] extraData] now]|i now|];
    cbn [act play].
  - now apply trackGamePlayed_keeps.
  - now apply checkAndUnlock_keeps.
  - apply keeps_refl.
Qed.

Lemma actAll_keeps actions : forall st,
  NoDup (map id (achievements st)) ->
  keeps (achievements st) (achievements (actAll actions st)).
Proof.
  induction actions as [|a actions IH]; intros st Hnd; [apply keeps_refl|].
  change (actAll (a :: actions) st) with (actAll actions (act st a)).
  pose proof (act_keeps st a Hnd) as Hk.
  eapply keeps_trans; [exact Hk|]. apply IH.
  destruct Hk as [Hids _]. now rewrite Hids.
Qed.

Lemma keeps_In l l' a :
  keeps l l' -> In a l -> unlocked a = true -> In a l'.
Proof.
  intros [_ Hk] Hin Hu. apply In_nth_error in Hin. destruct Hin as [n Hn].
  eapply nth_error_In. eapply Hk; eauto.
Qed.

(** What a call made first after a render reports was locked. *)
Lemma reportedBy_locked st t i a :
  NoDup (map id (achievements st)) ->
  In i (reportedBy (fresh st) t) ->
  In a (achievements st) -> unlocked a = true -> i <> id a.
Proof.
  intros Hnd Hi Hin Hu.
  destruct t as [[[[[game won] extraData] now]|j now|]|];
    cbn [reportedBy] in Hi; try contradiction.
  - rewrite trackGamePlayed_fresh in Hi. cbn [fst] in Hi.
    apply in_map_iff in Hi. destruct Hi as (u & <- & Hu').
    unfold trackGamePlayed in Hu'.
    pose proof (processUnlock_fold now
                  (checkAchievements
                     (updateStats game won extraData (stats st)) extraData)
                  (achievements st) [] Hnd) as [_ Hn].
    destruct (fold_left _ _ _) as [updated news]. simpl in *.
    destruct (Hn u Hu') as [[]|(Hloc & _)].
    exact (locked_in_not_unlocked _ u a Hnd Hloc Hin Hu).
  - rewrite checkAndUnlock_fresh in Hi. cbn [fst] in Hi.
    unfold checkAndUnlock in Hi.
    destruct (find _ (achievements st)) as [a0|] eqn:Ef;
      [|contradiction].
    destruct (unlocked a0) eqn:Eu; [contradiction|].
    cbn [fst] in Hi. destruct Hi as [<- | []].
    destruct (find_nth_error _ _ _ _ Ef) as (m & Hm & He).
    apply String.eqb_eq in He. rewrite <- He.
    apply (locked_in_not_unlocked (achievements st) a0 a Hnd); auto.
    exists m, a0. auto.
Qed.

Lemma reported_rendered actions : forall st i a,
  NoDup (map id (achievements st)) ->
  In i (reported (rendered actions) (fresh st)) ->
  In a (achievements st) -> unlocked a = true -> i <> id a.
Proof.
  induction actions as [|x actions IH]; intros st i a Hnd Hi Hin Hu;
    [contradiction|].
  change (reported (rendered (x :: actions)) (fresh st))
    with (reportedBy (fresh st) (Calls x)
          ++ reportedBy (turn (fresh st) (Calls x)) Renders
          ++ reported (rendered actions)
               (turn (turn (fresh st) (Calls x)) Renders)) in Hi.
  rewrite turn_fresh in Hi. cbn [reportedBy app] in Hi.
  apply in_app_or in Hi. destruct Hi as [Hi | Hi].
  - exact (reportedBy_locked st (Calls x) i a Hnd Hi Hin Hu).
  - pose proof (act_keeps st x Hnd) as Hk.
    apply (IH (act st x) i a); auto.
    + destruct Hk as [Hids _]. now rewrite Hids.
    + eapply keeps_In; eauto.
Qed.

(** C4, as amended.  When the component renders after each call, the
    achievements keep their ids and every achievement that is unlocked
    stays in place with its flag and its [unlockedAt], whatever calls of
    [checkAndUnlock], [trackGamePlayed] and [clearRecentUnlock] follow,
    and none of these calls reports its id as newly unlocked. *)
Theorem unlock_is_one_way stored before after :
  let c1 := turns (rendered before) (UseAchievements.mount stored) in
  let c2 := turns (rendered after) c1 in
  keeps (achievements (UseAchievements.held c1))
        (achievements (UseAchievements.held c2))
  /\ (forall a,
        In a (achievements (UseAchievements.held c1)) ->
        unlocked a = true ->
        In a (achievements (UseAchievements.held c2))
        /\ ~ In (id a) (reported (rendered after) c1)).
Proof.
  intros c1 c2. subst c2 c1.
  rewrite mount_fresh, !turns_rendered.
  cbn [UseAchievements.held fresh].
  set (st := actAll before (load stored)).
  assert (Hnd : NoDup (map id (achievements st))).
  { subst st.
    destruct (actAll_keeps before (load stored)) as [Hids _].
    - rewrite load_ids. apply catalogue_ids_distinct.
    - rewrite Hids, load_ids. apply catalogue_ids_distinct. }
  pose proof (actAll_keeps after st Hnd) as Hk.
  split; [exact Hk|].
  intros a Hin Hu. split; [eapply keeps_In; eauto|].
  intros Hi. now apply (reported_rendered after st (id a) a Hnd Hi Hin Hu).
Qed.

(** C4 as stated fails for calls made in one render.  A second win
    reported before the component renders again returns [first_game],
    [first_win] and [ttt_first_win] once more and stamps them with the
    new time; and a game tracked in the render in which
    [snake_no_walls] was unlocked sets and saves a list in which it is
    locked again. *)
Lemma unlock_is_one_way_counterexample :
  nth_error
    (achievements
       (UseAchievements.held
          (turns [Calls (Track (win 1000))] (UseAchievements.mount None)))) 4
  = Some {| id := "first_win"; unlocked := true; unlockedAt := Some 1000;
            category := general; rarity := common; xpReward := 15 |}
  /\ reported [Calls (Track (win 2000))]
       (turns [Calls (Track (win 1000))] (UseAchievements.mount None))
     = ["first_game"; "first_win"; "ttt_first_win"]
  /\ nth_error
       (achievements
          (UseAchievements.held
             (turns [Calls (Track (win 1000)); Calls (Track (win 2000))]
                (UseAchievements.mount None)))) 4
     = Some {| id := "first_win"; unlocked := true; unlockedAt := Some 2000;
               category := general; rarity := common; xpReward := 15 |}
  /\ unlockedIn
       (achievements
          (UseAchievements.held
             (turns [Calls (Unlock "snake_no_walls" 1000)]
                (UseAchievements.mount None))))
       "snake_no_walls"
     = true
  /\ unlockedIn
       (achievements
          (UseAchievements.held
             (turns [Calls (Unlock "snake_no_walls" 1000);
                     Calls (Track (loss 2000)); Renders]
                (UseAchievements.mount None))))
       "snake_no_walls"
     = false.
Proof. vm_compute. repeat split. Qed.

(** ** The leaderboard in demo mode *)

Lemma getLeaderboard_demo h c gameType limit ls :
  Hook.remote h c = false ->
  all_readable ls ->
  Hook.getLeaderboard h c gameType limit ls
  = if Z.of_nat (List.length (board gameType ls)) =? 0
    then Hook.generateDemoLeaderboard gameType
           (JS.obj_or limit Hook.DEFAULT_LIMIT)
    else JS.slice0 (board gameType ls) (JS.obj_or limit Hook.DEFAULT_LIMIT).
Proof.
  intros Hr (H1 & H2 & H3 & H4 & H5 & H6).
  unfold Hook.getLeaderboard. rewrite Hr.
  unfold try_catch, bind, getItem_parse, ret.
  rewrite !parse_table by assumption.
  fold (players ls). unfold board, entryFor.
  destruct (Z.of_nat _ =? 0); reflexivity.
Qed.

Lemma getLeaderboard_unreadable h c gameType limit ls :
  Hook.remote h c = false ->
  ~ all_readable ls ->
  Hook.getLeaderboard h c gameType limit ls
  = Hook.generateDemoLeaderboard gameType
      (JS.obj_or limit Hook.DEFAULT_LIMIT).
Proof.
  intros Hr Hn. unfold Hook.getLeaderboard. rewrite Hr.
  unfold try_catch, bind, getItem_parse, ret.
  unfold all_readable, readable in Hn.
  destruct (linera_snake_scores ls); simpl; auto;
    destruct (linera_tictactoe_stats ls); simpl; auto;
    destruct (linera_snakeladders_stats ls); simpl; auto;
    destruct (linera_uno_stats ls); simpl; auto;
    destruct (linera_profiles ls); simpl; auto;
    destruct (linera_games_played ls); simpl; auto;
    exfalso; apply Hn; repeat split; discriminate.
Qed.

Lemma mapi_from_length (A B : Type) (f : A -> Z -> B) (l : list A) :
  forall i, List.length (Hook.mapi_from f i l) = List.length l.
Proof. induction l; intros i; simpl; auto. Qed.

Lemma insert_desc_length (A : Type) (key : A -> Z) (x : A) (l : list A) :
  List.length (JS.insert_desc key x l) = S (List.length l).
Proof.
  induction l as [|y l IH]; simpl; auto.
  destruct (key y - key x <=? 0); simpl; auto.
Qed.

Lemma sort_desc_length (A : Type) (key : A -> Z) (l : list A) :
  List.length (JS.sort_desc key l) = List.length l.
Proof.
  induction l as [|x l IH]; simpl; auto.
  rewrite insert_desc_length. auto.
Qed.

Lemma board_length gameType ls :
  List.length (board gameType ls) = List.length (players ls).
Proof.
  unfold board, Hook.ranked.
  now rewrite mapi_from_length, sort_desc_length, length_map.
Qed.

(** ** Placeholder leaderboard (C7) *)

Lemma mapi_from_In (A B : Type) (f : A -> Z -> B) (l : list A) :
  forall i y, In y (Hook.mapi_from f i l) ->
  exists x r, In x l /\ y = f x r.
Proof.
  induction l as [|x l IH]; intros i y; simpl; [tauto|].
  intros [<-|H]; [exists x, (i + 1); auto|].
  destruct (IH _ _ H) as (x' & r & Hin & ->). exists x', r. auto.
Qed.

Lemma slice0_length (A : Type) (l : list A) (e : Z) :
  Z.of_nat (List.length (JS.slice0 l e))
  = if e <? 0 then Z.max (Z.of_nat (List.length l) + e) 0
    else Z.min e (Z.of_nat (List.length l)).
Proof.
  unfold JS.slice0. rewrite length_firstn.
  destruct (Z.ltb_spec e 0); lia.
Qed.

Lemma slice0_In (A : Type) (l : list A) (e : Z) (x : A) :
  In x (JS.slice0 l e) -> In x l.
Proof.
  unfold JS.slice0. generalize (Z.to_nat
    (if e <? 0 then Z.max (Z.of_nat (List.length l) + e) 0
     else Z.min e (Z.of_nat (List.length l)))).
  intros n H. rewrite <- (firstn_skipn n l). apply in_or_app. now left.
Qed.

Lemma generateDemoLeaderboard_length gameType limit :
  Z.of_nat (List.length (Hook.generateDemoLeaderboard gameType limit))
  = if limit <? 0 then Z.max (10 + limit) 0 else Z.min limit 10.
Proof.
  unfold Hook.generateDemoLeaderboard.
  rewrite mapi_from_length, slice0_length. reflexivity.
Qed.

(** C7, as amended.  In demo mode, when no player is known or a slot of
    the store does not parse, [getLeaderboard] returns, without raising,
    the placeholder list of [generateDemoLeaderboard], made of the ten demo
    players cut at [limit]: it is not empty exactly when [limit >= 1] or
    [-10 < limit < 0], and has [min(limit, 10)] entries for [limit >= 1],
    ten for the default limit. *)
Theorem placeholder_leaderboard h c gameType limit ls :
  Hook.remote h c = false ->
  players ls = [] \/ ~ all_readable ls ->
  let lim := JS.obj_or limit Hook.DEFAULT_LIMIT in
  let result := Hook.getLeaderboard h c gameType limit ls in
  result = Hook.generateDemoLeaderboard gameType lim
  /\ (result <> [] <-> 1 <= lim \/ -10 < lim < 0)
  /\ (1 <= lim -> Z.of_nat (List.length result) = Z.min lim 10)
  /\ (limit = None -> List.length result = 10%nat)
  /\ (forall e, In e result ->
        In (Types.playerName e) (map Hook.name Hook.demoPlayers)).
Proof.
  intros Hr Hcase lim result.
  assert (Hres : result = Hook.generateDemoLeaderboard gameType lim).
  { subst result lim.
    assert (Hdec : all_readable ls \/ ~ all_readable ls).
    { unfold all_readable, readable.
      destruct (linera_snake_scores ls);
        destruct (linera_tictactoe_stats ls);
        destruct (linera_snakeladders_stats ls);
        destruct (linera_uno_stats ls);
        destruct (linera_profiles ls);
        destruct (linera_games_played ls);
        try (right; intros (H1 & H2 & H3 & H4 & H5 & H6); congruence);
        left; repeat split; discriminate. }
    destruct Hdec as [Hall|Hnot];
      [|apply getLeaderboard_unreadable; assumption].
    destruct Hcase as [Hnone|Hnot]; [|contradiction].
    rewrite getLeaderboard_demo by assumption.
    rewrite board_length, Hnone. reflexivity. }
  pose proof (generateDemoLeaderboard_length gameType lim) as Hlen.
  rewrite <- Hres in Hlen.
  split; [exact Hres|]. split; [|split; [|split]].
  - split.
    + intros Hne. destruct result; [congruence|]. simpl List.length in Hlen.
      destruct (Z.ltb_spec lim 0); lia.
    + intros Hl Hnil. rewrite Hnil in Hlen.
      change (Z.of_nat (List.length (@nil Types.LeaderboardEntry))) with 0
        in Hlen.
      destruct (Z.ltb_spec lim 0); lia.
  - intros Hl. rewrite Hlen. destruct (Z.ltb_spec lim 0); lia.
  - intros ->. subst lim.
    change (JS.obj_or None Hook.DEFAULT_LIMIT) with 10 in Hlen.
    change (if 10 <? 0 then Z.max (10 + 10) 0 else Z.min 10 10) with 10
      in Hlen.
    lia.
  - intros e He. rewrite Hres in He.
    unfold Hook.generateDemoLeaderboard in He.
    apply mapi_from_In in He. destruct He as (p & r & Hp & ->).
    apply slice0_In in Hp.
    change (In (Hook.name p) (map Hook.name Hook.demoPlayers)).
    apply in_map. exact Hp.
Qed.

Lemma placeholder_leaderboard_witness :
  Hook.remote demoHook offline = false
  /\ players Storage.empty = []
  /\ List.length (Hook.getLeaderboard demoHook offline "snake" None
                     Storage.empty) = 10%nat.
Proof.
  split; [reflexivity|]. split; [reflexivity|].
  refine (proj1 (proj2 (proj2 (proj2
            (placeholder_leaderboard demoHook offline "snake" None
               Storage.empty _ _)))) _).
  - reflexivity.
  - left. reflexivity.
  - reflexivity.
Defined.

(** C7 as stated fails for a limit of 0: with no known player the result
    is the empty array. *)
Lemma placeholder_leaderboard_counterexample :
  players Storage.empty = []
  /\ Hook.getLeaderboard demoHook offline "snake" (Some 0) Storage.empty = [].
Proof. split; reflexivity. Qed.

(** ** Sorting and ranking (C6) *)

Section SortFacts.
Variable A : Type.
Variable key : A -> Z.

Lemma insert_desc_In (x y : A) (l : list A) :
  In y (JS.insert_desc key x l) <-> y = x \/ In y l.
Proof.
  induction l as [|z l IH]; simpl.
  - intuition.
  - destruct (key z - key x <=? 0); simpl; rewrite ?IH; intuition.
Qed.

Lemma sort_desc_In (y : A) (l : list A) : In y (JS.sort_desc key l) <-> In y l.
Proof.
  induction l as [|x l IH]; simpl; [tauto|].
  rewrite insert_desc_In, IH. intuition.
Qed.

Lemma insert_desc_sorted (x : A) (l : list A) :
  StronglySorted (fun a b => key a >= key b) l ->
  StronglySorted (fun a b => key a >= key b) (JS.insert_desc key x l).
Proof.
  induction l as [|z l IH]; intros Hs; simpl.
  - constructor; constructor.
  - inversion Hs as [|z0 l0 Hs' Hall]; subst.
    destruct (Z.leb_spec (key z - key x) 0).
    + constructor; [exact Hs|]. constructor; [lia|].
      eapply Forall_impl; [|exact Hall]. simpl. intros; lia.
    + constructor; [apply IH; exact Hs'|].
      apply Forall_forall. intros y Hy.
      apply (proj1 (insert_desc_In x y l)) in Hy.
      destruct Hy as [->|Hy]; [lia|].
      rewrite Forall_forall in Hall. apply Hall. exact Hy.
Qed.

Lemma sort_desc_sorted (l : list A) :
  StronglySorted (fun a b => key a >= key b) (JS.sort_desc key l).
Proof.
  induction l as [|x l IH]; simpl; [constructor|].
  apply insert_desc_sorted. exact IH.
Qed.

Lemma before_In (x y : A) (l : list A) : before x y l -> In x l /\ In y l.
Proof.
  induction 1 as [l Hy|z l Hb [IHx IHy]]; simpl; auto.
Qed.

Lemma sorted_before (R : A -> A -> Prop) (x y : A) (l : list A) :
  StronglySorted R l -> before x y l -> R x y.
Proof.
  intros Hs Hb. induction Hb as [l Hy|z l Hb IH].
  - inversion Hs as [|z0 l0 _ Hall]; subst.
    rewrite Forall_forall in Hall. auto.
  - inversion Hs; subst. auto.
Qed.

(** Insertion moves the new element only past elements of strictly
    greater key. *)
Lemma before_insert_desc (a x y : A) (l : list A) :
  before x y (JS.insert_desc key a l) ->
  (x = a /\ In y l) \/ (y = a /\ key a < key x) \/ before x y l.
Proof.
  induction l as [|z l IH]; simpl.
  - intros H. inversion H as [l0 Hy|z0 l0 Hb]; subst.
    + destruct Hy.
    + inversion Hb.
  - destruct (Z.leb_spec (key z - key a) 0) as [Hle|Hgt].
    + intros H. inversion H as [l0 Hy|z0 l0 Hb]; subst; auto.
    + intros H. inversion H as [l0 Hy|z0 l0 Hb]; subst.
      * apply (proj1 (insert_desc_In a y l)) in Hy.
        destruct Hy as [->|Hy].
        -- right. left. split; [reflexivity|lia].
        -- right. right. now constructor.
      * destruct (IH Hb) as [[-> Hy]|[[-> Hk]|Hb']].
        -- left. split; [reflexivity|]. now right.
        -- right. left. auto.
        -- right. right. now constructor 2.
Qed.

(** The sort is stable: elements of equal key keep their order. *)
Lemma before_sort_desc (x y : A) (l : list A) :
  before x y (JS.sort_desc key l) -> key x = key y -> before x y l.
Proof.
  induction l as [|a l IH]; simpl; intros Hb Hk.
  - inversion Hb.
  - destruct (before_insert_desc _ _ _ _ Hb) as [[-> Hy]|[[-> Hlt]|Hb']].
    + constructor. apply (proj1 (sort_desc_In y l)). exact Hy.
    + lia.
    + constructor 2. auto.
Qed.

Lemma nth_error_before (l : list A) : forall i j x y,
  (i < j)%nat -> nth_error l i = Some x -> nth_error l j = Some y ->
  before x y l.
Proof.
  induction l as [|z l IH]; intros i j x y Hij Hi Hj.
  - destruct i; discriminate.
  - destruct j as [|j]; [lia|]. destruct i as [|i]; simpl in *.
    + injection Hi as <-. constructor. eapply nth_error_In; eauto.
    + constructor 2. apply (IH i j); auto. lia.
Qed.

Lemma before_firstn (n : nat) (x y : A) : forall l : list A,
  before x y (firstn n l) -> before x y l.
Proof.
  induction n as [|n IH]; intros l Hb; simpl in Hb.
  - inversion Hb.
  - destruct l as [|z l]; [inversion Hb|].
    inversion Hb as [l0 Hy|z0 l0 Hb']; subst.
    + constructor. rewrite <- (firstn_skipn n l).
      apply in_or_app. now left.
    + constructor 2. auto.
Qed.

End SortFacts.

(** The result of [sort] does not depend on the algorithm: a stable sort
    in descending order has one result, which [sort_desc] computes. *)

Section StableSort.
Variable A : Type.
Variable key : A -> Z.

Lemma insert_desc_filter (k : Z) (x : A) (l : list A) :
  filter (fun a => key a =? k) (JS.insert_desc key x l)
  = filter (fun a => key a =? k) (x :: l).
Proof.
  induction l as [|y l IH]; [reflexivity|].
  cbn [JS.insert_desc].
  destruct (Z.leb_spec (key y - key x) 0) as [Hle|Hgt]; [reflexivity|].
  cbn [filter] in *. rewrite IH.
  destruct (Z.eqb_spec (key x) k) as [Hx|Hx];
    destruct (Z.eqb_spec (key y) k) as [Hy|Hy]; try reflexivity.
  lia.
Qed.

Lemma sort_desc_stable_sorted (l : list A) :
  stable_sorted key l (JS.sort_desc key l).
Proof.
  split; [apply sort_desc_sorted|].
  intros k. induction l as [|x l IH]; [reflexivity|].
  cbn [JS.sort_desc]. rewrite insert_desc_filter.
  cbn [filter]. now rewrite IH.
Qed.

Lemma filter_head_In (k : Z) (x : A) (l : list A) :
  key x = k -> In x l -> filter (fun a => key a =? k) l <> [].
Proof.
  intros Hk Hin Hnil.
  assert (Hx : In x (filter (fun a => key a =? k) l)).
  { apply filter_In. split; [exact Hin|]. now apply Z.eqb_eq. }
  rewrite Hnil in Hx. destruct Hx.
Qed.

(** Two lists in descending order of key with the same elements of each
    key, in the same order, are equal. *)
Lemma sorted_same_filters (l1 : list A) : forall l2,
  StronglySorted (fun a b => key a >= key b) l1 ->
  StronglySorted (fun a b => key a >= key b) l2 ->
  (forall k, filter (fun a => key a =? k) l1
             = filter (fun a => key a =? k) l2) ->
  l1 = l2.
Proof.
  induction l1 as [|x t IH]; intros l2 H1 H2 Hf.
  - destruct l2 as [|y u]; [reflexivity|].
    specialize (Hf (key y)). cbn [filter] in Hf.
    rewrite Z.eqb_refl in Hf. discriminate.
  - destruct l2 as [|y u].
    + specialize (Hf (key x)). cbn [filter] in Hf.
      rewrite Z.eqb_refl in Hf. discriminate.
    + inversion H1 as [|x0 t0 Ht Hxt]; subst.
      inversion H2 as [|y0 u0 Hu Hyu]; subst.
      rewrite Forall_forall in Hxt, Hyu.
      assert (Hxy : key x = key y).
      { assert (Hx : In x (y :: u)).
        { pose proof (Hf (key x)) as H. cbn [filter] in H.
          rewrite Z.eqb_refl in H.
          assert (Hin : In x (filter (fun a => key a =? key x) (y :: u))).
          { cbn [filter]. rewrite <- H. now left. }
          apply filter_In in Hin. tauto. }
        assert (Hy : In y (x :: t)).
        { pose proof (Hf (key y)) as H. cbn [filter] in H.
          rewrite Z.eqb_refl in H.
          assert (Hin : In y (filter (fun a => key a =? key y) (x :: t))).
          { cbn [filter]. rewrite H. now left. }
          apply filter_In in Hin. tauto. }
        assert (key y >= key x).
        { destruct Hx as [->|Hx]; [lia|]. now apply Hyu. }
        assert (key x >= key y).
        { destruct Hy as [->|Hy]; [lia|]. now apply Hxt. }
        lia. }
      pose proof (Hf (key x)) as Hk. cbn [filter] in Hk.
      rewrite Z.eqb_refl in Hk. rewrite <- Hxy, Z.eqb_refl in Hk.
      injection Hk as -> Hk. f_equal.
      apply IH; auto. intros k. specialize (Hf k). cbn [filter] in Hf.
      destruct (key y =? k); [now injection Hf|exact Hf].
Qed.

(** A stable sort in descending order of key has one result. *)
Lemma stable_sorted_unique (l l1 l2 : list A) :
  stable_sorted key l l1 -> stable_sorted key l l2 -> l1 = l2.
Proof.
  intros [S1 F1] [S2 F2]. apply sorted_same_filters; auto.
  intros k. now rewrite F1, F2.
Qed.

End StableSort.

Lemma before_map (A B : Type) (f : A -> B) (x' y' : B) (l : list A) :
  before x' y' (map f l) ->
  exists x y, before x y l /\ x' = f x /\ y' = f y.
Proof.
  induction l as [|z l IH]; simpl; intros Hb.
  - inversion Hb.
  - inversion Hb as [l0 Hy|z0 l0 Hb']; subst.
    + apply in_map_iff in Hy. destruct Hy as (y & <- & Hy).
      exists z, y. split; [now constructor|auto].
    + destruct (IH Hb') as (x & y & H & -> & ->).
      exists x, y. split; [now constructor 2|auto].
Qed.

Lemma before_mapi_from (A B : Type) (f : A -> Z -> B) (x' y' : B)
    (l : list A) :
  forall i, before x' y' (Hook.mapi_from f i l) ->
  exists x y r s, before x y l /\ x' = f x r /\ y' = f y s.
Proof.
  induction l as [|z l IH]; simpl; intros i Hb.
  - inversion Hb.
  - inversion Hb as [l0 Hy|z0 l0 Hb']; subst.
    + apply mapi_from_In in Hy. destruct Hy as (y & s & Hy & ->).
      exists z, y, (i + 1), s. split; [now constructor|auto].
    + destruct (IH _ Hb') as (x & y & r & s & H & -> & ->).
      exists x, y, r, s. split; [now constructor 2|auto].
Qed.

Lemma mapi_from_nth_error (A B : Type) (f : A -> Z -> B) (l : list A) :
  forall i n y, nth_error (Hook.mapi_from f i l) n = Some y ->
  exists x, nth_error l n = Some x /\ y = f x (i + Z.of_nat n + 1).
Proof.
  induction l as [|z l IH]; intros i n y H.
  - destruct n; discriminate.
  - destruct n as [|n]; simpl in H.
    + injection H as <-. exists z. split; [reflexivity|].
      f_equal. simpl. lia.
    + destruct (IH _ _ _ H) as (x & Hx & ->). exists x.
      split; [exact Hx|]. f_equal. lia.
Qed.

Lemma slice0_nth_error (A : Type) (l : list A) (e : Z) n x :
  nth_error (JS.slice0 l e) n = Some x -> nth_error l n = Some x.
Proof.
  unfold JS.slice0.
  generalize (Z.to_nat
    (if e <? 0 then Z.max (Z.of_nat (List.length l) + e) 0
     else Z.min e (Z.of_nat (List.length l)))).
  intros k. revert l n. induction k as [|k IH]; intros l n H.
  - destruct n; discriminate.
  - destruct l as [|z l]; [destruct n; discriminate|].
    destruct n as [|n]; simpl in *; auto.
Qed.

Lemma existsb_eqb_In (x : string) (l : list string) :
  existsb (String.eqb x) l = true <-> In x l.
Proof.
  rewrite existsb_exists. split.
  - intros (y & Hy & He). apply String.eqb_eq in He. now subst.
  - intros H. exists x. split; [exact H|apply String.eqb_refl].
Qed.

Lemma dedup_acc_spec (l : list string) : forall seen,
  NoDup (JS.dedup_acc seen l)
  /\ forall x, In x (JS.dedup_acc seen l) <-> In x l /\ ~ In x seen.
Proof.
  induction l as [|y l IH]; intros seen; simpl.
  - split; [constructor|tauto].
  - destruct (existsb (String.eqb y) seen) eqn:E.
    + apply existsb_eqb_In in E.
      destruct (IH seen) as [Hnd Hin]. split; [exact Hnd|].
      intros x. rewrite Hin. split; [tauto|].
      intros [[->|Hx] Hn]; tauto.
    + assert (Hy : ~ In y seen).
      { intros H. apply existsb_eqb_In in H. congruence. }
      destruct (IH (y :: seen)) as [Hnd Hin]. split.
      * constructor; [|exact Hnd]. rewrite Hin. simpl. tauto.
      * intros x. simpl. rewrite Hin. simpl.
        destruct (string_dec y x) as [->|Hne]; tauto.
Qed.

Lemma players_NoDup ls : NoDup (players ls).
Proof. apply (dedup_acc_spec _ []). Qed.

Lemma entryFor_fields gameType ls a :
  let e := entryFor gameType ls a in
  Types.rank e = 0
  /\ Types.playerAddress e = a
  /\ Types.score e = scoreFor gameType ls a
  /\ Types.gamesPlayed e
     = Hook.gamesPlayed_of (winsFor gameType ls a) (lossesFor gameType ls a)
         (JS.get a (table (linera_games_played ls)))
  /\ Types.winRate e
     = Hook.winRate_of (winsFor gameType ls a) (Types.gamesPlayed e).
Proof.
  unfold entryFor, Hook.entry_of, scoreFor, winsFor, lossesFor, tallyFor,
    storedHigh, statsOf.
  destruct (Hook.tally _ _ _ _ _) as [[s w] l]. simpl. repeat split.
Qed.

(** Every entry of the board is the entry of a known player with its
    rank set. *)
Lemma board_In gameType ls e :
  In e (board gameType ls) ->
  exists a r, In a (players ls)
    /\ e = Types.with_rank r (entryFor gameType ls a).
Proof.
  unfold board, Hook.ranked. intros H.
  apply mapi_from_In in H. destruct H as (e0 & r & H0 & ->).
  apply (proj1 (sort_desc_In _ Types.score e0 _)) in H0.
  apply in_map_iff in H0. destruct H0 as (a & <- & Ha).
  exists a, r. auto.
Qed.

(** Order on the board: scores descend, equal scores keep the order of
    the players. *)
Lemma board_before gameType ls ei ej :
  before ei ej (board gameType ls) ->
  Types.score ei >= Types.score ej
  /\ (Types.score ei = Types.score ej ->
      before (Types.playerAddress ei) (Types.playerAddress ej) (players ls)).
Proof.
  unfold board, Hook.ranked. intros H.
  apply before_mapi_from in H.
  destruct H as (x & y & r & s & Hb & -> & ->). simpl.
  split.
  - apply (sorted_before _ (fun a b => Types.score a >= Types.score b)
             x y _ (sort_desc_sorted _ Types.score _) Hb).
  - intros Heq. apply before_sort_desc in Hb; [|exact Heq].
    apply before_map in Hb. destruct Hb as (a & b & Hab & -> & ->).
    destruct (entryFor_fields gameType ls a) as (_ & -> & _).
    destruct (entryFor_fields gameType ls b) as (_ & -> & _).
    exact Hab.
Qed.

(** C6.  In demo mode, on a store whose slots parse and that knows at
    least one player, the list [getLeaderboard] returns is in descending
    order of score; entries of equal score are in the iteration order of
    the player set, which has no repetition; the rank of every entry is
    its position counted from 1; and every entry is that of a known
    player, with all players present when the limit allows. *)
Theorem leaderboard_ranking h c gameType limit ls :
  Hook.remote h c = false ->
  all_readable ls ->
  players ls <> [] ->
  let result := Hook.getLeaderboard h c gameType limit ls in
  (forall i j ei ej,
      (i < j)%nat ->
      nth_error result i = Some ei -> nth_error result j = Some ej ->
      Types.score ei >= Types.score ej
      /\ (Types.score ei = Types.score ej ->
          before (Types.playerAddress ei) (Types.playerAddress ej)
                 (players ls)))
  /\ NoDup (players ls)
  /\ (forall i e, nth_error result i = Some e ->
        Types.rank e = Z.of_nat i + 1)
  /\ (forall e, In e result ->
        In (Types.playerAddress e) (players ls)
        /\ Types.score e = scoreFor gameType ls (Types.playerAddress e))
  /\ (Z.of_nat (List.length (players ls))
      <= JS.obj_or limit Hook.DEFAULT_LIMIT ->
      List.length result = List.length (players ls)).
Proof.
  intros Hr Hall Hne result.
  assert (Hres : result
                 = JS.slice0 (board gameType ls)
                     (JS.obj_or limit Hook.DEFAULT_LIMIT)).
  { subst result. rewrite getLeaderboard_demo by assumption.
    rewrite board_length.
    destruct (players ls); [congruence|reflexivity]. }
  rewrite Hres. split; [|split; [|split; [|split]]].
  - intros i j ei ej Hij Hi Hj.
    apply (board_before gameType ls).
    apply (nth_error_before _ _ i j); eauto using slice0_nth_error.
  - apply players_NoDup.
  - intros i e Hi. apply slice0_nth_error in Hi.
    unfold board, Hook.ranked in Hi.
    apply mapi_from_nth_error in Hi. destruct Hi as (x & _ & ->).
    simpl. lia.
  - intros e He. apply slice0_In in He. apply board_In in He.
    destruct He as (a & r & Ha & ->). simpl.
    destruct (entryFor_fields gameType ls a) as (_ & -> & -> & _). auto.
  - intros Hl. apply Nat2Z.inj. rewrite slice0_length, board_length.
    destruct (Z.ltb_spec (JS.obj_or limit Hook.DEFAULT_LIMIT) 0); lia.
Qed.

Lemma leaderboard_ranking_witness :
  all_readable threePlayers
  /\ players threePlayers = ["0xA"; "0xB"; "0xC"]
  /\ map (fun e => (Types.playerAddress e, Types.rank e, Types.score e))
       (Hook.getLeaderboard demoHook offline "snake" None threePlayers)
     = [("0xB", 1, 250); ("0xC", 2, 250); ("0xA", 3, 100)]
  /\ forall i e,
       nth_error
         (Hook.getLeaderboard demoHook offline "snake" None threePlayers) i
       = Some e ->
       Types.rank e = Z.of_nat i + 1.
Proof.
  assert (Hall : all_readable threePlayers)
    by (repeat split; discriminate).
  split; [exact Hall|]. split; [reflexivity|]. split; [reflexivity|].
  refine (proj1 (proj2 (proj2
            (leaderboard_ranking demoHook offline "snake" None threePlayers
               _ Hall _)))).
  - reflexivity.
  - discriminate.
Defined.

(** ** Aggregate leaderboard (C5) *)

Lemma eqb_neq (s t : string) : s <> t -> String.eqb s t = false.
Proof. intros H. now apply String.eqb_neq. Qed.

Lemma result_entry h c gameType limit ls e :
  Hook.remote h c = false ->
  all_readable ls ->
  players ls <> [] ->
  In e (Hook.getLeaderboard h c gameType limit ls) ->
  exists r,
    In (Types.playerAddress e) (players ls)
    /\ e = Types.with_rank r (entryFor gameType ls (Types.playerAddress e)).
Proof.
  intros Hr Hall Hne He.
  rewrite getLeaderboard_demo in He by assumption.
  rewrite board_length in He.
  assert (Hz : (Z.of_nat (List.length (players ls)) =? 0) = false)
    by (destruct (players ls); [congruence|reflexivity]).
  rewrite Hz in He.
  apply slice0_In in He. apply board_In in He.
  destruct He as (a & r & Ha & ->). exists r. simpl.
  destruct (entryFor_fields gameType ls a) as (_ & -> & _). auto.
Qed.

(** C5.  The aggregate board does not add up the scores by game type:
    the [default] case of the [switch] weights a snake-and-ladders win
    100, the [snakeladders] case weights it 150.  For a player whose
    only result is one snake-and-ladders win, [getLeaderboard] lists 150
    on the snake-and-ladders board, 0 on the boards of the three other
    games, and 100 on the aggregate board. *)
Theorem aggregate_score_divergence :
  map Types.score
    (Hook.getLeaderboard demoHook offline "all" None oneLadderWin) = [100]
  /\ map Types.score
       (Hook.getLeaderboard demoHook offline "snake" None oneLadderWin)
     = [0]
  /\ map Types.score
       (Hook.getLeaderboard demoHook offline "tictactoe" None oneLadderWin)
     = [0]
  /\ map Types.score
       (Hook.getLeaderboard demoHook offline "snakeladders" None
          oneLadderWin)
     = [150]
  /\ map Types.score
       (Hook.getLeaderboard demoHook offline "uno" None oneLadderWin) = [0]
  /\ Types.score (entryFor "all" oneLadderWin (Hook.address alice))
     <> Types.score (entryFor "snake" oneLadderWin (Hook.address alice))
        + Types.score (entryFor "tictactoe" oneLadderWin (Hook.address alice))
        + Types.score
            (entryFor "snakeladders" oneLadderWin (Hook.address alice))
        + Types.score (entryFor "uno" oneLadderWin (Hook.address alice)).
Proof. vm_compute. repeat split; congruence. Qed.

(** ** Games played and win rate (C8) *)

(** *** The rounding of the win rate *)

Lemma pow2_pos e : 0 <= e -> 0 < 2 ^ e.
Proof. intros. apply Z.pow_pos_nonneg; lia. Qed.

Lemma abs_cancel c x y : 0 < c -> Z.abs (c * x) <= c * y -> Z.abs x <= y.
Proof.
  intros Hc H. rewrite Z.abs_mul, (Z.abs_eq c) in H by lia.
  apply Z.mul_le_mono_pos_l in H; assumption.
Qed.

Lemma scale_bound C A g :
  64 <= C -> 0 <= g -> C * A <= (C + 100) * g -> A <= 3 * g.
Proof.
  intros HC Hg H.
  destruct (Z.le_gt_cases A (3 * g)) as [|Hgt]; [assumption|exfalso].
  assert (C * (3 * g + 1) <= C * A)
    by (apply Z.mul_le_mono_nonneg_l; lia).
  assert (64 * g <= C * g) by (apply Z.mul_le_mono_nonneg_r; lia).
  lia.
Qed.

(** The error of the quotient at the scale of the integers [w] and [g]. *)
Lemma quotient_scale w g M1 M2 Mq E1 E2 k j a :
  0 < g -> E1 <= 0 -> E2 <= 0 -> 0 <= k -> 0 <= j -> 0 <= a ->
  M1 = w * 2 ^ (- E1) -> M2 = g * 2 ^ (- E2) ->
  - E1 + 53 = - E2 + k + j + a ->
  Z.abs (2 * (Mq * 2 ^ j * (2 ^ k * M2) - M1 * 2 ^ 53)) <= 2 ^ k * M2 ->
  Z.abs (2 * (Mq * g - w * 2 ^ a)) <= g.
Proof.
  intros Hg HE1 HE2 Hk Hj Ha HV1 HV2 Hexp HD.
  pose proof (pow2_pos (- E2) ltac:(lia)) as Hs2.
  pose proof (pow2_pos k Hk) as Hpk.
  pose proof (pow2_pos j Hj) as Hpj.
  assert (Hs1 : 2 ^ (- E1) * 2 ^ 53 = 2 ^ (- E2) * 2 ^ k * 2 ^ j * 2 ^ a).
  { rewrite <- !Z.pow_add_r by lia. f_equal. lia. }
  assert (Heq : 2 * (Mq * 2 ^ j * (2 ^ k * M2) - M1 * 2 ^ 53)
                = 2 ^ (- E2) * 2 ^ k
                  * (2 ^ j * (2 * (Mq * g - w * 2 ^ a)))).
  { rewrite HV1, HV2.
    replace (w * 2 ^ (- E1) * 2 ^ 53) with (w * (2 ^ (- E1) * 2 ^ 53))
      by ring.
    rewrite Hs1. ring. }
  rewrite Heq in HD.
  replace (2 ^ k * M2) with (2 ^ (- E2) * 2 ^ k * g) in HD
    by (rewrite HV2; ring).
  apply abs_cancel in HD; [|apply Z.mul_pos_pos; assumption].
  rewrite Z.abs_mul, (Z.abs_eq (2 ^ j)) in HD by lia.
  set (A := Z.abs (2 * (Mq * g - w * 2 ^ a))) in *.
  assert (0 <= A) by apply Z.abs_nonneg.
  clearbody A. clear Heq.
  assert (1 * A <= 2 ^ j * A) by (apply Z.mul_le_mono_nonneg_r; lia).
  lia.
Qed.

(** The error of the product by 100, whose double is [100 * 2^46] at the
    exponent [-46]. *)
Lemma product_scale Mp Mq k j :
  (k = 52 \/ k = 53) -> (j = 0 \/ j = 1) ->
  Z.abs (2 * (Mp * 2 ^ j * 2 ^ k - Mq * 7036874417766400)) <= 2 ^ k ->
  Z.abs (2 * (Mp * 2 ^ (k + j - 46) - 100 * Mq)) <= 2 ^ (k + j - 46).
Proof.
  intros [-> | ->] [-> | ->] HD.
  - change (2 ^ (52 + 0 - 46)) with 64. change (2 ^ 0) with 1 in HD.
    change (2 ^ 52) with 4503599627370496 in HD. lia.
  - change (2 ^ (52 + 1 - 46)) with 128. change (2 ^ 1) with 2 in HD.
    change (2 ^ 52) with 4503599627370496 in HD. lia.
  - change (2 ^ (53 + 0 - 46)) with 128. change (2 ^ 0) with 1 in HD.
    change (2 ^ 53) with 9007199254740992 in HD. lia.
  - change (2 ^ (53 + 1 - 46)) with 256. change (2 ^ 1) with 2 in HD.
    change (2 ^ 53) with 9007199254740992 in HD. lia.
Qed.

(** The two errors together, at the scale [2^b] of the product. *)
Lemma combined_scale w g P Q B C :
  0 < g -> 64 <= C ->
  Z.abs (2 * (Q * g - w * (B * C))) <= g ->
  Z.abs (2 * (P * C - 100 * Q)) <= C ->
  Z.abs (2 * P * g - 200 * w * B) <= 3 * g.
Proof.
  intros Hg HC HD1 HD2.
  assert (H1 : Z.abs (2 * P * C * g - 200 * Q * g) <= C * g).
  { replace (2 * P * C * g - 200 * Q * g)
      with (g * (2 * (P * C - 100 * Q))) by ring.
    rewrite Z.abs_mul, (Z.abs_eq g) by lia.
    rewrite (Z.mul_comm C g). apply Z.mul_le_mono_nonneg_l; lia. }
  assert (H2 : Z.abs (200 * Q * g - 200 * w * B * C) <= 100 * g).
  { replace (200 * Q * g - 200 * w * B * C)
      with (100 * (2 * (Q * g - w * (B * C)))) by ring.
    rewrite Z.abs_mul, (Z.abs_eq 100) by lia.
    apply Z.mul_le_mono_nonneg_l; lia. }
  assert (H3 : C * Z.abs (2 * P * g - 200 * w * B) <= (C + 100) * g).
  { rewrite <- (Z.abs_eq C) at 1 by lia. rewrite <- Z.abs_mul.
    replace (C * (2 * P * g - 200 * w * B))
      with ((2 * P * C * g - 200 * Q * g)
            + (200 * Q * g - 200 * w * B * C)) by ring.
    eapply Z.le_trans; [apply Z.abs_triangle|].
    replace ((C + 100) * g) with (C * g + 100 * g) by ring.
    apply Z.add_le_mono; assumption. }
  apply (scale_bound C); [exact HC|lia|exact H3].
Qed.

(** A normal mantissa that close to [100 * w / g <= 100] has a scale of
    at least [2^46]. *)
Lemma scale_at_least w g P b :
  1 <= w <= g -> 0 <= b -> 2 ^ 52 <= P ->
  Z.abs (2 * P * g - 200 * w * 2 ^ b) <= 3 * g ->
  46 <= b.
Proof.
  intros Hw Hb HP H.
  destruct (Z.leb_spec 46 b) as [|Hlt]; [assumption|exfalso].
  assert (HB : 2 ^ b <= 2 ^ 45) by (apply Z.pow_le_mono_r; lia).
  pose proof (pow2_pos b Hb) as HB0.
  change (2 ^ 45) with 35184372088832 in HB.
  change (2 ^ 52) with 4503599627370496 in HP.
  set (B := 2 ^ b) in *. clearbody B.
  assert (H1 : 2 * P * g - 200 * w * B <= 3 * g) by lia.
  assert (H2 : w * B <= g * 35184372088832).
  { apply Z.mul_le_mono_nonneg; lia. }
  assert (H3 : 4503599627370496 * g <= P * g)
    by (apply Z.mul_le_mono_nonneg_r; lia).
  clear H. lia.
Qed.

(** The double computed for [(w / g) * 100]: a mantissa [Mp] at the scale
    [2^(-b)] within [3 / 2^(b+1)] of the exact value. *)
Lemma winRate_double w g :
  1 <= w <= g -> g < 2 ^ 44 ->
  exists Mp b,
    JS.fmul (JS.fdiv (JS.of_Z w) (JS.of_Z g)) (JS.of_Z 100)
    = S754_finite false Mp (- b)
    /\ 46 <= b
    /\ Z.abs (2 * Z.pos Mp * g - 200 * w * 2 ^ b) <= 3 * g.
Proof.
  intros Hw Hg.
  destruct (of_Z_spec w) as (M1 & E1 & -> & HM1 & HE1 & HV1); [lia|].
  destruct (of_Z_spec g) as (M2 & E2 & -> & HM2 & HE2 & HV2); [lia|].
  change (JS.of_Z 100) with (S754_finite false 7036874417766400 (-46)).
  assert (H12 : E1 <= E2).
  { destruct (Z.leb_spec E1 E2); auto. exfalso.
    assert (2 * 2 ^ (- E1) <= 2 ^ (- E2)).
    { replace (- E2) with (Z.succ (- E1) + (E1 - E2 - 1)) by lia.
      rewrite Z.pow_add_r, Z.pow_succ_r by lia.
      pose proof (pow2_pos (E1 - E2 - 1) ltac:(lia)).
      pose proof (pow2_pos (- E1) ltac:(lia)). nia. }
    pose proof (pow2_pos (- E1) ltac:(lia)). nia. }
  destruct (fdiv_spec M1 E1 M2 E2 HM1 HM2)
    as (Mq & Eq & k1 & j1 & -> & HMq & Hk1 & Hj1 & HEq & HD1); [lia|].
  destruct (fmul_spec Mq Eq 7036874417766400 (-46) HMq)
    as (Mp & Ep & k2 & j2 & -> & HMp & Hk2 & Hj2 & HEp & HD2);
    [simpl; lia|lia|].
  assert (HD1' : Z.abs (2 * (Z.pos Mq * g - w * 2 ^ (- Eq))) <= g).
  { apply (quotient_scale w g (Z.pos M1) (Z.pos M2) (Z.pos Mq) E1 E2 k1 j1);
      try assumption; clear HD1 HD2; lia. }
  pose proof (product_scale (Z.pos Mp) (Z.pos Mq) k2 j2 Hk2 Hj2 HD2) as HD2'.
  clear HD1 HD2.
  assert (Hc : 6 <= k2 + j2 - 46 <= 8) by (clear HD1' HD2'; lia).
  assert (Hb : 0 <= - Ep) by (clear HD1' HD2'; lia).
  assert (Hpa : 2 ^ (- Eq) = 2 ^ (- Ep) * 2 ^ (k2 + j2 - 46)).
  { rewrite <- Z.pow_add_r by lia. f_equal. clear HD1' HD2'. lia. }
  assert (Hpc : 64 <= 2 ^ (k2 + j2 - 46)).
  { change 64 with (2 ^ 6). apply Z.pow_le_mono_r; lia. }
  rewrite Hpa in HD1'.
  assert (Hbound : Z.abs (2 * Z.pos Mp * g - 200 * w * 2 ^ (- Ep))
                   <= 3 * g).
  { apply (combined_scale w g (Z.pos Mp) (Z.pos Mq) (2 ^ (- Ep))
             (2 ^ (k2 + j2 - 46))); try assumption. clear HD1' HD2'. lia. }
  exists Mp, (- Ep). rewrite Z.opp_involutive.
  split; [reflexivity|]. split; [|exact Hbound].
  apply (scale_at_least w g (Z.pos Mp)); try assumption. lia.
Qed.

(** Rounding a value that close to [100 * w / g] gives the exactly
    rounded quotient, or one less when the quotient is a tie. *)
Lemma round_sandwich w g P B :
  1 <= g -> 0 <= w -> 3 * g < B ->
  Z.abs (2 * P * g - 200 * w * B) <= 3 * g ->
  let K := (200 * w + g) / (2 * g) in
  let X := (2 * P + B) / 2 ^ 1 / B in
  K - 1 <= X <= K
  /\ ((200 * w + g) mod (2 * g) <> 0 -> X = K).
Proof.
  intros Hg Hw HB H K X.
  pose proof (Z.div_mod (200 * w + g) (2 * g) ltac:(lia)) as Hdm.
  pose proof (Z.mod_pos_bound (200 * w + g) (2 * g) ltac:(lia)) as Hr.
  fold K in Hdm. set (R := (200 * w + g) mod (2 * g)) in *.
  assert (HX : X = (2 * P + B) / (2 * B)).
  { unfold X. rewrite Z.div_div by lia. reflexivity. }
  assert (Hlo : 2 * P * g - 200 * w * B >= - (3 * g)) by lia.
  assert (Hhi : 2 * P * g - 200 * w * B <= 3 * g) by lia.
  clear H.
  assert (Hw' : 200 * w * B = (2 * g * K + R - g) * B)
    by (rewrite <- Hdm; ring).
  assert (Hgx : g * (2 * P + B) = 2 * P * g - 200 * w * B
                                   + (2 * g * K + R) * B)
    by (rewrite Hw'; ring).
  assert (Hlow : 2 * B * (K - 1) <= 2 * P + B).
  { apply (Z.mul_le_mono_pos_l _ _ g); [lia|].
    rewrite Hgx.
    assert (0 <= R * B) by (apply Z.mul_nonneg_nonneg; lia).
    assert (g * 4 <= g * B) by (apply Z.mul_le_mono_nonneg_l; lia).
    lia. }
  assert (Hupp : 2 * P + B < 2 * B * (K + 1)).
  { apply (Z.mul_lt_mono_pos_l g); [lia|].
    rewrite Hgx.
    assert (R * B <= (2 * g - 1) * B)
      by (apply Z.mul_le_mono_nonneg_r; lia).
    lia. }
  rewrite HX. split.
  - split.
    + apply Z.div_le_lower_bound; lia.
    + assert ((2 * P + B) / (2 * B) < K + 1)
        by (apply Z.div_lt_upper_bound; lia).
      lia.
  - intros HR.
    assert (Hlow' : 2 * B * K <= 2 * P + B).
    { apply (Z.mul_le_mono_pos_l _ _ g); [lia|].
      rewrite Hgx.
      assert (1 * B <= R * B) by (apply Z.mul_le_mono_nonneg_r; lia).
      lia. }
    assert (K <= (2 * P + B) / (2 * B))
      by (apply Z.div_le_lower_bound; lia).
    assert ((2 * P + B) / (2 * B) < K + 1)
      by (apply Z.div_lt_upper_bound; lia).
    lia.
Qed.

Lemma tie_remainder w g :
  1 <= g -> 0 <= w ->
  tie w g = false ->
  (200 * w + g) mod (2 * g) <> 0.
Proof.
  unfold tie. intros Hg Hw Ht Hz. apply Z.eqb_neq in Ht. apply Ht.
  pose proof (Z.div_mod (200 * w + g) (2 * g) ltac:(lia)) as Hdm.
  rewrite Hz, Z.add_0_r in Hdm.
  symmetry. apply Z.mod_unique with ((200 * w + g) / (2 * g) - 1); lia.
Qed.

(** For fewer than [2^44] games the computed win rate is the exactly
    rounded one unless the exact value is a tie, where it may be one
    less. *)
Lemma winRate_of_exact w l :
  0 <= w -> 0 <= l -> 1 <= w + l < 2 ^ 44 ->
  (tie w (w + l) = false ->
   Hook.winRate_of w (w + l) = exactRound w (w + l))
  /\ exactRound w (w + l) - 1 <= Hook.winRate_of w (w + l)
     <= exactRound w (w + l).
Proof.
  intros Hw Hl Hg. unfold exactRound. set (g := w + l) in *.
  unfold Hook.winRate_of.
  replace (g >? 0) with true by (symmetry; apply Z.gtb_lt; lia).
  destruct (Z.eq_dec w 0) as [-> | Hw0].
  - destruct (of_Z_spec g) as (M2 & E2 & -> & _); [lia|].
    change (JS.Math_round _) with 0.
    replace ((200 * 0 + g) / (2 * g)) with 0
      by (symmetry; apply Z.div_small; lia).
    lia.
  - destruct (winRate_double w g) as (Mp & b & -> & Hb & Hbound);
      [lia|lia|].
    unfold JS.Math_round.
    replace (0 <=? - b) with false by (symmetry; apply Z.leb_gt; lia).
    rewrite Z.opp_involutive.
    replace (1 - - b) with (1 + b) by lia.
    rewrite Z.pow_add_r by lia.
    rewrite <- Z.div_div by (try apply pow2_pos; lia).
    assert (HB : 3 * g < 2 ^ b).
    { assert (2 ^ 46 <= 2 ^ b) by (apply Z.pow_le_mono_r; lia).
      change (2 ^ 46) with 70368744177664 in *.
      change (2 ^ 44) with 17592186044416 in *. lia. }
    replace (2 * Z.pos Mp * g) with (2 * Z.pos Mp * g) in Hbound by ring.
    destruct (round_sandwich w g (Z.pos Mp) (2 ^ b)
                ltac:(lia) ltac:(lia) HB Hbound) as [Hrange Heq].
    split; [|exact Hrange].
    intros Ht. apply Heq. apply tie_remainder; [lia|lia|exact Ht].
Qed.

Lemma winLoss_tally gameType ls a :
  winLossGame gameType ->
  winsFor gameType ls a = wins (winLossStats gameType ls a)
  /\ lossesFor gameType ls a = losses (winLossStats gameType ls a)
  /\ scoreFor gameType ls a
     = wins (winLossStats gameType ls a)
       * (if String.eqb gameType "snakeladders" then 150 else 100).
Proof.
  intros [-> | [-> | ->]]; repeat split.
Qed.

(** C8, as amended.  For a win/loss game the entry of a player has
    [gamesPlayed = wins + losses], or, when that sum is zero, the stored
    play counter, or 1 when the counter is absent or zero as well; its
    [winRate] is [Math.round] of the double [(wins / gamesPlayed) * 100],
    which for 1 win and 2 losses is 33 and, for fewer than [2^44] games,
    is [round(100 * wins / gamesPlayed)] unless that quotient is half way
    between two integers, where the double product may fall below the
    half and the rate is then one less. *)
Theorem winloss_entry gameType ls a :
  winLossGame gameType ->
  let s := winLossStats gameType ls a in
  let e := entryFor gameType ls a in
  Types.gamesPlayed e
  = (if wins s + losses s =? 0
     then match JS.get a (table (linera_games_played ls)) with
          | Some n => if n =? 0 then 1 else n
          | None => 1
          end
     else wins s + losses s)
  /\ Types.winRate e = Hook.winRate_of (wins s) (Types.gamesPlayed e)
  /\ (0 <= wins s -> 0 <= losses s ->
      1 <= wins s + losses s < 2 ^ 44 ->
      (tie (wins s) (wins s + losses s) = false ->
       Types.winRate e = exactRound (wins s) (wins s + losses s))
      /\ exactRound (wins s) (wins s + losses s) - 1 <= Types.winRate e
         <= exactRound (wins s) (wins s + losses s))
  /\ (wins s = 1 -> losses s = 2 -> Types.winRate e = 33)
  /\ (forall h c limit e',
        Hook.remote h c = false -> all_readable ls -> players ls <> [] ->
        In e' (Hook.getLeaderboard h c gameType limit ls) ->
        Types.playerAddress e' = a ->
        Types.gamesPlayed e' = Types.gamesPlayed e
        /\ Types.winRate e' = Types.winRate e).
Proof.
  intros Hg s e.
  destruct (winLoss_tally gameType ls a Hg) as (Hw & Hl & _).
  destruct (entryFor_fields gameType ls a) as (_ & _ & _ & Hgp & Hwr).
  fold e in Hgp, Hwr. rewrite Hw, Hl in Hgp. rewrite Hw in Hwr.
  fold s in Hgp, Hwr.
  assert (Hgp' : Types.gamesPlayed e
                 = (if wins s + losses s =? 0
                    then match JS.get a (table (linera_games_played ls)) with
                         | Some n => if n =? 0 then 1 else n
                         | None => 1
                         end
                    else wins s + losses s)).
  { rewrite Hgp. unfold Hook.gamesPlayed_of, JS.or_num, JS.num_or, JS.or_num.
    reflexivity. }
  split; [exact Hgp'|]. split; [exact Hwr|]. split; [|split].
  - intros H0 H1 H2. rewrite Hwr, Hgp'.
    destruct (Z.eqb_spec (wins s + losses s) 0); [lia|].
    apply winRate_of_exact; assumption.
  - intros H1 H2. rewrite Hwr, Hgp', H1, H2. reflexivity.
  - intros h c limit e' Hr Hall Hne He' Ha.
    destruct (result_entry h c gameType limit ls e' Hr Hall Hne He')
      as (r & _ & ->).
    simpl in Ha. simpl. rewrite Ha. auto.
Qed.

Lemma winloss_entry_witness :
  winLossGame "tictactoe"
  /\ Types.winRate (entryFor "tictactoe" oneOfThree (Hook.address alice))
     = 33.
Proof.
  assert (Hg : winLossGame "tictactoe") by (left; reflexivity).
  split; [exact Hg|].
  refine (proj1 (proj2 (proj2 (proj2
            (winloss_entry "tictactoe" oneOfThree (Hook.address alice) Hg))))
            _ _); reflexivity.
Defined.

(** C8 as stated fails twice.  A player with no result and no play
    counter for the game is listed with one game played, not with the
    missing counter; and 23 wins with 17 losses give the rate 57, not
    [round(57.5) = 58]. *)
Lemma winloss_entry_counterexample :
  map (fun e => (Types.playerAddress e, Types.gamesPlayed e))
    (Hook.getLeaderboard demoHook offline "tictactoe" None oneLadderWin)
  = [(Hook.address alice, 1)]
  /\ winsFor "tictactoe" oneLadderWin (Hook.address alice)
     + lossesFor "tictactoe" oneLadderWin (Hook.address alice) = 0
  /\ JS.get (Hook.address alice) (table (linera_games_played oneLadderWin))
     = None
  /\ map (fun e => (Types.gamesPlayed e, Types.winRate e))
       (Hook.getLeaderboard demoHook offline "tictactoe" None
          twentyThreeOfForty)
     = [(40, 57)]
  /\ exactRound 23 40 = 58.
Proof. vm_compute. repeat split. Qed.

(** * Further properties *)

(** ** Play counter and failures of [submitSnakeScore] *)

Lemma num_or_0 (v : option Z) :
  JS.num_or v 0 = match v with Some n => n | None => 0 end.
Proof. destruct v; [apply or_num_0|reflexivity]. Qed.

Lemma submitSnakeScore_counter h c w score ls :
  demo_session h c w ->
  readable (linera_snake_scores ls) ->
  readable (linera_games_played ls) ->
  let r := Hook.submitSnakeScore h c score ls in
  fst r = true
  /\ readable (linera_snake_scores (snd r))
  /\ readable (linera_games_played (snd r))
  /\ playCount (Hook.address w) (snd r) = playCount (Hook.address w) ls + 1
  /\ forall a, a <> Hook.address w -> playCount a (snd r) = playCount a ls.
Proof.
  intros (Hc & Hw & Hr) Hs Hg r. subst r.
  unfold Hook.submitSnakeScore. rewrite Hc, Hw, Hr.
  unfold try_catch, bind, getItem_parse, setItem, ret.
  rewrite (parse_table _ _ Hs).
  assert (Hrd : forall A (v : A), readable (Json v))
    by (unfold readable; congruence).
  unfold playCount.
  destruct (score >? _); cbn [fst snd linera_snake_scores linera_games_played
                              set_snake_scores set_games_played];
    rewrite (parse_table _ _ Hg);
    cbn [fst snd linera_snake_scores linera_games_played
         set_snake_scores set_games_played table];
    (split; [reflexivity|]); (split; [auto|]); (split; [auto|]);
    (split; [rewrite get_set_same; rewrite !num_or_0; lia
            |intros a Ha; rewrite get_set_other by congruence; reflexivity]).
Qed.

(** X1.  In demo mode, on a store whose snake-score and play-counter
    texts parse, every call of [submitSnakeScore] returns [true] and
    raises the play counter of the player by one, whatever the score:
    after a sequence of submissions the counter has grown by the length
    of the sequence, and the counters of the other players are as
    before. *)
Theorem snake_play_counter h c w scores ls :
  demo_session h c w ->
  readable (linera_snake_scores ls) ->
  readable (linera_games_played ls) ->
  playCount (Hook.address w) (submitScores h c scores ls)
  = playCount (Hook.address w) ls + Z.of_nat (List.length scores)
  /\ (forall a, a <> Hook.address w ->
        playCount a (submitScores h c scores ls) = playCount a ls)
  /\ (forall score, fst (Hook.submitSnakeScore h c score ls) = true).
Proof.
  intros Hd Hs Hg. split; [|split].
  - revert ls Hs Hg. induction scores as [|s scores IH]; intros ls Hs Hg.
    + cbn. lia.
    + change (submitScores h c (s :: scores) ls)
        with (submitScores h c scores (snd (Hook.submitSnakeScore h c s ls))).
      destruct (submitSnakeScore_counter h c w s ls Hd Hs Hg)
        as (_ & Hs' & Hg' & Hcount & _).
      rewrite IH by assumption. rewrite Hcount.
      cbn [List.length]. lia.
  - intros a Ha. revert ls Hs Hg.
    induction scores as [|s scores IH]; intros ls Hs Hg; [reflexivity|].
    change (submitScores h c (s :: scores) ls)
      with (submitScores h c scores (snd (Hook.submitSnakeScore h c s ls))).
    destruct (submitSnakeScore_counter h c w s ls Hd Hs Hg)
      as (_ & Hs' & Hg' & _ & Hother).
    rewrite IH by assumption. apply Hother, Ha.
  - intros score.
    apply (submitSnakeScore_counter h c w score ls Hd Hs Hg).
Qed.

Lemma snake_play_counter_witness :
  demo_session demoHook offline alice
  /\ playCount (Hook.address alice)
       (submitScores demoHook offline [10; 7; 25] sampleStore) = 7 + 3.
Proof.
  assert (Hd : demo_session demoHook offline alice)
    by (repeat split; reflexivity).
  split; [exact Hd|].
  refine (proj1 (snake_play_counter demoHook offline alice [10; 7; 25]
                   sampleStore Hd _ _)); unfold readable; discriminate.
Defined.

(** X2.  A failed [submitSnakeScore] is not always without effect.  When
    the snake-score text does not parse the call returns [false] and
    leaves the store as it was; when only the play-counter text does not
    parse the call returns [false] as well, but the high score has been
    written by then: it is the maximum of the old one and the score. *)
Theorem snake_score_failure h c w score ls :
  demo_session h c w ->
  (linera_snake_scores ls = Corrupt ->
   Hook.submitSnakeScore h c score ls = (false, ls))
  /\ (readable (linera_snake_scores ls) ->
      linera_games_played ls = Corrupt ->
      let r := Hook.submitSnakeScore h c score ls in
      fst r = false
      /\ storedHigh (Hook.address w) (snd r)
         = Z.max (storedHigh (Hook.address w) ls) score
      /\ linera_games_played (snd r) = Corrupt).
Proof.
  intros Hd. split.
  - destruct Hd as (Hc & Hw & Hr). intros Es.
    unfold Hook.submitSnakeScore. rewrite Hc, Hw, Hr.
    unfold try_catch, bind, getItem_parse. rewrite Es. reflexivity.
  - intros Hs Eg r. subst r.
    split; [|split].
    + destruct Hd as (Hc & Hw & Hr).
      unfold Hook.submitSnakeScore. rewrite Hc, Hw, Hr.
      unfold try_catch, bind, getItem_parse, setItem, ret.
      rewrite (parse_table _ _ Hs).
      destruct (score >? _);
        cbn [fst snd linera_games_played set_snake_scores];
        rewrite Eg; reflexivity.
    + apply (submitSnakeScore_high h c w score ls Hd Hs).
    + destruct Hd as (Hc & Hw & Hr).
      unfold Hook.submitSnakeScore. rewrite Hc, Hw, Hr.
      unfold try_catch, bind, getItem_parse, setItem, ret.
      rewrite (parse_table _ _ Hs).
      destruct (score >? _);
        cbn [fst snd linera_games_played set_snake_scores];
        rewrite Eg; cbn; try rewrite Eg; reflexivity.
Qed.

Lemma snake_score_failure_witness :
  demo_session demoHook offline alice
  /\ fst (Hook.submitSnakeScore demoHook offline 25 brokenCounter) = false
  /\ storedHigh (Hook.address alice)
       (snd (Hook.submitSnakeScore demoHook offline 25 brokenCounter))
     = Z.max (storedHigh (Hook.address alice) brokenCounter) 25.
Proof.
  assert (Hd : demo_session demoHook offline alice)
    by (repeat split; reflexivity).
  split; [exact Hd|].
  pose (H := proj2 (snake_score_failure demoHook offline alice 25
                      brokenCounter Hd)).
  refine ((fun X => conj (proj1 X) (proj1 (proj2 X))) (H _ _)).
  - unfold readable; discriminate.
  - reflexivity.
Defined.

(** ** Operations of one player and the records of the others *)

Lemma same_state_refl (A : Type) (s : Slot A) : same_state s s.
Proof. unfold same_state. tauto. Qed.

Lemma same_state_Json (A : Type) (s : Slot A) (v : A) :
  s <> Corrupt -> same_state s (Json v).
Proof. unfold same_state. split; intros; congruence. Qed.

Lemma same_shape_refl ls : same_shape ls ls.
Proof. repeat split; auto. Qed.

Lemma same_shape_readable ls ls' :
  same_shape ls ls' -> (all_readable ls <-> all_readable ls').
Proof.
  unfold same_shape, all_readable, readable, same_state.
  intros (H1 & H2 & H3 & H4 & H5 & H6). tauto.
Qed.

Lemma perform_others h c w op ls a :
  demo_session h c w -> a <> Hook.address w ->
  let ls' := snd (perform h c op ls) in
  same_shape ls ls'
  /\ recordsOf a ls' = recordsOf a ls
  /\ linera_rooms ls' = linera_rooms ls.
Proof.
  intros (Hc & Hw & Hr) Ha ls'. subst ls'.
  assert (Hj : forall A (s : Slot A) v, s <> Corrupt -> same_state s (Json v))
    by (intros; now apply same_state_Json).
  assert (Hk : Hook.address w <> a) by congruence.
  unfold same_shape, recordsOf.
  destruct op; cbn [perform];
    [unfold Hook.submitSnakeScore
    |unfold Hook.submitTicTacToeResult
    |unfold Hook.submitSnakeLaddersResult
    |unfold Hook.submitUnoResult
    |unfold Hook.updateProfile];
    rewrite Hc, Hw, Hr;
    unfold try_catch, bind, getItem_parse, setItem, ret.
  - destruct (linera_snake_scores ls) as [| |o] eqn:Es; cbn [parse_or].
    + destruct (score >? _);
        cbn [fst snd linera_games_played set_snake_scores];
        destruct (linera_games_played ls) as [| |g] eqn:Eg; cbn [parse_or];
        cbn; rewrite ?Es, ?Eg; cbn;
        rewrite ?(eqb_neq _ _ Hk), ?(get_set_other _ _ _ _ _ Hk);
        repeat split; auto using same_state_refl; try congruence.
    + cbn. rewrite Es. repeat split; auto using same_state_refl.
    + destruct (score >? _);
        cbn [fst snd linera_games_played set_snake_scores];
        destruct (linera_games_played ls) as [| |g] eqn:Eg; cbn [parse_or];
        cbn; rewrite ?Es, ?Eg; cbn;
        rewrite ?(eqb_neq _ _ Hk), ?(get_set_other _ _ _ _ _ Hk);
        repeat split; auto using same_state_refl; try congruence.
  - destruct (linera_tictactoe_stats ls) as [| |o] eqn:Es; cbn [parse_or];
      cbn; rewrite ?Es; cbn;
      rewrite ?(eqb_neq _ _ Hk), ?(get_set_other _ _ _ _ _ Hk);
      repeat split; auto using same_state_refl; try congruence.
  - destruct (linera_snakeladders_stats ls) as [| |o] eqn:Es; cbn [parse_or];
      cbn; rewrite ?Es; cbn;
      rewrite ?(eqb_neq _ _ Hk), ?(get_set_other _ _ _ _ _ Hk);
      repeat split; auto using same_state_refl; try congruence.
  - destruct (linera_uno_stats ls) as [| |o] eqn:Es; cbn [parse_or];
      cbn; rewrite ?Es; cbn;
      rewrite ?(eqb_neq _ _ Hk), ?(get_set_other _ _ _ _ _ Hk);
      repeat split; auto using same_state_refl; try congruence.
  - destruct (linera_profiles ls) as [| |o] eqn:Es; cbn [parse_or];
      cbn; rewrite ?Es; cbn;
      rewrite ?(eqb_neq _ _ Hk), ?(get_set_other _ _ _ _ _ Hk);
      repeat split; auto using same_state_refl; try congruence.
Qed.

Lemma readable_dec (A : Type) (s : Slot A) : readable s \/ ~ readable s.
Proof. unfold readable. destruct s; [left|right|left]; congruence. Qed.

Lemma all_readable_dec ls : all_readable ls \/ ~ all_readable ls.
Proof.
  unfold all_readable.
  destruct (readable_dec _ (linera_snake_scores ls));
    destruct (readable_dec _ (linera_tictactoe_stats ls));
    destruct (readable_dec _ (linera_snakeladders_stats ls));
    destruct (readable_dec _ (linera_uno_stats ls));
    destruct (readable_dec _ (linera_profiles ls));
    destruct (readable_dec _ (linera_games_played ls)); tauto.
Qed.

Lemma getUserProfile_unreadable h c address ls :
  Hook.remote h c = false ->
  ~ all_readable ls ->
  Hook.getUserProfile h c address ls = None.
Proof.
  intros Hr Hn. unfold Hook.getUserProfile.
  destruct (Hook.targetAddress_of h address); [reflexivity|].
  rewrite Hr.
  unfold try_catch, bind, getItem_parse, ret.
  unfold all_readable, readable in Hn.
  destruct (linera_profiles ls); simpl; auto;
    destruct (linera_snake_scores ls); simpl; auto;
    destruct (linera_tictactoe_stats ls); simpl; auto;
    destruct (linera_snakeladders_stats ls); simpl; auto;
    destruct (linera_uno_stats ls); simpl; auto;
    destruct (linera_games_played ls); simpl; auto;
    exfalso; apply Hn; repeat split; discriminate.
Qed.

(** The profile depends on the store through the texts that parse and
    the records of the player only. *)
Lemma getUserProfile_congr h c address ls ls' :
  Hook.remote h c = false ->
  same_shape ls ls' ->
  recordsOf (Hook.targetAddress_of h address) ls'
  = recordsOf (Hook.targetAddress_of h address) ls ->
  Hook.getUserProfile h c address ls' = Hook.getUserProfile h c address ls.
Proof.
  intros Hr Hs Hrec.
  destruct (all_readable_dec ls) as [Ha | Hn].
  - pose proof (proj1 (same_shape_readable _ _ Hs) Ha) as Ha'.
    unfold Hook.getUserProfile.
    destruct (Hook.targetAddress_of h address) as [|ch t] eqn:Et;
      [reflexivity|].
    rewrite Hr.
    destruct Ha as (H1 & H2 & H3 & H4 & H5 & H6).
    destruct Ha' as (H1' & H2' & H3' & H4' & H5' & H6').
    unfold try_catch, bind, getItem_parse, ret.
    rewrite !parse_table by assumption.
    unfold recordsOf in Hrec. injection Hrec as -> -> -> -> -> ->.
    reflexivity.
  - rewrite (getUserProfile_unreadable h c address ls Hr Hn).
    apply getUserProfile_unreadable; [exact Hr|].
    intros Ha'. apply Hn. apply (same_shape_readable _ _ Hs). exact Ha'.
Qed.

Lemma entryFor_congr gameType ls ls' a :
  recordsOf a ls' = recordsOf a ls ->
  entryFor gameType ls' a = entryFor gameType ls a.
Proof.
  unfold recordsOf. intros Hrec. injection Hrec as H1 H2 H3 H4 H5 H6.
  unfold entryFor, Hook.entry_of. rewrite H1, H2, H3, H4, H5, H6.
  reflexivity.
Qed.

Lemma str_or_Some (a d : string) : a <> "" -> JS.str_or (Some a) d = a.
Proof. destruct a; [congruence|reflexivity]. Qed.

Lemma with_rank_0 gameType ls a r :
  Types.with_rank 0 (Types.with_rank r (entryFor gameType ls a))
  = entryFor gameType ls a.
Proof.
  destruct (entryFor_fields gameType ls a) as (H0 & _). cbv zeta in H0.
  destruct (entryFor gameType ls a). cbn in *. now subst.
Qed.

(** X3.  In demo mode an operation of one player changes nothing of what
    the store holds for another address: its snake high score, its play
    counter, the profile [getUserProfile] returns for it and the
    leaderboard entry computed for it on every board before ranking are
    the same before and after, whether or not the texts of the store
    parse.  Only the rank, which is set after sorting, can change: an
    entry [getLeaderboard] lists under that address after the operation
    is, its rank set aside, the entry computed from the store before
    the operation. *)
Theorem other_players_untouched h c w op ls a :
  demo_session h c w ->
  a <> Hook.address w -> a <> "" ->
  let ls' := snd (perform h c op ls) in
  (forall gameType, entryFor gameType ls' a = entryFor gameType ls a)
  /\ (forall h' c' gameType limit e,
        Hook.remote h' c' = false ->
        all_readable ls' -> players ls' <> [] ->
        In e (Hook.getLeaderboard h' c' gameType limit ls') ->
        Types.playerAddress e = a ->
        Types.with_rank 0 e = entryFor gameType ls a)
  /\ (forall h' c',
        Hook.remote h' c' = false ->
        Hook.getUserProfile h' c' (Some a) ls'
        = Hook.getUserProfile h' c' (Some a) ls)
  /\ storedHigh a ls' = storedHigh a ls
  /\ playCount a ls' = playCount a ls.
Proof.
  intros Hd Ha Hne ls'.
  destruct (perform_others h c w op ls a Hd Ha) as (Hs & Hrec & _).
  fold ls' in Hs, Hrec.
  assert (He : forall gameType,
             entryFor gameType ls' a = entryFor gameType ls a)
    by (intros g; now apply entryFor_congr).
  split; [exact He|]. split; [|split; [|split]].
  - intros h' c' g limit e Hr' Hall Hp Hin Hadr.
    destruct (result_entry h' c' g limit ls' e Hr' Hall Hp Hin)
      as (r & _ & E).
    rewrite E, Hadr, with_rank_0. apply He.
  - intros h' c' Hr'. apply getUserProfile_congr; auto.
    unfold Hook.targetAddress_of. rewrite str_or_Some by exact Hne.
    exact Hrec.
  - unfold recordsOf in Hrec. injection Hrec as H1 _ _ _ _ _.
    unfold storedHigh. now rewrite H1.
  - unfold recordsOf in Hrec. injection Hrec as _ _ _ _ _ H6.
    unfold playCount. now rewrite H6.
Qed.

Lemma other_players_untouched_witness :
  demo_session demoHook offline alice
  /\ Hook.getUserProfile demoHook offline (Some "0xB")
       (snd (perform demoHook offline (SnakeScore 300) threePlayers))
     = Hook.getUserProfile demoHook offline (Some "0xB") threePlayers.
Proof.
  assert (Hd : demo_session demoHook offline alice)
    by (repeat split; reflexivity).
  split; [exact Hd|].
  refine (proj1 (proj2 (proj2 (other_players_untouched demoHook offline alice
                          (SnakeScore 300) threePlayers "0xB" Hd _ _)))
            demoHook offline _);
    [discriminate|discriminate|reflexivity].
Defined.

(** ** Counting results *)

Lemma tally_ops_cons f op ops :
  tally_ops f (op :: ops) = one_if f op + tally_ops f ops.
Proof.
  unfold tally_ops, one_if. cbn [filter].
  destruct (f op); cbn [List.length]; lia.
Qed.

Lemma readable_Json (A : Type) (v : A) : readable (Json v).
Proof. unfold readable. congruence. Qed.

Lemma perform_own h c w op ls :
  demo_session h c w -> all_readable ls ->
  let a := Hook.address w in
  let ls' := snd (perform h c op ls) in
  all_readable ls'
  /\ fst (perform h c op ls) = true
  /\ wins (tttOf a ls') = wins (tttOf a ls) + one_if (tttResult true) op
  /\ losses (tttOf a ls') = losses (tttOf a ls) + one_if (tttResult false) op
  /\ wins (ladderOf a ls')
     = wins (ladderOf a ls) + one_if (ladderResult true) op
  /\ losses (ladderOf a ls')
     = losses (ladderOf a ls) + one_if (ladderResult false) op
  /\ wins (unoOf a ls') = wins (unoOf a ls) + one_if (unoResult true) op
  /\ losses (unoOf a ls') = losses (unoOf a ls) + one_if (unoResult false) op
  /\ playCount a ls' = playCount a ls + one_if isSnakeScore op
  /\ storedHigh a ls'
     = match op with
       | SnakeScore s => Z.max (storedHigh a ls) s
       | _ => storedHigh a ls
       end.
Proof.
  intros Hd (H1 & H2 & H3 & H4 & H5 & H6) a ls'. subst a ls'.
  pose proof Hd as (Hc & Hw & Hr).
  unfold tttOf, ladderOf, unoOf, statsOf, one_if, all_readable,
    Hook.no_stats.
  destruct op as [score|won|won position|won|username avatarId];
    cbn [perform tttResult ladderResult unoResult isSnakeScore].
  - destruct (submitSnakeScore_counter h c w score ls Hd H1 H6)
      as (Ht & Hs' & Hg' & Hcount & _).
    destruct (submitSnakeScore_high h c w score ls Hd H1) as (_ & Hhigh).
    cbv zeta in Hhigh.
    rewrite Hcount, Hhigh, Ht.
    unfold Hook.submitSnakeScore in *. rewrite Hc, Hw, Hr in *.
    unfold try_catch, bind, getItem_parse, setItem, ret in *.
    rewrite (parse_table _ _ H1) in *.
    destruct (score >? _);
      cbn [fst snd linera_games_played set_snake_scores] in *;
      rewrite (parse_table _ _ H6) in *; cbn in *;
      repeat split; auto using readable_Json; lia.
  - unfold Hook.submitTicTacToeResult. rewrite Hc, Hw, Hr.
    unfold try_catch, bind, getItem_parse, setItem, ret.
    rewrite (parse_table _ _ H2).
    cbn [fst snd linera_snake_scores linera_tictactoe_stats
         linera_snakeladders_stats linera_uno_stats linera_profiles
         linera_games_played set_tictactoe_stats table].
    rewrite get_set_same. unfold storedHigh, playCount.
    cbn [linera_snake_scores linera_games_played set_tictactoe_stats].
    destruct won; cbn;
      repeat split; auto using readable_Json; lia.
  - unfold Hook.submitSnakeLaddersResult. rewrite Hc, Hw, Hr.
    unfold try_catch, bind, getItem_parse, setItem, ret.
    rewrite (parse_table _ _ H3).
    cbn [fst snd linera_snake_scores linera_tictactoe_stats
         linera_snakeladders_stats linera_uno_stats linera_profiles
         linera_games_played set_snakeladders_stats table].
    rewrite get_set_same. unfold storedHigh, playCount.
    cbn [linera_snake_scores linera_games_played set_snakeladders_stats].
    assert (Hi : forall p s, wins (Hook.improve p s) = wins s
                             /\ losses (Hook.improve p s) = losses s).
    { intros p s. unfold Hook.improve.
      destruct (bestPosition s); [destruct (p <? z)|]; auto. }
    cbn [JS.obj_or].
    destruct (Hi position
                (Hook.count won
                   (JS.obj_or
                      (JS.get (Hook.address w)
                         (table (linera_snakeladders_stats ls)))
                      {| wins := 0; losses := 0; bestPosition := Some 4 |})))
      as [-> ->].
    destruct (JS.get (Hook.address w) (table (linera_snakeladders_stats ls)));
      destruct won; cbn;
      repeat split; auto using readable_Json; lia.
  - unfold Hook.submitUnoResult. rewrite Hc, Hw, Hr.
    unfold try_catch, bind, getItem_parse, setItem, ret.
    rewrite (parse_table _ _ H4).
    cbn [fst snd linera_snake_scores linera_tictactoe_stats
         linera_snakeladders_stats linera_uno_stats linera_profiles
         linera_games_played set_uno_stats table].
    rewrite get_set_same. unfold storedHigh, playCount.
    cbn [linera_snake_scores linera_games_played set_uno_stats].
    destruct won; cbn;
      repeat split; auto using readable_Json; lia.
  - unfold Hook.updateProfile. rewrite Hc, Hw, Hr.
    unfold try_catch, bind, getItem_parse, setItem, ret.
    rewrite (parse_table _ _ H5).
    cbn [fst snd linera_snake_scores linera_tictactoe_stats
         linera_snakeladders_stats linera_uno_stats linera_profiles
         linera_games_played set_profiles table].
    unfold storedHigh, playCount.
    cbn [linera_snake_scores linera_games_played set_profiles].
    repeat split; auto using readable_Json; lia.
Qed.

Lemma performAll_cons h c op ops ls :
  performAll h c (op :: ops) ls
  = performAll h c ops (snd (perform h c op ls)).
Proof. reflexivity. Qed.

(** X4.  In demo mode, on a store whose texts parse, every operation of a
    sequence succeeds and the results add up, whatever the order in which
    the games are played: the wins and losses of the player at each of
    the three win/loss games grow by the number of results of that game
    and outcome in the sequence, and the play counter grows by the number
    of snake scores only. *)
Theorem results_add_up h c w ops : forall ls,
  demo_session h c w -> all_readable ls ->
  let a := Hook.address w in
  let ls' := performAll h c ops ls in
  all_readable ls'
  /\ wins (tttOf a ls') = wins (tttOf a ls) + tally_ops (tttResult true) ops
  /\ losses (tttOf a ls')
     = losses (tttOf a ls) + tally_ops (tttResult false) ops
  /\ wins (ladderOf a ls')
     = wins (ladderOf a ls) + tally_ops (ladderResult true) ops
  /\ losses (ladderOf a ls')
     = losses (ladderOf a ls) + tally_ops (ladderResult false) ops
  /\ wins (unoOf a ls') = wins (unoOf a ls) + tally_ops (unoResult true) ops
  /\ losses (unoOf a ls')
     = losses (unoOf a ls) + tally_ops (unoResult false) ops
  /\ playCount a ls' = playCount a ls + tally_ops isSnakeScore ops.
Proof.
  induction ops as [|op ops IH]; intros ls Hd Ha a ls'; subst a ls'.
  - unfold performAll, tally_ops. cbn [fold_left filter List.length].
    change (Z.of_nat 0) with 0. rewrite !Z.add_0_r.
    split; [exact Ha|]. repeat split.
  - rewrite performAll_cons, !tally_ops_cons.
    destruct (perform_own h c w op ls Hd Ha)
      as (Ha' & _ & E1 & E2 & E3 & E4 & E5 & E6 & E7 & _).
    destruct (IH _ Hd Ha') as (Hb & F1 & F2 & F3 & F4 & F5 & F6 & F7).
    cbv zeta in *.
    rewrite F1, F2, F3, F4, F5, F6, F7, E1, E2, E3, E4, E5, E6, E7.
    split; [exact Hb|]. repeat split; lia.
Qed.

Lemma results_add_up_witness :
  demo_session demoHook offline alice
  /\ all_readable sampleStore
  /\ wins (tttOf (Hook.address alice)
             (performAll demoHook offline
                [TicTacToe true; Uno false; SnakeScore 5; TicTacToe true]
                sampleStore))
     = 2 + 2.
Proof.
  assert (Hd : demo_session demoHook offline alice)
    by (repeat split; reflexivity).
  assert (Ha : all_readable sampleStore)
    by (repeat split; discriminate).
  split; [exact Hd|]. split; [exact Ha|].
  exact (proj1 (proj2 (results_add_up demoHook offline alice
                         [TicTacToe true; Uno false; SnakeScore 5;
                          TicTacToe true] sampleStore Hd Ha))).
Defined.

(** ** Profile round trip *)

Lemma getUserProfile_readable h c address ls ch t :
  Hook.remote h c = false ->
  all_readable ls ->
  Hook.targetAddress_of h address = String ch t ->
  Hook.getUserProfile h c address ls
  = fst (try_catch
           (Storage.ret
              (Some
                 (let a := String ch t in
                  let profile := JS.get a (table (linera_profiles ls)) in
                  let totalXP :=
                    JS.add (storedHigh a ls)
                      ((wins (tttOf a ls) + wins (ladderOf a ls)
                        + wins (unoOf a ls)) * 50) in
                  {| Types.username :=
                       JS.str_or (option_map Storage.username profile)
                         "Anonymous Player";
                     Types.avatarId :=
                       JS.num_or (option_map Storage.avatarId profile) 0;
                     Types.level := JS.add (JS.floor_div totalXP 500) 1;
                     Types.xp := JS.rem totalXP 500;
                     Types.snakeHighScore := storedHigh a ls;
                     Types.snakeGames := playCount a ls;
                     Types.snakeLaddersWins := wins (ladderOf a ls);
                     Types.snakeLaddersLosses := losses (ladderOf a ls);
                     Types.tictactoeWins := wins (tttOf a ls);
                     Types.tictactoeLosses := losses (tttOf a ls);
                     Types.unoWins := wins (unoOf a ls);
                     Types.unoLosses := losses (unoOf a ls) |})))
           None ls).
Proof.
  intros Hr (H1 & H2 & H3 & H4 & H5 & H6) Et.
  unfold Hook.getUserProfile. rewrite Et, Hr.
  unfold try_catch, bind, getItem_parse, ret.
  rewrite !parse_table by assumption.
  reflexivity.
Qed.

Lemma target_own h w :
  Hook.wallet h = Some w -> Hook.address w <> "" ->
  Hook.targetAddress_of h None = Hook.address w.
Proof.
  intros Hw Hne. unfold Hook.targetAddress_of. rewrite Hw.
  cbn [JS.str_or]. reflexivity.
Qed.

(** X5.  In demo mode, on a store whose texts parse, [updateProfile]
    followed by [getUserProfile] for the own address returns the name and
    the avatar number just set, except that an empty name reads back as
    ["Anonymous Player"]; every other member of the profile is as
    before.  On every leaderboard the player is then listed under the
    name set, or under the generated name when it is empty, while the
    avatar of the entry does not follow the profile. *)
Theorem profile_round_trip h c w username avatarId ls :
  demo_session h c w -> all_readable ls -> Hook.address w <> "" ->
  let a := Hook.address w in
  let ls' := snd (Hook.updateProfile h c username avatarId ls) in
  exists p,
    Hook.getUserProfile h c None ls = Some p
    /\ Hook.getUserProfile h c None ls'
       = Some {| Types.username :=
                   if String.eqb username "" then "Anonymous Player"
                   else username;
                 Types.avatarId := avatarId;
                 Types.level := Types.level p;
                 Types.xp := Types.xp p;
                 Types.snakeHighScore := Types.snakeHighScore p;
                 Types.snakeGames := Types.snakeGames p;
                 Types.snakeLaddersWins := Types.snakeLaddersWins p;
                 Types.snakeLaddersLosses := Types.snakeLaddersLosses p;
                 Types.tictactoeWins := Types.tictactoeWins p;
                 Types.tictactoeLosses := Types.tictactoeLosses p;
                 Types.unoWins := Types.unoWins p;
                 Types.unoLosses := Types.unoLosses p |}
    /\ forall gameType,
         Types.playerName (entryFor gameType ls' a)
         = (if String.eqb username ""
            then String.append "Player"
                   (JS.dec_string (JS.rem (Hook.hashCode a) 1000))
            else username)
         /\ Types.avatar (entryFor gameType ls' a)
            = Types.avatar (entryFor gameType ls a).
Proof.
  intros Hd Ha Hne a ls'.
  pose proof Hd as (Hc & Hw & Hr).
  destruct (perform_own h c w (SetProfile username avatarId) ls Hd Ha)
    as (Ha' & _ & E1 & E2 & E3 & E4 & E5 & E6 & E7 & E8).
  cbn [perform] in Ha', E1, E2, E3, E4, E5, E6, E7, E8.
  fold ls' a in Ha', E1, E2, E3, E4, E5, E6, E7, E8.
  unfold one_if in *.
  cbn [tttResult ladderResult unoResult isSnakeScore] in *.
  rewrite Z.add_0_r in *.
  assert (Et : Hook.targetAddress_of h None = a)
    by (apply target_own; assumption).
  assert (Ea : a = Hook.address w) by reflexivity.
  clearbody a.
  destruct a as [|ch t]; [congruence|].
  assert (Hp : JS.get (String ch t) (table (linera_profiles ls'))
               = Some {| Storage.username := username;
                         Storage.avatarId := avatarId |}).
  { subst ls'. unfold Hook.updateProfile. rewrite Hc, Hw, Hr.
    unfold try_catch, bind, getItem_parse, setItem, ret.
    destruct Ha as (_ & _ & _ & _ & H5 & _).
    rewrite (parse_table _ _ H5). cbn [fst snd linera_profiles set_profiles
                                        table].
    rewrite <- Ea. apply get_set_same. }
  eexists. split.
  - rewrite (getUserProfile_readable h c None ls ch t Hr Ha Et).
    reflexivity.
  - split.
    + rewrite (getUserProfile_readable h c None ls' ch t Hr Ha' Et).
      cbn [fst try_catch Storage.ret].
      cbv zeta. rewrite Hp, E1, E2, E3, E4, E5, E6, E7, E8.
      cbn [option_map Storage.username Storage.avatarId JS.num_or
           Types.level Types.xp Types.snakeHighScore Types.snakeGames
           Types.snakeLaddersWins Types.snakeLaddersLosses
           Types.tictactoeWins Types.tictactoeLosses Types.unoWins
           Types.unoLosses].
      rewrite or_num_0.
      destruct username; reflexivity.
    + intros g. unfold entryFor, Hook.entry_of. rewrite Hp.
      cbn [option_map Storage.username].
      destruct (Hook.tally _ _ _ _ _) as [[? ?] ?].
      destruct (Hook.tally _ _ _ _ _) as [[? ?] ?].
      cbn [Types.playerName Types.avatar].
      split; [destruct username; reflexivity|reflexivity].
Qed.

Lemma profile_round_trip_witness :
  demo_session demoHook offline alice
  /\ all_readable sampleStore
  /\ exists p,
       Hook.getUserProfile demoHook offline None
         (snd (Hook.updateProfile demoHook offline "Ada" 3 sampleStore))
       = Some p
       /\ Types.username p = "Ada" /\ Types.avatarId p = 3
       /\ Types.level p = 1 /\ Types.xp p = 270.
Proof.
  assert (Hd : demo_session demoHook offline alice)
    by (repeat split; reflexivity).
  assert (Ha : all_readable sampleStore)
    by (repeat split; discriminate).
  split; [exact Hd|]. split; [exact Ha|].
  destruct (profile_round_trip demoHook offline alice "Ada" 3 sampleStore
              Hd Ha ltac:(discriminate)) as (p & Hp & Hp' & _).
  eexists. split; [exact Hp'|].
  injection Hp as <-. repeat split.
Defined.

(** ** Views of the snake high score *)

Lemma getSnakeHighScore_demo h c address ls ch t :
  Hook.remote h c = false ->
  Hook.targetAddress_of h address = String ch t ->
  Hook.getSnakeHighScore h c address ls
  = match linera_snake_scores ls with
    | Corrupt => 0
    | _ => storedHigh (String ch t) ls
    end.
Proof.
  intros Hr Et. unfold Hook.getSnakeHighScore. rewrite Et, Hr.
  unfold try_catch, bind, getItem_parse, ret, storedHigh.
  destruct (linera_snake_scores ls); reflexivity.
Qed.

(** X6.  In demo mode the three views of a snake high score agree: what
    [getSnakeHighScore] returns for a player is the [snakeHighScore] of
    the profile [getUserProfile] returns, when it returns one, and, when
    the score text parses, the score of the player's entry on the snake
    board; it is [0] when the score text does not parse.  After a
    [submitSnakeScore] on a store whose score text parses the own high
    score reads as the maximum of the score and the value read before;
    when the score text does not parse the submission returns [false],
    writes nothing and the reading stays [0]. *)
Theorem snake_high_score_views h c address ls :
  Hook.remote h c = false ->
  let t := Hook.targetAddress_of h address in
  (forall p,
      Hook.getUserProfile h c address ls = Some p ->
      Types.snakeHighScore p = Hook.getSnakeHighScore h c address ls)
  /\ (t <> "" -> readable (linera_snake_scores ls) ->
      Hook.getSnakeHighScore h c address ls
      = Types.score (entryFor "snake" ls t))
  /\ (linera_snake_scores ls = Corrupt ->
      Hook.getSnakeHighScore h c address ls = 0)
  /\ (forall w score,
        demo_session h c w -> Hook.address w <> "" ->
        readable (linera_snake_scores ls) ->
        Hook.getSnakeHighScore h c None
          (snd (Hook.submitSnakeScore h c score ls))
        = Z.max (Hook.getSnakeHighScore h c None ls) score)
  /\ (forall w score,
        demo_session h c w ->
        linera_snake_scores ls = Corrupt ->
        Hook.submitSnakeScore h c score ls = (false, ls)
        /\ Hook.getSnakeHighScore h c None
             (snd (Hook.submitSnakeScore h c score ls)) = 0).
Proof.
  intros Hr t. split; [|split; [|split; [|split]]].
  - intros p Hp.
    destruct (all_readable_dec ls) as [Ha | Hn];
      [|rewrite (getUserProfile_unreadable h c address ls Hr Hn) in Hp;
        discriminate].
    destruct t as [|ch s] eqn:Et.
    + unfold Hook.getUserProfile in Hp. fold t in Hp. rewrite Et in Hp.
      discriminate.
    + rewrite (getUserProfile_readable h c address ls ch s Hr Ha Et) in Hp.
      cbn in Hp. injection Hp as <-. cbn [Types.snakeHighScore].
      rewrite (getSnakeHighScore_demo h c address ls ch s Hr Et).
      destruct Ha as (H1 & _). unfold readable in H1.
      destruct (linera_snake_scores ls); congruence.
  - intros Hne Hs. destruct t as [|ch s] eqn:Et; [congruence|].
    rewrite (getSnakeHighScore_demo h c address ls ch s Hr Et).
    unfold readable in Hs.
    destruct (linera_snake_scores ls) eqn:Es; try congruence; reflexivity.
  - intros Es. unfold Hook.getSnakeHighScore. fold t.
    destruct t; [reflexivity|]. rewrite Hr.
    unfold try_catch, bind, getItem_parse. rewrite Es. reflexivity.
  - intros w score Hd Hne Hs. pose proof Hd as (_ & Hw & _).
    pose proof (target_own h w Hw Hne) as Et.
    destruct (Hook.address w) as [|ch s] eqn:Ea; [congruence|].
    destruct (submitSnakeScore_high h c w score ls Hd Hs) as (Hs' & Hmax).
    cbv zeta in Hmax, Hs'. rewrite Ea in Hmax.
    rewrite !(getSnakeHighScore_demo h c None _ ch s Hr Et).
    unfold readable in Hs, Hs'.
    destruct (linera_snake_scores ls); try congruence;
      destruct (linera_snake_scores (snd _)); try congruence.
  - intros w score (Hc & Hw & _) Es.
    assert (E : Hook.submitSnakeScore h c score ls = (false, ls)).
    { unfold Hook.submitSnakeScore. rewrite Hc, Hw, Hr.
      unfold try_catch, bind, getItem_parse. rewrite Es. reflexivity. }
    split; [exact E|]. rewrite E. cbn [snd].
    unfold Hook.getSnakeHighScore.
    destruct (Hook.targetAddress_of h None); [reflexivity|].
    rewrite Hr. unfold try_catch, bind, getItem_parse. rewrite Es.
    reflexivity.
Qed.

Lemma snake_high_score_views_witness :
  Hook.remote demoHook offline = false
  /\ demo_session demoHook offline alice
  /\ Hook.getSnakeHighScore demoHook offline None
       (snd (Hook.submitSnakeScore demoHook offline 300 sampleStore))
     = Z.max (Hook.getSnakeHighScore demoHook offline None sampleStore) 300.
Proof.
  assert (Hd : demo_session demoHook offline alice)
    by (repeat split; reflexivity).
  split; [reflexivity|]. split; [exact Hd|].
  refine (proj1 (proj2 (proj2 (proj2
            (snake_high_score_views demoHook offline None sampleStore
               eq_refl)))) alice 300 Hd _ _);
    unfold readable; discriminate.
Defined.

(** ** Avatars and ranks of the entries *)

Lemma to_int32_range z : - 2 ^ 31 <= JS.to_int32 z < 2 ^ 31.
Proof.
  unfold JS.to_int32.
  pose proof (Z.mod_pos_bound (z + 2 ^ 31) (2 ^ 32) ltac:(lia)). lia.
Qed.

Lemma hashCode_range s : 0 <= Hook.hashCode s <= 2 ^ 31.
Proof.
  unfold Hook.hashCode.
  assert (H : forall l acc, - 2 ^ 31 <= acc < 2 ^ 31 ->
            - 2 ^ 31
            <= fold_left
                 (fun hash char =>
                    JS.to_int32 (JS.to_int32 (hash * 2 ^ 5) - hash + char))
                 l acc < 2 ^ 31).
  { induction l as [|x l IH]; intros acc Hacc; [exact Hacc|].
    cbn [fold_left]. apply IH. apply to_int32_range. }
  specialize (H (JS.charCodes s) 0 ltac:(lia)). lia.
Qed.

Lemma demo_entry gameType limit e :
  In e (Hook.generateDemoLeaderboard gameType limit) ->
  exists p r, In p Hook.demoPlayers
    /\ Types.avatar e = Hook.demo_avatar p
    /\ Types.score e = Hook.demo_score p
    /\ Types.gamesPlayed e = Hook.games p
    /\ Types.winRate e = Hook.demo_winRate p
    /\ Types.rank e = r.
Proof.
  unfold Hook.generateDemoLeaderboard. intros He.
  apply mapi_from_In in He. destruct He as (p & r & Hp & ->).
  apply slice0_In in Hp. exists p, r. repeat split; auto.
Qed.

Lemma getLeaderboard_cases h c gameType limit ls :
  Hook.remote h c = false ->
  Hook.getLeaderboard h c gameType limit ls
  = Hook.generateDemoLeaderboard gameType (JS.obj_or limit Hook.DEFAULT_LIMIT)
  \/ (all_readable ls /\ players ls <> []
      /\ Hook.getLeaderboard h c gameType limit ls
         = JS.slice0 (board gameType ls)
             (JS.obj_or limit Hook.DEFAULT_LIMIT)).
Proof.
  intros Hr. destruct (all_readable_dec ls) as [Ha | Hn].
  - rewrite (getLeaderboard_demo h c gameType limit ls Hr Ha).
    rewrite board_length.
    destruct (players ls) eqn:Ep; [left; reflexivity|].
    right. split; [exact Ha|]. split; [congruence|reflexivity].
  - left. now apply getLeaderboard_unreadable.
Qed.

(** X7.  Whatever the store holds and whatever the limit, in demo mode
    every entry [getLeaderboard] returns has as rank its position counted
    from 1 and an avatar that is a position of the [AVATARS] table; the
    hash the avatar is taken from lies between [0] and [2^31]
    inclusive. *)
Theorem leaderboard_entries_well_formed h c gameType limit ls :
  Hook.remote h c = false ->
  let result := Hook.getLeaderboard h c gameType limit ls in
  (forall i e, nth_error result i = Some e ->
     Types.rank e = Z.of_nat i + 1
     /\ 0 <= Types.avatar e < Hook.AVATARS_length)
  /\ forall s, 0 <= Hook.hashCode s <= 2 ^ 31.
Proof.
  intros Hr result. split; [|apply hashCode_range].
  intros i e Hi. subst result.
  destruct (getLeaderboard_cases h c gameType limit ls Hr)
    as [E | (Ha & Hne & E)]; rewrite E in Hi.
  - split.
    + unfold Hook.generateDemoLeaderboard in Hi.
      apply mapi_from_nth_error in Hi. destruct Hi as (p & _ & ->).
      cbn [Types.rank]. lia.
    + apply nth_error_In in Hi. apply demo_entry in Hi.
      destruct Hi as (p & r & Hp & -> & _).
      unfold Hook.AVATARS_length.
      cbn in Hp.
      repeat (destruct Hp as [<- | Hp]; [cbn; lia|]). destruct Hp.
  - apply slice0_nth_error in Hi. split.
    + unfold board, Hook.ranked in Hi.
      apply mapi_from_nth_error in Hi. destruct Hi as (x & _ & ->).
      cbn [Types.rank Types.with_rank]. lia.
    + apply nth_error_In in Hi. apply board_In in Hi.
      destruct Hi as (a & r & _ & ->).
      unfold entryFor, Hook.entry_of.
      destruct (Hook.tally _ _ _ _ _) as [[? ?] ?].
      cbn [Types.avatar Types.with_rank]. unfold JS.rem, Hook.AVATARS_length.
      pose proof (hashCode_range a).
      apply Z.rem_bound_pos; lia.
Qed.

Lemma leaderboard_entries_well_formed_witness :
  Hook.remote demoHook offline = false
  /\ forall i e,
       nth_error (Hook.getLeaderboard demoHook offline "uno" (Some 3)
                    brokenCounter) i = Some e ->
       Types.rank e = Z.of_nat i + 1
       /\ 0 <= Types.avatar e < Hook.AVATARS_length.
Proof.
  split; [reflexivity|].
  exact (proj1 (leaderboard_entries_well_formed demoHook offline "uno"
                  (Some 3) brokenCounter eq_refl)).
Defined.

(** ** Who is on the board *)

Lemma keys_get (V : Type) (k : string) (o : JS.Obj V) :
  In k (JS.keys o) <-> JS.get k o <> None.
Proof.
  unfold JS.keys. induction o as [|[k' v] o IH]; cbn [map JS.get In fst].
  - split; [tauto|congruence].
  - destruct (String.eqb_spec k' k) as [-> | Hne].
    + split; [congruence|auto].
    + rewrite IH. split; [intros [?|?]; [congruence|auto]|auto].
Qed.

Lemma players_spec ls a :
  In a (players ls) <->
  JS.get a (table (linera_snake_scores ls)) <> None
  \/ JS.get a (table (linera_tictactoe_stats ls)) <> None
  \/ JS.get a (table (linera_snakeladders_stats ls)) <> None
  \/ JS.get a (table (linera_uno_stats ls)) <> None.
Proof.
  unfold players, Hook.allPlayers_of, JS.set_of.
  destruct (dedup_acc_spec
              (JS.keys (table (linera_snake_scores ls))
               ++ JS.keys (table (linera_tictactoe_stats ls))
               ++ JS.keys (table (linera_snakeladders_stats ls))
               ++ JS.keys (table (linera_uno_stats ls))) []) as (_ & H).
  rewrite H. rewrite !in_app_iff, !keys_get. cbn [In]. tauto.
Qed.

Lemma mapi_from_In_conv (A B : Type) (f : A -> Z -> B) (l : list A) x :
  forall i, In x l -> exists r, In (f x r) (Hook.mapi_from f i l).
Proof.
  induction l as [|y l IH]; intros i Hx; [destruct Hx|].
  cbn [Hook.mapi_from]. destruct Hx as [-> | Hx].
  - exists (i + 1). now left.
  - destruct (IH (i + 1) Hx) as (r & Hr). exists r. now right.
Qed.

Lemma slice0_all (A : Type) (l : list A) (e : Z) :
  Z.of_nat (List.length l) <= e -> JS.slice0 l e = l.
Proof.
  intros He. unfold JS.slice0.
  destruct (Z.ltb_spec e 0); [lia|].
  rewrite Z.min_r by lia. rewrite Nat2Z.id. apply firstn_all.
Qed.

(** X8.  In demo mode, on a store whose texts parse and that knows at
    least one player, when the limit is not below the number of players
    an address has an entry on a board exactly when it has a snake score
    or a statistics object of one of the three win/loss games: a player
    who only set a profile, or only has a play counter, is not listed. *)
Theorem leaderboard_members h c gameType limit ls a :
  Hook.remote h c = false ->
  all_readable ls ->
  players ls <> [] ->
  Z.of_nat (List.length (players ls)) <= JS.obj_or limit Hook.DEFAULT_LIMIT ->
  (exists e, In e (Hook.getLeaderboard h c gameType limit ls)
             /\ Types.playerAddress e = a)
  <-> (JS.get a (table (linera_snake_scores ls)) <> None
       \/ JS.get a (table (linera_tictactoe_stats ls)) <> None
       \/ JS.get a (table (linera_snakeladders_stats ls)) <> None
       \/ JS.get a (table (linera_uno_stats ls)) <> None).
Proof.
  intros Hr Ha Hne Hl. rewrite <- players_spec.
  rewrite (getLeaderboard_demo h c gameType limit ls Hr Ha).
  rewrite board_length.
  destruct (Z.eqb_spec (Z.of_nat (List.length (players ls))) 0) as [E|_].
  { destruct (players ls); [congruence|discriminate]. }
  rewrite slice0_all by (rewrite board_length; exact Hl).
  split.
  - intros (e & He & <-). apply board_In in He.
    destruct He as (b & r & Hb & ->).
    destruct (entryFor_fields gameType ls b) as (_ & E & _).
    cbn [Types.playerAddress Types.with_rank]. now rewrite E.
  - intros Hin. unfold board, Hook.ranked.
    assert (Hs : In (entryFor gameType ls a)
                   (JS.sort_desc Types.score
                      (map (entryFor gameType ls) (players ls)))).
    { apply sort_desc_In. now apply in_map. }
    destruct (mapi_from_In_conv _ _ (fun e r => Types.with_rank r e) _ _ 0 Hs)
      as (r & Hr').
    eexists. split; [exact Hr'|].
    destruct (entryFor_fields gameType ls a) as (_ & E & _).
    cbn [Types.playerAddress Types.with_rank]. exact E.
Qed.

Lemma leaderboard_members_witness :
  Hook.remote demoHook offline = false
  /\ all_readable threePlayers
  /\ ((exists e,
         In e (Hook.getLeaderboard demoHook offline "uno" None threePlayers)
         /\ Types.playerAddress e = "0xB")
      <-> (JS.get "0xB" (table (linera_snake_scores threePlayers)) <> None
           \/ JS.get "0xB" (table (linera_tictactoe_stats threePlayers))
              <> None
           \/ JS.get "0xB" (table (linera_snakeladders_stats threePlayers))
              <> None
           \/ JS.get "0xB" (table (linera_uno_stats threePlayers)) <> None)).
Proof.
  assert (Ha : all_readable threePlayers) by (repeat split; discriminate).
  split; [reflexivity|]. split; [exact Ha|].
  apply (leaderboard_members demoHook offline "uno" None threePlayers "0xB"
           eq_refl Ha); [discriminate|vm_compute; discriminate].
Defined.

(** ** Stores reached through the operations *)

Lemma winRate_of_bounds w l :
  0 <= w -> 0 <= l -> 1 <= w + l < 2 ^ 44 ->
  0 <= Hook.winRate_of w (w + l) <= 100.
Proof.
  intros Hw Hl Hg.
  destruct (winRate_of_exact w l Hw Hl Hg) as (Hex & Hlo & Hhi).
  assert (Hup : exactRound w (w + l) <= 100).
  { unfold exactRound.
    enough ((200 * w + (w + l)) / (2 * (w + l)) < 101) by lia.
    apply Z.div_lt_upper_bound; lia. }
  split; [|lia].
  destruct (Z.eq_dec w 0) as [-> | Hw0].
  - rewrite Hex.
    + unfold exactRound. apply Z.div_pos; lia.
    + unfold tie. apply Z.eqb_neq. change (200 * 0) with 0.
      rewrite Z.mod_0_l by lia. lia.
  - destruct (winRate_double w (w + l)) as (Mp & b & E & Hb & _);
      [lia|lia|].
    unfold Hook.winRate_of.
    replace (w + l >? 0) with true by (symmetry; apply Z.gtb_lt; lia).
    rewrite E. unfold JS.Math_round.
    replace (0 <=? - b) with false by (symmetry; apply Z.leb_gt; lia).
    apply Z.div_pos.
    + pose proof (Z.pow_pos_nonneg 2 (- - b)). lia.
    + apply Z.pow_pos_nonneg; lia.
Qed.

Lemma rate_bounds w l stored :
  0 <= w -> 0 <= l -> w + l < 2 ^ 44 ->
  0 <= JS.num_or stored 0 < 2 ^ 44 ->
  let g := Hook.gamesPlayed_of w l stored in
  1 <= g /\ 0 <= Hook.winRate_of w g <= 100.
Proof.
  intros Hw Hl Hs Hc g. subst g.
  change (Hook.gamesPlayed_of w l stored)
    with (if w + l =? 0 then JS.num_or stored 1 else w + l).
  destruct (Z.eqb_spec (w + l) 0) as [E | E].
  - assert (w = 0) by lia. assert (l = 0) by lia. subst w l.
    assert (Hg : 1 <= JS.num_or stored 1 < 2 ^ 44).
    { rewrite num_or_0 in Hc. unfold JS.num_or, JS.or_num.
      destruct stored as [n|]; [destruct (Z.eqb_spec n 0)|];
        change (2 ^ 44) with 17592186044416 in *; lia. }
    split; [lia|].
    replace (JS.num_or stored 1) with (0 + JS.num_or stored 1) by lia.
    apply winRate_of_bounds; lia.
  - split; [lia|]. apply winRate_of_bounds; lia.
Qed.

Lemma entry_bounds n ls a gameType :
  plausible n ls a -> n < 2 ^ 44 ->
  let e := entryFor gameType ls a in
  1 <= Types.gamesPlayed e
  /\ 0 <= Types.winRate e <= 100
  /\ 0 <= Types.score e.
Proof.
  intros (Hs & H1 & H2 & H3 & H4 & H5 & H6 & H7 & H8) Hn e. subst e.
  destruct (entryFor_fields gameType ls a) as (_ & _ & Esc & Egp & Ewr).
  cbv zeta in Esc, Egp, Ewr. rewrite Ewr, Egp, Esc.
  unfold scoreFor, winsFor, lossesFor, tallyFor.
  fold (tttOf a ls) (ladderOf a ls) (unoOf a ls).
  fold (playCount a ls) in H7.
  assert (Hc : 0 <= JS.num_or (JS.get a (table (linera_games_played ls))) 0
               < 2 ^ 44)
    by (fold (playCount a ls); lia).
  assert (Hq : 0 <= storedHigh a ls / 50 < 2 ^ 44).
  { split; [apply Z.div_pos; lia|].
    apply Z.div_lt_upper_bound; lia. }
  unfold Hook.tally.
  rewrite floor_div_exact by lia.
  rewrite add_exact by lia.
  destruct (String.eqb gameType "snake");
    [|destruct (String.eqb gameType "tictactoe");
      [|destruct (String.eqb gameType "snakeladders");
        [|destruct (String.eqb gameType "uno")]]];
    cbn [fst snd];
    (split; [apply rate_bounds; lia
            |split; [apply rate_bounds; lia|lia]]).
Qed.

Lemma plausible_mono n m ls a : n <= m -> plausible n ls a -> plausible m ls a.
Proof. unfold plausible. intros Hnm H. repeat split; try apply H. lia. Qed.

Lemma plausible_congr n ls ls' a :
  recordsOf a ls' = recordsOf a ls -> plausible n ls a -> plausible n ls' a.
Proof.
  unfold recordsOf. intros Hrec. injection Hrec as R1 R2 R3 R4 R5 R6.
  unfold plausible, storedHigh, tttOf, ladderOf, unoOf, statsOf, playCount.
  rewrite R1, R2, R3, R4, R6. auto.
Qed.

Lemma perform_plausible h c w op ls n a :
  demo_session h c w -> all_readable ls ->
  (forall s, op = SnakeScore s -> s < 50 * 2 ^ 44) ->
  plausible n ls a ->
  plausible (n + 1) (snd (perform h c op ls)) a.
Proof.
  intros Hd Ha Hop Hp.
  destruct (string_dec a (Hook.address w)) as [-> | Hne].
  - destruct (perform_own h c w op ls Hd Ha)
      as (_ & _ & E1 & E2 & E3 & E4 & E5 & E6 & E7 & E8).
    cbv zeta in *.
    destruct Hp as (Hs & H1 & H2 & H3 & H4 & H5 & H6 & H7 & H8).
    unfold plausible. rewrite E1, E2, E3, E4, E5, E6, E7, E8.
    unfold one_if.
    destruct op as [s|[|]|[|] p|[|]|u i];
      cbn [tttResult ladderResult unoResult isSnakeScore Bool.eqb];
      try (pose proof (Hop s eq_refl));
      repeat split; lia.
  - destruct (perform_others h c w op ls a Hd Hne) as (_ & Hrec & _).
    apply (plausible_congr (n + 1) ls _ a Hrec).
    apply (plausible_mono n); [lia|exact Hp].
Qed.

(** Without a connection or without a wallet an operation fails and
    leaves the store as it is. *)
Lemma perform_idle h c op ls :
  Hook.isConnected h = false \/ Hook.wallet h = None ->
  snd (perform h c op ls) = ls.
Proof.
  intros H. destruct op; cbn [perform];
    unfold Hook.submitSnakeScore, Hook.submitTicTacToeResult,
      Hook.submitSnakeLaddersResult, Hook.submitUnoResult,
      Hook.updateProfile;
    destruct H as [-> | ->]; try reflexivity;
    destruct (Hook.isConnected h); reflexivity.
Qed.

(** In demo mode an operation made under any wallet, or under none,
    keeps the texts parsable and the counters plausible. *)
Lemma perform_keeps h c op ls n a :
  Hook.remote h c = false -> all_readable ls ->
  (forall s, op = SnakeScore s -> s < 50 * 2 ^ 44) ->
  plausible n ls a ->
  all_readable (snd (perform h c op ls))
  /\ plausible (n + 1) (snd (perform h c op ls)) a.
Proof.
  intros Hr Ha Hop Hp.
  destruct (Hook.isConnected h) eqn:Ec;
    [destruct (Hook.wallet h) as [w|] eqn:Ew|].
  - assert (Hd : demo_session h c w) by (repeat split; assumption).
    split; [apply (perform_own h c w op ls Hd Ha)|].
    now apply (perform_plausible h c w).
  - rewrite perform_idle by (now right).
    split; [exact Ha|]. apply (plausible_mono n); [lia|exact Hp].
  - rewrite perform_idle by (now left).
    split; [exact Ha|]. apply (plausible_mono n); [lia|exact Hp].
Qed.

Lemma performEach_plausible calls : forall ls n a,
  in_demo_mode calls -> all_readable ls -> modest (map snd calls) ->
  plausible n ls a ->
  all_readable (performEach calls ls)
  /\ plausible (n + Z.of_nat (List.length calls)) (performEach calls ls) a.
Proof.
  induction calls as [|[[h c] op] calls IH]; intros ls n a Hd Ha Hm Hp.
  - cbn. rewrite Z.add_0_r. auto.
  - change (performEach (((h, c), op) :: calls) ls)
      with (performEach calls (snd (perform h c op ls))).
    inversion Hd as [|x l Hr Hd']; subst.
    destruct (perform_keeps h c op ls n a Hr Ha) as (Ha' & Hp');
      [intros s ->; apply Hm; now left|exact Hp|].
    destruct (IH _ _ a Hd' Ha'
                ltac:(intros s Hs; apply Hm; now right) Hp')
      as (Hr' & Hq).
    split; [exact Hr'|].
    replace (n + Z.of_nat (List.length (((h, c), op) :: calls)))
      with (n + 1 + Z.of_nat (List.length calls))
      by (cbn [List.length]; lia).
    exact Hq.
Qed.

Lemma empty_plausible a : plausible 0 Storage.empty a.
Proof. unfold plausible. cbn. repeat split; lia. Qed.

Lemma empty_readable : all_readable Storage.empty.
Proof. repeat split; discriminate. Qed.

(** X9.  Every leaderboard of a store reached in demo mode from the empty
    store through fewer than [2^44] calls of the five recording
    operations, each made in the state the hook then has (the wallet
    changes when the user disconnects and connects again, and a call
    without a wallet fails), with snake scores below [50 * 2^44], is
    plausible: each entry, on every board and for every limit, counts at
    least one game, has a win rate between 0 and 100 and a score that is
    not negative. *)
Theorem reached_leaderboard_bounds calls h c gameType limit e :
  in_demo_mode calls -> Hook.remote h c = false ->
  Z.of_nat (List.length calls) < 2 ^ 44 -> modest (map snd calls) ->
  In e (Hook.getLeaderboard h c gameType limit
          (performEach calls Storage.empty)) ->
  1 <= Types.gamesPlayed e
  /\ 0 <= Types.winRate e <= 100
  /\ 0 <= Types.score e.
Proof.
  intros Hd Hr Hlen Hm He.
  destruct (getLeaderboard_cases h c gameType limit
              (performEach calls Storage.empty) Hr)
    as [E | (Ha & Hne & E)]; rewrite E in He.
  - apply demo_entry in He.
    destruct He as (p & r & Hp & _ & -> & -> & -> & _).
    cbn in Hp.
    repeat (destruct Hp as [<- | Hp]; [cbn; lia|]). destruct Hp.
  - apply slice0_In in He. apply board_In in He.
    destruct He as (a & r & _ & ->).
    destruct (performEach_plausible calls Storage.empty 0 a Hd
                empty_readable Hm (empty_plausible a)) as (_ & Hp).
    destruct (entry_bounds _ _ a gameType Hp ltac:(lia)) as (B1 & B2 & B3).
    cbn [Types.gamesPlayed Types.winRate Types.score Types.with_rank].
    auto.
Qed.

(** X10.  The profile [getUserProfile] returns in demo mode from a store
    reached from the empty store through fewer than [2^44] calls of the
    five recording operations, under any wallets, with snake scores
    below [50 * 2^44], has a level of at least 1 and an [xp] between 0
    and 499 which together give back the total experience:
    [500 * (level - 1) + xp] is the snake high score plus 50 for every
    win; none of its counters is negative. *)
Theorem reached_profile_bounds calls h c address p :
  in_demo_mode calls -> Hook.remote h c = false ->
  Z.of_nat (List.length calls) < 2 ^ 44 -> modest (map snd calls) ->
  Hook.getUserProfile h c address (performEach calls Storage.empty)
  = Some p ->
  1 <= Types.level p
  /\ 0 <= Types.xp p < 500
  /\ 500 * (Types.level p - 1) + Types.xp p
     = Types.snakeHighScore p
       + 50 * (Types.tictactoeWins p + Types.snakeLaddersWins p
               + Types.unoWins p)
  /\ 0 <= Types.snakeHighScore p /\ 0 <= Types.snakeGames p
  /\ 0 <= Types.tictactoeWins p /\ 0 <= Types.tictactoeLosses p
  /\ 0 <= Types.snakeLaddersWins p /\ 0 <= Types.snakeLaddersLosses p
  /\ 0 <= Types.unoWins p /\ 0 <= Types.unoLosses p.
Proof.
  intros Hd Hr Hlen Hm Hp.
  set (ls := performEach calls Storage.empty) in *.
  destruct (Hook.targetAddress_of h address) as [|ch t] eqn:Et.
  { unfold Hook.getUserProfile in Hp. rewrite Et in Hp. discriminate. }
  destruct (performEach_plausible calls Storage.empty 0 (String ch t) Hd
              empty_readable Hm (empty_plausible _)) as (Ha & Hpl).
  fold ls in Ha, Hpl.
  rewrite (getUserProfile_readable h c address ls ch t Hr Ha Et) in Hp.
  cbn [fst try_catch Storage.ret] in Hp. injection Hp as <-.
  destruct Hpl as (Hs & H1 & H2 & H3 & H4 & H5 & H6 & H7 & H8).
  cbn [Types.level Types.xp Types.snakeHighScore Types.snakeGames
       Types.snakeLaddersWins Types.snakeLaddersLosses
       Types.tictactoeWins Types.tictactoeLosses Types.unoWins
       Types.unoLosses].
  unfold JS.rem.
  set (x := storedHigh (String ch t) ls
            + (wins (tttOf (String ch t) ls) + wins (ladderOf (String ch t) ls)
               + wins (unoOf (String ch t) ls)) * 50).
  assert (Hx : 0 <= x < 2 ^ 52) by (subst x; lia).
  rewrite (add_exact (storedHigh (String ch t) ls)) by (fold x; lia).
  fold x.
  rewrite floor_div_exact by lia.
  pose proof (Z.div_pos x 500 ltac:(lia) ltac:(lia)).
  assert (x / 500 < 2 ^ 52) by (apply Z.div_lt_upper_bound; lia).
  rewrite add_exact by lia.
  rewrite Z.rem_mod_nonneg by lia.
  pose proof (Z.mod_pos_bound x 500 ltac:(lia)).
  pose proof (Z.div_mod x 500 ltac:(lia)).
  repeat split; try lia.
Qed.

Lemma reached_leaderboard_bounds_witness :
  in_demo_mode twoWallets
  /\ Hook.remote demoHook offline = false
  /\ Z.of_nat (List.length twoWallets) < 2 ^ 44
  /\ modest (map snd twoWallets)
  /\ exists e,
       In e (Hook.getLeaderboard demoHook offline "tictactoe" None
               (performEach twoWallets Storage.empty))
       /\ 1 <= Types.gamesPlayed e
       /\ 0 <= Types.winRate e <= 100
       /\ 0 <= Types.score e.
Proof.
  assert (Hd : in_demo_mode twoWallets)
    by (repeat constructor).
  assert (Hl : Z.of_nat (List.length twoWallets) < 2 ^ 44) by reflexivity.
  assert (Hm : modest (map snd twoWallets)).
  { intros s [H | [H | [H | [H | []]]]]; inversion H. vm_compute. reflexivity. }
  split; [exact Hd|]. split; [reflexivity|]. split; [exact Hl|].
  split; [exact Hm|].
  assert (He : exists e,
             In e (Hook.getLeaderboard demoHook offline "tictactoe" None
                     (performEach twoWallets Storage.empty))).
  { vm_compute. eexists. left. reflexivity. }
  destruct He as (e & He). exists e. split; [exact He|].
  exact (reached_leaderboard_bounds twoWallets demoHook offline
           "tictactoe" None e Hd eq_refl Hl Hm He).
Defined.

Lemma reached_profile_bounds_witness :
  in_demo_mode twoWallets
  /\ Z.of_nat (List.length twoWallets) < 2 ^ 44
  /\ modest (map snd twoWallets)
  /\ exists p,
       Hook.getUserProfile demoHook offline None
         (performEach twoWallets Storage.empty) = Some p
       /\ 1 <= Types.level p /\ 0 <= Types.xp p < 500.
Proof.
  assert (Hd : in_demo_mode twoWallets)
    by (repeat constructor).
  assert (Hl : Z.of_nat (List.length twoWallets) < 2 ^ 44) by reflexivity.
  assert (Hm : modest (map snd twoWallets)).
  { intros s [H | [H | [H | [H | []]]]]; inversion H. vm_compute. reflexivity. }
  split; [exact Hd|]. split; [exact Hl|]. split; [exact Hm|].
  assert (Hp : exists p,
             Hook.getUserProfile demoHook offline None
               (performEach twoWallets Storage.empty) = Some p).
  { vm_compute. eexists. reflexivity. }
  destruct Hp as (p & Hp). exists p. split; [exact Hp|].
  refine ((fun X => conj (proj1 X) (proj1 (proj2 X)))
            (reached_profile_bounds twoWallets demoHook offline None p
               Hd eq_refl Hl Hm Hp)).
Defined.

(** ** Rooms *)

Lemma createRoom_demo h c w gameType maxPlayers fee random now ls :
  demo_session h c w ->
  readable (linera_rooms ls) -> readable (linera_profiles ls) ->
  Hook.createRoom h c gameType maxPlayers fee random now ls
  = (Some (roomIdOf gameType random),
     set_rooms
       (roomsOf ls
        ++ [ {| Types.id := roomIdOf gameType random;
                Types.game := gameType;
                Types.players := 1;
                Types.maxPlayers := maxPlayers;
                Types.fee := fee;
                Types.host :=
                  JS.str_or
                    (option_map Storage.username
                       (JS.get (Hook.address w) (table (linera_profiles ls))))
                    (JS.str_take 10 (Hook.address w));
                Types.status := Types.waiting;
                Types.chainId := None;
                Types.createdAt := Some now |} ]) ls).
Proof.
  intros (Hc & Hw & Hr) Hro Hp.
  unfold Hook.createRoom. rewrite Hc, Hw, Hr.
  unfold try_catch, bind, getItem_parse, setItem, ret, roomsOf, roomIdOf.
  rewrite (parse_table _ _ Hp).
  unfold readable in Hro.
  destruct (linera_rooms ls); try congruence; reflexivity.
Qed.

Lemma getActiveRooms_demo h c query now ls :
  Hook.remote h c = false ->
  readable (linera_rooms ls) ->
  forall room gameType,
    Types.game room = gameType -> admits query gameType ->
    (In room (Hook.getActiveRooms h c query now ls)
     <-> In room (roomsOf ls) /\ Hook.active now room = true).
Proof.
  intros Hr Hro room gameType Hg Hq.
  unfold Hook.getActiveRooms. rewrite Hr.
  unfold try_catch, bind, getItem_parse, ret, roomsOf.
  assert (E : parse_or (linera_rooms ls) []
              = Ok (match linera_rooms ls with
                    | Json rooms => rooms | _ => [] end)).
  { unfold readable in Hro.
    destruct (linera_rooms ls); [reflexivity|congruence|reflexivity]. }
  rewrite E. clear E.
  destruct Hq as [-> | [-> | [-> | ->]]]; cbn [fst];
    try (cbn; apply filter_In).
  destruct (negb (gameType =? "") && negb (gameType =? "all"))%string;
    cbn [fst]; rewrite ?filter_In.
  - rewrite Hg, String.eqb_refl. tauto.
  - reflexivity.
Qed.

(** X11.  In demo mode, when the room and profile texts parse,
    [createRoom] returns the identifier made of the first three
    characters of the game type in upper case, a dash and the random
    text, and appends to the stored rooms a room with that identifier,
    one player, the status [waiting] and the creation time; its host is
    the profile name of the player or, without one, the first ten
    characters of the address.  [getActiveRooms] lists the room, with no
    filter or with the filter of its game, exactly until one hour after
    the creation. *)
Theorem created_room_is_listed h c w gameType maxPlayers fee random now ls :
  demo_session h c w ->
  readable (linera_rooms ls) -> readable (linera_profiles ls) ->
  let r := Hook.createRoom h c gameType maxPlayers fee random now ls in
  exists room,
    fst r = Some (roomIdOf gameType random)
    /\ roomsOf (snd r) = roomsOf ls ++ [room]
    /\ Types.id room = roomIdOf gameType random
    /\ Types.game room = gameType
    /\ Types.players room = 1
    /\ Types.maxPlayers room = maxPlayers
    /\ Types.fee room = fee
    /\ Types.status room = Types.waiting
    /\ Types.createdAt room = Some now
    /\ Types.host room
       = match JS.get (Hook.address w) (table (linera_profiles ls)) with
         | Some {| Storage.username := String ch name |} => String ch name
         | _ => JS.str_take 10 (Hook.address w)
         end
    /\ forall query now',
         admits query gameType ->
         (In room (Hook.getActiveRooms h c query now' (snd r))
          <-> now' - now < 3600000).
Proof.
  intros Hd Hro Hp r. subst r.
  rewrite (createRoom_demo h c w gameType maxPlayers fee random now ls
             Hd Hro Hp).
  cbn [fst snd]. eexists. split; [reflexivity|].
  split; [reflexivity|].
  cbn [Types.id Types.game Types.players Types.maxPlayers Types.fee
       Types.status Types.createdAt Types.host].
  repeat (split; [reflexivity|]).
  split.
  - destruct (JS.get _ _) as [[[|ch name] ?]|]; reflexivity.
  - intros query now' Hq. destruct Hd as (_ & _ & Hr).
    match goal with
    | |- In ?room (Hook.getActiveRooms _ _ _ _ ?s) <-> _ =>
        rewrite (getActiveRooms_demo h c query now' s Hr
                   (readable_Json _ _) room gameType eq_refl Hq)
    end.
    unfold roomsOf at 1. cbn [linera_rooms set_rooms].
    unfold Hook.active. cbn [Types.createdAt Types.status].
    rewrite andb_true_r, Z.ltb_lt, in_app_iff. cbn [In]. tauto.
Qed.

Lemma created_room_is_listed_witness :
  demo_session demoHook offline alice
  /\ fst (Hook.createRoom demoHook offline "uno" 4 0 "K3P9" 1000
            Storage.empty) = Some "UNO-K3P9".
Proof.
  assert (Hd : demo_session demoHook offline alice)
    by (repeat split; reflexivity).
  split; [exact Hd|].
  destruct (created_room_is_listed demoHook offline alice "uno" 4 0 "K3P9"
              1000 Storage.empty Hd ltac:(discriminate) ltac:(discriminate))
    as (room & E & _).
  exact E.
Defined.

Lemma joinRoom_demo h c w roomId ls :
  demo_session h c w -> readable (linera_rooms ls) ->
  Hook.joinRoom h c roomId ls
  = match Hook.joined roomId (roomsOf ls) with
    | None => (false, ls)
    | Some rooms => (true, set_rooms rooms ls)
    end.
Proof.
  intros (Hc & Hw & Hr) Hro.
  unfold Hook.joinRoom. rewrite Hc, Hw, Hr.
  unfold try_catch, bind, getItem_parse, setItem, ret, roomsOf.
  unfold readable in Hro.
  destruct (linera_rooms ls); try congruence; cbn [parse_or];
    destruct (Hook.joined roomId _); reflexivity.
Qed.





(** ** A room from creation to start *)

Lemma roomOf_app_fresh roomId pre room :
  roomOf roomId pre = None -> Types.id room = roomId ->
  roomOf roomId (pre ++ [room]) = Some room.
Proof.
  unfold roomOf. induction pre as [|r pre IH]; cbn [app find]; intros Hf Hid.
  - rewrite Hid, String.eqb_refl. reflexivity.
  - destruct (String.eqb (Types.id r) roomId); [discriminate|]. now apply IH.
Qed.

Lemma joined_app_fresh roomId pre room :
  roomOf roomId pre = None -> Types.id room = roomId ->
  Hook.joined roomId (pre ++ [room])
  = if Types.players room >=? Types.maxPlayers room then None
    else Some (pre ++ [Hook.enter room]).
Proof.
  unfold roomOf. induction pre as [|r pre IH]; cbn [app find Hook.joined];
    intros Hf Hid.
  - rewrite Hid, String.eqb_refl. reflexivity.
  - destruct (String.eqb (Types.id r) roomId); [discriminate|].
    rewrite (IH Hf Hid). destruct (_ >=? _); reflexivity.
Qed.

Lemma joins_S h c roomId k ls :
  joins h c roomId (S k) ls
  = snd (Hook.joinRoom h c roomId (joins h c roomId k ls)).
Proof. reflexivity. Qed.

(** X13.  In demo mode, a room created under an identifier no stored room
    bears fills up one player per [joinRoom]: after [k] calls it holds
    [min (1 + k) (max 1 maxPlayers)] players, a further call succeeds
    exactly while [1 + k < maxPlayers], and the room is [playing] exactly
    when it admits two players or more and is full.  A room that admits
    one player only is never joined and stays [waiting]. *)
Theorem room_fills_up h c w gameType maxPlayers fee random now ls k :
  demo_session h c w ->
  readable (linera_rooms ls) -> readable (linera_profiles ls) ->
  let roomId := roomIdOf gameType random in
  roomOf roomId (roomsOf ls) = None ->
  let created :=
    snd (Hook.createRoom h c gameType maxPlayers fee random now ls) in
  let after := joins h c roomId k created in
  exists room,
    roomOf roomId (roomsOf after) = Some room
    /\ Types.players room = Z.min (1 + Z.of_nat k) (Z.max 1 maxPlayers)
    /\ Types.maxPlayers room = maxPlayers
    /\ Types.status room
       = (if (2 <=? maxPlayers) && (maxPlayers <=? 1 + Z.of_nat k)
          then Types.playing else Types.waiting)
    /\ fst (Hook.joinRoom h c roomId after)
       = (1 + Z.of_nat k <? maxPlayers).
Proof.
  intros Hd Hro Hp roomId Hfresh created after. subst created after.
  rewrite (createRoom_demo h c w gameType maxPlayers fee random now ls
             Hd Hro Hp).
  cbn [snd]. fold roomId.
  set (host := JS.str_or _ _).
  assert (Hinv : exists room,
             linera_rooms
               (joins h c roomId k
                  (set_rooms
                     (roomsOf ls
                      ++ [ {| Types.id := roomId; Types.game := gameType;
                              Types.players := 1;
                              Types.maxPlayers := maxPlayers;
                              Types.fee := fee; Types.host := host;
                              Types.status := Types.waiting;
                              Types.chainId := None;
                              Types.createdAt := Some now |} ]) ls))
             = Json (roomsOf ls ++ [room])
             /\ Types.id room = roomId
             /\ Types.players room
                = Z.min (1 + Z.of_nat k) (Z.max 1 maxPlayers)
             /\ Types.maxPlayers room = maxPlayers
             /\ Types.status room
                = (if (2 <=? maxPlayers) && (maxPlayers <=? 1 + Z.of_nat k)
                   then Types.playing else Types.waiting)).
  { induction k as [|k IH].
    - eexists. split; [reflexivity|].
      cbn [Types.id Types.players Types.maxPlayers Types.status].
      repeat split; [lia|].
      destruct (Z.leb_spec 2 maxPlayers);
        destruct (Z.leb_spec maxPlayers (1 + Z.of_nat 0));
        cbn [andb]; try reflexivity; lia.
    - destruct IH as (room & Erooms & Hid & Hpl & Hmax & Hst).
      rewrite joins_S.
      set (s := joins h c roomId k _) in *.
      assert (Hrs : readable (linera_rooms s))
        by (rewrite Erooms; apply readable_Json).
      rewrite (joinRoom_demo h c w roomId s Hd Hrs).
      unfold roomsOf at 1. rewrite Erooms.
      rewrite (joined_app_fresh roomId (roomsOf ls) room Hfresh Hid).
      destruct (Z.geb_spec (Types.players room) (Types.maxPlayers room))
        as [Hfull | Hfree].
      + exists room. cbn [snd]. split; [exact Erooms|].
        split; [exact Hid|]. split; [lia|]. split; [exact Hmax|].
        rewrite Hst.
        destruct (Z.leb_spec 2 maxPlayers);
          destruct (Z.leb_spec maxPlayers (1 + Z.of_nat k));
          destruct (Z.leb_spec maxPlayers (1 + Z.of_nat (S k)));
          cbn [andb]; try reflexivity; lia.
      + exists (Hook.enter room). cbn [snd linera_rooms set_rooms].
        split; [reflexivity|].
        cbn [Hook.enter Types.id Types.players Types.maxPlayers Types.status].
        split; [exact Hid|]. split; [lia|]. split; [exact Hmax|].
        rewrite Hst.
        destruct (Z.geb_spec (Types.players room + 1)
                    (Types.maxPlayers room));
          destruct (Z.leb_spec 2 maxPlayers);
          destruct (Z.leb_spec maxPlayers (1 + Z.of_nat k));
          destruct (Z.leb_spec maxPlayers (1 + Z.of_nat (S k)));
          cbn [andb]; try reflexivity; lia. }
  destruct Hinv as (room & Erooms & Hid & Hpl & Hmax & Hst).
  set (s := joins h c roomId k _) in *.
  exists room.
  assert (Hrs : readable (linera_rooms s))
    by (rewrite Erooms; apply readable_Json).
  unfold roomsOf. rewrite Erooms.
  split; [now apply roomOf_app_fresh|].
  repeat (split; [assumption|]).
  rewrite (joinRoom_demo h c w roomId s Hd Hrs).
  unfold roomsOf. rewrite Erooms.
  rewrite (joined_app_fresh roomId (roomsOf ls) room Hfresh Hid).
  destruct (Z.geb_spec (Types.players room) (Types.maxPlayers room));
    destruct (Z.ltb_spec (1 + Z.of_nat k) maxPlayers);
    cbn [fst]; try reflexivity; lia.
Qed.

Lemma room_fills_up_witness :
  demo_session demoHook offline alice
  /\ roomOf (roomIdOf "tictactoe" "7Q2X") (roomsOf Storage.empty) = None
  /\ exists room,
       roomOf (roomIdOf "tictactoe" "7Q2X")
         (roomsOf
            (joins demoHook offline (roomIdOf "tictactoe" "7Q2X") 1
               (snd (Hook.createRoom demoHook offline "tictactoe" 2 10
                       "7Q2X" 1000 Storage.empty)))) = Some room
       /\ Types.players room = 2
       /\ Types.status room = Types.playing.
Proof.
  assert (Hd : demo_session demoHook offline alice)
    by (repeat split; reflexivity).
  split; [exact Hd|]. split; [reflexivity|].
  destruct (room_fills_up demoHook offline alice "tictactoe" 2 10 "7Q2X"
              1000 Storage.empty 1 Hd ltac:(discriminate)
              ltac:(discriminate) eq_refl)
    as (room & E & Hp & _ & Hs & _).
  exists room. split; [exact E|]. split; [exact Hp|exact Hs].
Defined.

(** ** Progress *)

Lemma shaped_ids l : shaped l -> map id l = map id ALL_ACHIEVEMENTS.
Proof.
  unfold shaped. intros H.
  assert (E : forall l', map id l' = map (fun s => fst (fst (fst s)))
                                       (map static l')).
  { intros l'. rewrite map_map. reflexivity. }
  rewrite !E, H. reflexivity.
Qed.

Lemma shaped_NoDup l : shaped l -> NoDup (map id l).
Proof. intros H. rewrite (shaped_ids l H). apply catalogue_ids_distinct. Qed.

Lemma shaped_length l : shaped l -> List.length l = 26%nat.
Proof.
  intros H. apply (f_equal (@List.length _)) in H.
  rewrite !length_map in H. exact H.
Qed.

Lemma unlock_id_static now i l : map static (unlock_id now i l) = map static l.
Proof.
  unfold unlock_id. rewrite map_map. apply map_ext.
  intros a. destruct (String.eqb (id a) i); reflexivity.
Qed.

Lemma merge_shaped savedAchievements : shaped (merge savedAchievements).
Proof.
  unfold shaped, merge. rewrite map_map. apply map_ext.
  intros a. destruct (find _ _); reflexivity.
Qed.

Lemma load_shaped stored : shaped (achievements (load stored)).
Proof.
  destruct stored as [[sa ss]|]; cbn [load achievements];
    [apply merge_shaped|reflexivity].
Qed.

Lemma processUnlock_fold_static now checks : forall l news,
  map static (fst (fold_left (processUnlock now) checks (l, news)))
  = map static l.
Proof.
  induction checks as [|[i cond] checks IH]; intros l news; [reflexivity|].
  cbn [fold_left]. unfold processUnlock at 2.
  destruct cond; [|apply IH].
  destruct (find _ l) as [a|]; [|apply IH].
  destruct (unlocked a); [apply IH|].
  rewrite IH. apply unlock_id_static.
Qed.

Lemma trackGamePlayed_shaped game won extraData now st :
  shaped (achievements st) ->
  shaped (achievements (snd (trackGamePlayed game won extraData now st))).
Proof.
  unfold shaped, trackGamePlayed. intros H.
  pose proof (processUnlock_fold_static now
                (checkAchievements
                   (updateStats game won extraData (stats st)) extraData)
                (achievements st) []) as Hs.
  destruct (fold_left _ _ _) as [updated news]. cbn [fst] in Hs.
  cbn [snd achievements]. destruct news; [exact H|]. now rewrite Hs.
Qed.

Lemma checkAndUnlock_shaped i now st :
  shaped (achievements st) ->
  shaped (achievements (snd (checkAndUnlock i now st))).
Proof.
  unfold shaped, checkAndUnlock. intros H.
  destruct (find _ _) as [a|]; [|exact H].
  destruct (unlocked a); [exact H|].
  cbn [snd achievements]. now rewrite unlock_id_static.
Qed.

Lemma act_shaped st a :
  shaped (achievements st) -> shaped (achievements (act st a)).
Proof.
  destruct a as [[[[game won] extraData] now]|i now|]; cbn [act play].
  - apply trackGamePlayed_shaped.
  - apply checkAndUnlock_shaped.
  - auto.
Qed.

Lemma percentage_of_26 (n : nat) :
  (n <= 26)%nat ->
  JS.Math_round_any
    (JS.fmul (JS.fdiv (JS.of_Z (Z.of_nat n)) (JS.of_Z 26)) (JS.of_Z 100))
  = JS.Integer (exactRound (Z.of_nat n) 26).
Proof.
  intros Hn.
  do 27 (destruct n as [|n]; [vm_compute; reflexivity|]).
  lia.
Qed.

Lemma filter_length_le (A : Type) (f : A -> bool) (l : list A) :
  (List.length (filter f l) <= List.length l)%nat.
Proof.
  induction l as [|x l IH]; cbn [filter List.length]; [lia|].
  destruct (f x); cbn [List.length]; lia.
Qed.

(** What a call sets as the list for the next render is the list React
    held, or the list the call made first after a render would set. *)
Lemma turn_held c a :
  achievements (UseAchievements.held (turn c (Calls a)))
  = achievements (UseAchievements.held c)
  \/ achievements (UseAchievements.held (turn c (Calls a)))
     = achievements (act (UseAchievements.seen c) a).
Proof.
  destruct a as [[[[game won] extraData] now]|i now|]; cbn [turn act play].
  - unfold UseAchievements.trackGamePlayed, trackGamePlayed.
    destruct (fold_left _ _ _) as [updated news].
    destruct news; [left|right]; reflexivity.
  - unfold UseAchievements.checkAndUnlock, checkAndUnlock.
    destruct (find _ _) as [a|]; [|now left].
    destruct (unlocked a); [now left|now right].
  - now left.
Qed.

Lemma turn_seen c a :
  UseAchievements.seen (turn c (Calls a)) = UseAchievements.seen c.
Proof.
  destruct a as [[[[game won] extraData] now]|i now|]; cbn [turn].
  - apply track_seen.
  - unfold UseAchievements.checkAndUnlock.
    destruct (find _ _) as [a|]; [|reflexivity].
    destruct (unlocked a); reflexivity.
  - reflexivity.
Qed.

(** A property of the list of achievements that the calls admitted by
    [ok] keep when made first after a render holds of the list of every
    render and of the list React holds, however calls and renders
    follow each other. *)
Lemma turns_invariant (Q : list Achievement -> Prop) (ok : Action -> Prop) :
  (forall st a, ok a -> Q (achievements st) -> Q (achievements (act st a))) ->
  forall ts c,
    (forall a, In (Calls a) ts -> ok a) ->
    Q (achievements (UseAchievements.seen c)) ->
    Q (achievements (UseAchievements.held c)) ->
    Q (achievements (UseAchievements.seen (turns ts c)))
    /\ Q (achievements (UseAchievements.held (turns ts c))).
Proof.
  intros Hact. induction ts as [|t ts IH]; intros c Hok Hs Hh; [auto|].
  change (turns (t :: ts) c) with (turns ts (turn c t)).
  apply IH; [intros a Ha; apply Hok; now right| |].
  - destruct t as [a|]; [now rewrite turn_seen|exact Hh].
  - destruct t as [a|]; [|exact Hh].
    destruct (turn_held c a) as [-> | ->]; [exact Hh|].
    apply Hact; [apply Hok; now left|exact Hs].
Qed.

Lemma tracking_calls plays a :
  In (Calls a) (tracking plays) -> exists call, a = Track call.
Proof.
  unfold tracking. intros H. apply in_map_iff in H.
  destruct H as ([call|] & E & _); [|discriminate].
  injection E as <-. eauto.
Qed.

(** X14.  Once the state is loaded, whatever was stored, whatever the
    hook is then asked to do and whenever the component renders,
    [getProgress] reports the 26 achievements of the catalogue as total
    and a percentage that is exactly [round(100 * unlocked / 26)]: on
    these quotients the double product loses nothing.  Before the state
    is loaded the list is empty and the percentage is NaN. *)
Theorem progress_percentage stored ts :
  let p :=
    UseAchievements.getProgress (turns ts (UseAchievements.mount stored)) in
  total p = 26
  /\ 0 <= progress_unlocked p <= 26
  /\ percentage p = JS.Integer (exactRound (progress_unlocked p) 26)
  /\ 0 <= exactRound (progress_unlocked p) 26 <= 100
  /\ percentage (getProgress unloaded) = JS.NotANumber.
Proof.
  intros p. subst p.
  destruct (turns_invariant shaped (fun _ => True)
              (fun st a _ => act_shaped st a) ts
              (UseAchievements.mount stored) (fun _ _ => I)
              (load_shaped stored) (load_shaped stored)) as [Hs _].
  pose proof (shaped_length _ Hs) as Hl.
  set (st := UseAchievements.seen (turns ts (UseAchievements.mount stored)))
    in *.
  pose proof (filter_length_le _ unlocked (achievements st)) as Hf.
  unfold UseAchievements.getProgress, getProgress. fold st.
  cbn [total progress_unlocked percentage].
  rewrite Hl in *. change (Z.of_nat 26) with 26.
  split; [reflexivity|]. split; [lia|].
  split; [apply percentage_of_26; exact Hf|].
  split; [|reflexivity].
  unfold exactRound. split.
  - apply Z.div_pos; lia.
  - enough (H : (200 * Z.of_nat (List.length
                    (filter unlocked (achievements st))) + 26)
                / (2 * 26) < 101) by lia.
    apply Z.div_lt_upper_bound; lia.
Qed.

(** ** What [trackGamePlayed] unlocks *)

Lemma find_id_In i l a :
  find (fun a => String.eqb (id a) i) l = Some a -> In a l /\ id a = i.
Proof.
  intros H. apply find_some in H. destruct H as [Hin He].
  apply String.eqb_eq in He. auto.
Qed.

Lemma find_id_None i l a :
  find (fun a => String.eqb (id a) i) l = None -> In a l -> id a <> i.
Proof.
  intros H Hin E. apply (find_none _ _ H) in Hin.
  apply String.eqb_neq in Hin. auto.
Qed.

Lemma NoDup_id_unique l a b :
  NoDup (map id l) -> In a l -> In b l -> id a = id b -> a = b.
Proof.
  intros Hnd Ha Hb E.
  apply In_nth_error in Ha. destruct Ha as [n Hn].
  apply In_nth_error in Hb. destruct Hb as [m Hm].
  assert (n = m) by (eapply distinct_ids_same_place; eauto).
  subst m. congruence.
Qed.

Lemma unlock_id_In_locked now i l a :
  In a (unlock_id now i l) -> unlocked a = false -> In a l /\ id a <> i.
Proof.
  unfold unlock_id. intros Hin Hu. apply in_map_iff in Hin.
  destruct Hin as (x & E & Hx).
  destruct (String.eqb_spec (id x) i) as [Ei | Ei]; subst a.
  - discriminate.
  - auto.
Qed.

Lemma unlock_id_In_other now i l a :
  In a l -> id a <> i -> In a (unlock_id now i l).
Proof.
  unfold unlock_id. intros Hin Hne. apply in_map_iff. exists a.
  now rewrite (eqb_neq _ _ Hne).
Qed.

Lemma known_ids l l' i : map id l' = map id l -> known l' i = known l i.
Proof.
  unfold known. intros E.
  assert (H : forall k, existsb (fun a => String.eqb (id a) i) k
                        = existsb (fun s => String.eqb s i) (map id k)).
  { induction k as [|x k IH]; cbn; [reflexivity|]. now rewrite IH. }
  now rewrite !H, E.
Qed.

Lemma known_In l i : known l i = true <-> exists a, In a l /\ id a = i.
Proof.
  unfold known. rewrite existsb_exists. split; intros (a & Ha & E);
    exists a; (split; [exact Ha|]); now apply String.eqb_eq.
Qed.

Lemma unlockedIn_In l i :
  unlockedIn l i = true <-> exists a, In a l /\ id a = i /\ unlocked a = true.
Proof.
  unfold unlockedIn. rewrite existsb_exists.
  split; intros (a & Ha & E); exists a; (split; [exact Ha|]).
  - apply andb_prop in E. destruct E as [E1 E2].
    apply String.eqb_eq in E1. auto.
  - destruct E as [E1 E2]. rewrite E2, andb_true_r. now apply String.eqb_eq.
Qed.

Lemma unlockedIn_unlock_id now i0 l i :
  known l i0 = true ->
  unlockedIn (unlock_id now i0 l) i = unlockedIn l i || String.eqb i0 i.
Proof.
  intros Hk. destruct (String.eqb_spec i0 i) as [<- | Hne].
  - rewrite orb_true_r. apply unlockedIn_In.
    apply known_In in Hk. destruct Hk as (a & Ha & E).
    exists (unlock now a). repeat split; auto.
    unfold unlock_id. apply in_map_iff. exists a.
    rewrite E, String.eqb_refl. auto.
  - rewrite orb_false_r. unfold unlockedIn, unlock_id.
    induction l as [|x l IH]; [reflexivity|].
    cbn [map existsb].
    assert (Hl : existsb
                   (fun a => String.eqb (id a) i && unlocked a)
                   (map (fun a => if String.eqb (id a) i0
                                  then unlock now a else a) l)
                 = existsb (fun a => String.eqb (id a) i && unlocked a) l).
    { clear IH Hk. induction l as [|y l IHl]; [reflexivity|].
      cbn [map existsb]. rewrite IHl. f_equal.
      destruct (String.eqb_spec (id y) i0) as [E | E]; [|reflexivity].
      cbn [unlock id unlocked]. rewrite E, (eqb_neq _ _ Hne). reflexivity. }
    rewrite Hl. f_equal.
    destruct (String.eqb_spec (id x) i0) as [E | E]; [|reflexivity].
    cbn [unlock id unlocked]. rewrite E, (eqb_neq _ _ Hne). reflexivity.
Qed.

Lemma unlock_id_fresh now i l :
  (forall a, In a l -> id a <> i) -> unlock_id now i l = l.
Proof.
  unfold unlock_id. intros H. rewrite <- (map_id l) at 2.
  apply map_ext_in. intros a Ha. now rewrite (eqb_neq _ _ (H a Ha)).
Qed.

Lemma unlock_id_count now i l a :
  NoDup (map id l) ->
  find (fun a => String.eqb (id a) i) l = Some a ->
  unlocked a = false ->
  List.length (filter unlocked (unlock_id now i l))
  = S (List.length (filter unlocked l)).
Proof.
  induction l as [|x l IH]; intros Hnd Hf Hu; [discriminate|].
  cbn [map] in Hnd. inversion Hnd as [|? ? Hx Hnd']; subst.
  cbn [find] in Hf. unfold unlock_id in *. cbn [map].
  destruct (String.eqb_spec (id x) i) as [E | E].
  - injection Hf as ->.
    fold (unlock_id now i l).
    rewrite unlock_id_fresh.
    + cbn [filter unlock unlocked]. rewrite Hu. reflexivity.
    + intros b Hb Eb. apply Hx. rewrite E, <- Eb. now apply in_map.
  - cbn [filter]. destruct (unlocked x); cbn [List.length];
      rewrite (IH Hnd' Hf Hu); reflexivity.
Qed.

Lemma holds_cons i0 cond checks i :
  holds ((i0, cond) :: checks) i
  = (String.eqb i0 i && cond) || holds checks i.
Proof. reflexivity. Qed.

(** The loop of [trackGamePlayed] over the checks, from any list of
    distinct ids. *)
Lemma processUnlock_fold_spec now checks : forall l news,
  NoDup (map id l) ->
  let r := fold_left (processUnlock now) checks (l, news) in
  (forall i,
      unlockedIn (fst r) i
      = unlockedIn l i || (known l i && holds checks i))
  /\ (forall u,
        In u (snd r) <->
        In u news
        \/ exists a, In a l /\ unlocked a = false
             /\ holds checks (id a) = true /\ u = unlock now a)
  /\ (List.length (filter unlocked (fst r)) + List.length news
      = List.length (filter unlocked l) + List.length (snd r))%nat.
Proof.
  induction checks as [|[i0 cond] checks IH]; intros l news Hnd r; subst r.
  - cbn [fold_left fst snd]. split; [|split].
    + intros i. cbn. now rewrite andb_false_r, orb_false_r.
    + intros u. split; [auto|].
      intros [H | (a & _ & _ & H & _)]; [exact H|discriminate].
    + lia.
  - cbn [fold_left].
    assert (Hstep :
      processUnlock now (l, news) (i0, cond)
      = if cond then
          match find (fun a => String.eqb (id a) i0) l with
          | Some a0 =>
              if unlocked a0 then (l, news)
              else (unlock_id now i0 l, news ++ [unlock now a0])
          | None => (l, news)
          end
        else (l, news)) by reflexivity.
    rewrite Hstep. clear Hstep.
    assert (Hsame :
      (cond = false
       \/ find (fun a => String.eqb (id a) i0) l = None
       \/ exists a0, find (fun a => String.eqb (id a) i0) l = Some a0
                     /\ unlocked a0 = true) ->
      let r := fold_left (processUnlock now) checks (l, news) in
      (forall i,
          unlockedIn (fst r) i
          = unlockedIn l i || (known l i && holds ((i0, cond) :: checks) i))
      /\ (forall u,
            In u (snd r) <->
            In u news
            \/ exists a, In a l /\ unlocked a = false
                 /\ holds ((i0, cond) :: checks) (id a) = true
                 /\ u = unlock now a)
      /\ (List.length (filter unlocked (fst r)) + List.length news
          = List.length (filter unlocked l) + List.length (snd r))%nat).
    { intros Hcase r. subst r.
      destruct (IH l news Hnd) as (H1 & H2 & H3). cbv zeta in H1, H2, H3.
      split; [|split; [|exact H3]].
      - intros i. rewrite H1, holds_cons.
        destruct (String.eqb_spec i0 i) as [<- | Hne]; [|reflexivity].
        destruct Hcase as [-> | [Hn | (a0 & Hf & Hu)]].
        + reflexivity.
        + assert (Hk : known l i0 = false).
          { destruct (known l i0) eqn:Hk; [|reflexivity].
            apply known_In in Hk. destruct Hk as (a & Ha & E).
            exfalso. exact (find_id_None i0 l a Hn Ha E). }
          now rewrite Hk.
        + destruct (find_id_In _ _ _ Hf) as [Ha0 E0].
          assert (Hk : unlockedIn l i0 = true)
            by (apply unlockedIn_In; exists a0; auto).
          now rewrite Hk.
      - intros u. rewrite H2. split; intros [H | (a & Ha & Hl & Hh & ->)];
          auto; right; exists a; repeat split; auto.
        + rewrite holds_cons, Hh. apply orb_true_r.
        + rewrite holds_cons in Hh.
          destruct (String.eqb_spec i0 (id a)) as [E | E]; [|exact Hh].
          destruct Hcase as [-> | [Hn | (a0 & Hf & Hu)]].
          * exact Hh.
          * exfalso. apply (find_id_None i0 l a Hn Ha). auto.
          * exfalso. destruct (find_id_In _ _ _ Hf) as [Ha0 E0].
            assert (a = a0)
              by (apply (NoDup_id_unique l); auto; congruence).
            congruence. }
    destruct cond; [|apply Hsame; auto].
    destruct (find (fun a => String.eqb (id a) i0) l) as [a0|] eqn:Hf;
      [|apply Hsame; auto].
    destruct (unlocked a0) eqn:Hu; [apply Hsame; right; right; eauto|].
    clear Hsame.
    destruct (find_id_In _ _ _ Hf) as [Ha0 E0].
    assert (Hnd1 : NoDup (map id (unlock_id now i0 l)))
      by (now rewrite unlock_id_ids).
    assert (Hk0 : known l i0 = true)
      by (apply known_In; exists a0; auto).
    destruct (IH (unlock_id now i0 l) (news ++ [unlock now a0]) Hnd1)
      as (H1 & H2 & H3). cbv zeta in H1, H2, H3.
    split; [|split].
    + intros i. rewrite H1, holds_cons.
      rewrite (known_ids l (unlock_id now i0 l) i (unlock_id_ids now i0 l)).
      rewrite (unlockedIn_unlock_id now i0 l i Hk0).
      destruct (String.eqb_spec i0 i) as [<- | Hne].
      * rewrite Hk0. cbn. now rewrite !orb_true_r.
      * cbn. now rewrite orb_false_r.
    + intros u. rewrite H2, in_app_iff. cbn [In].
      split.
      * intros [[H | [<- | []]] | (a & Ha & Hl & Hh & ->)].
        -- now left.
        -- right. exists a0. repeat split; auto.
           rewrite holds_cons, E0, String.eqb_refl. reflexivity.
        -- destruct (unlock_id_In_locked now i0 l a Ha Hl) as [Ha' Hne].
           right. exists a. repeat split; auto.
           rewrite holds_cons, Hh. apply orb_true_r.
      * intros [H | (a & Ha & Hl & Hh & ->)]; [auto|].
        destruct (String.eqb_spec i0 (id a)) as [E | E].
        -- assert (a = a0)
             by (apply (NoDup_id_unique l); auto; congruence).
           subst a. auto.
        -- right. exists a. repeat split; auto.
           ++ apply unlock_id_In_other; auto.
           ++ rewrite holds_cons, (eqb_neq _ _ E) in Hh. exact Hh.
    + rewrite (unlock_id_count now i0 l a0 Hnd Hf Hu) in H3.
      rewrite length_app in H3. cbn [List.length] in H3. lia.
Qed.

Lemma trackGamePlayed_fold game won extraData now st :
  let r := trackGamePlayed game won extraData now st in
  let f :=
    fold_left (processUnlock now)
      (checkAchievements (updateStats game won extraData (stats st))
         extraData)
      (achievements st, []) in
  fst r = snd f /\ achievements (snd r) = fst f
  /\ stats (snd r) = updateStats game won extraData (stats st)
  /\ saved (snd r) = Some (fst f, stats (snd r)).
Proof.
  unfold trackGamePlayed.
  pose proof (processUnlock_fold_static now
                (checkAchievements
                   (updateStats game won extraData (stats st)) extraData)
                (achievements st) []) as Hs.
  assert (Hnil : forall checks l,
            snd (fold_left (processUnlock now) checks (l, [])) = [] ->
            fst (fold_left (processUnlock now) checks (l, [])) = l).
  { assert (Hg : forall checks l news,
              (List.length news
               <= List.length
                    (snd (fold_left (processUnlock now) checks (l, news))))%nat
              /\ (snd (fold_left (processUnlock now) checks (l, news)) = news
                  -> fst (fold_left (processUnlock now) checks (l, news))
                     = l)).
    { induction checks as [|[i cond] checks IH]; intros l news;
        [cbn; auto|].
      cbn [fold_left]. unfold processUnlock at 2 4 6.
      destruct cond; [|apply IH].
      destruct (find _ l) as [a|]; [|apply IH].
      destruct (unlocked a); [apply IH|].
      destruct (IH (unlock_id now i l) (news ++ [unlock now a])) as [Hle _].
      rewrite length_app in Hle. cbn [List.length] in Hle.
      split; [lia|].
      intros E. rewrite E in Hle. lia. }
    intros checks l E. now apply (Hg checks l []). }
  specialize (Hnil (checkAchievements
                      (updateStats game won extraData (stats st)) extraData)
                   (achievements st)).
  destruct (fold_left _ _ _) as [updated news]. cbn [fst snd] in *.
  repeat split.
  destruct news; [symmetry; now apply Hnil|reflexivity].
Qed.





(** ** What tracking alone cannot unlock *)

Lemma holds_app c1 c2 i : holds (c1 ++ c2) i = holds c1 i || holds c2 i.
Proof. unfold holds. apply existsb_app. Qed.

Lemma holds_single (b : bool) j i :
  j <> i -> holds (if b then [(j, true)] else []) i = false.
Proof.
  intros H. destruct b; [|reflexivity].
  unfold holds. cbn. now rewrite (eqb_neq _ _ H).
Qed.

Lemma untracked_never_hold newStats extraData i :
  In i untracked -> holds (checkAchievements newStats extraData) i = false.
Proof.
  intros Hi. unfold checkAchievements. rewrite !holds_app.
  cbn in Hi.
  destruct Hi as [<- | [<- | [<- | [<- | []]]]];
    rewrite !holds_single by discriminate; reflexivity.
Qed.

Lemma play_untracked st call i :
  NoDup (map id (achievements st)) -> In i untracked ->
  unlockedIn (achievements (play st call)) i = unlockedIn (achievements st) i.
Proof.
  intros Hnd Hi. destruct call as [[[game won] extraData] now]. cbn [play].
  destruct (trackGamePlayed_fold game won extraData now st)
    as (_ & E2 & _). cbv zeta in E2. rewrite E2.
  destruct (processUnlock_fold_spec now
              (checkAchievements
                 (updateStats game won extraData (stats st)) extraData)
              (achievements st) [] Hnd) as (H1 & _).
  cbv zeta in H1. rewrite H1, untracked_never_hold by exact Hi.
  now rewrite andb_false_r, orb_false_r.
Qed.

Lemma NoDup_map_filter (A B : Type) (g : A -> B) (f : A -> bool) (l : list A) :
  NoDup (map g l) -> NoDup (map g (filter f l)).
Proof.
  induction l as [|x l IH]; cbn [map filter]; intros H; [constructor|].
  inversion H as [|? ? Hx Hl]; subst.
  destruct (f x); [|auto]. cbn [map]. constructor; [|auto].
  intros Hin. apply Hx. apply in_map_iff in Hin.
  destruct Hin as (y & E & Hy). apply filter_In in Hy.
  apply in_map_iff. exists y. tauto.
Qed.

(** The ids of the catalogue that a condition of [trackGamePlayed]
    mentions. *)
Lemma tracked_ids i :
  In i (map id ALL_ACHIEVEMENTS) ->
  In i untracked
  \/ In i ["first_game"; "play_10"; "play_50"; "play_100"; "first_win";
           "win_streak_3"; "win_streak_5"; "win_streak_10"; "snake_50";
           "snake_100"; "snake_200"; "snake_500"; "ttt_first_win";
           "ttt_5_wins"; "ttt_perfect"; "ttt_20_wins"; "sl_first_win";
           "sl_no_snakes"; "uno_first_win"; "uno_plus4"; "uno_reverse";
           "uno_domination"].
Proof.
  cbn [map ALL_ACHIEVEMENTS id entry]. intros H.
  repeat (destruct H as [<- | H]; [cbn; tauto|]). destruct H.
Qed.

Lemma at_most_22 l :
  shaped l ->
  (forall i, In i untracked -> unlockedIn l i = false) ->
  (List.length (filter unlocked l) <= 22)%nat.
Proof.
  intros Hs H4.
  rewrite <- (length_map id).
  apply (NoDup_incl_length
           (l' := ["first_game"; "play_10"; "play_50"; "play_100";
                   "first_win"; "win_streak_3"; "win_streak_5";
                   "win_streak_10"; "snake_50"; "snake_100"; "snake_200";
                   "snake_500"; "ttt_first_win"; "ttt_5_wins";
                   "ttt_perfect"; "ttt_20_wins"; "sl_first_win";
                   "sl_no_snakes"; "uno_first_win"; "uno_plus4";
                   "uno_reverse"; "uno_domination"])).
  - apply NoDup_map_filter. now apply shaped_NoDup.
  - intros i Hi. apply in_map_iff in Hi. destruct Hi as (a & <- & Ha).
    apply filter_In in Ha. destruct Ha as [Ha Hu].
    assert (Hin : In (id a) (map id ALL_ACHIEVEMENTS))
      by (rewrite <- (shaped_ids l Hs); now apply in_map).
    destruct (tracked_ids _ Hin) as [Hun | Hok]; [|exact Hok].
    exfalso. specialize (H4 _ Hun).
    assert (Ht : unlockedIn l (id a) = true)
      by (apply unlockedIn_In; exists a; auto).
    congruence.
Qed.

(** The list has the shape of the catalogue and the achievements no
    condition mentions are locked in it. *)
Lemma out_of_reach_kept st a :
  (exists call, a = Track call) ->
  shaped (achievements st)
  /\ (forall i, In i untracked -> unlockedIn (achievements st) i = false) ->
  shaped (achievements (act st a))
  /\ (forall i, In i untracked ->
        unlockedIn (achievements (act st a)) i = false).
Proof.
  intros (call & ->) (Hs & H4). split; [now apply act_shaped|].
  intros i Hi. cbn [act].
  rewrite play_untracked; auto using shaped_NoDup.
Qed.

(** X17.  Four achievements of the catalogue are out of reach of
    [trackGamePlayed]: no condition mentions [snake_no_walls],
    [sl_ladder_3], [sl_comeback] and [uno_speedrun].  From the initial
    state, whatever games are tracked and whenever the component
    renders, they stay locked, at most 22 of the 26 achievements are
    unlocked and the percentage never exceeds 85. *)
Theorem tracking_cannot_complete plays :
  let c := turns (tracking plays) (UseAchievements.mount None) in
  (forall i, In i untracked ->
     unlockedIn (achievements (UseAchievements.seen c)) i = false
     /\ unlockedIn (achievements (UseAchievements.held c)) i = false)
  /\ progress_unlocked (UseAchievements.getProgress c) <= 22
  /\ exists p,
       percentage (UseAchievements.getProgress c) = JS.Integer p /\ p <= 85.
Proof.
  intros c. subst c.
  assert (H0 : shaped (achievements (load None))
               /\ (forall i, In i untracked ->
                     unlockedIn (achievements (load None)) i = false)).
  { split; [apply load_shaped|]. intros i Hi. cbn in Hi.
    destruct Hi as [<- | [<- | [<- | [<- | []]]]]; reflexivity. }
  destruct (turns_invariant
              (fun l => shaped l
                        /\ forall i, In i untracked -> unlockedIn l i = false)
              (fun a => exists call, a = Track call)
              out_of_reach_kept (tracking plays)
              (UseAchievements.mount None) (tracking_calls plays) H0 H0)
    as [[Hs H4] [_ H4']].
  set (st := UseAchievements.seen
               (turns (tracking plays) (UseAchievements.mount None))) in *.
  pose proof (at_most_22 _ Hs H4) as H22.
  split; [intros i Hi; split; auto|].
  unfold UseAchievements.getProgress, getProgress. fold st.
  cbn [progress_unlocked percentage].
  rewrite (shaped_length _ Hs). change (Z.of_nat 26) with 26.
  split; [lia|].
  rewrite percentage_of_26 by lia.
  eexists. split; [reflexivity|].
  unfold exactRound.
  enough (H : (200 * Z.of_nat
                 (List.length (filter unlocked (achievements st)))
               + 26) / (2 * 26) < 86) by lia.
  apply Z.div_lt_upper_bound; lia.
Qed.

(** ** Saving and loading the achievements *)

Lemma find_NoDup l a :
  NoDup (map id l) -> In a l ->
  find (fun s => String.eqb (id s) (id a)) l = Some a.
Proof.
  induction l as [|x l IH]; intros Hnd Hin; [destruct Hin|].
  cbn [map] in Hnd. inversion Hnd as [|? ? Hx Hl]; subst.
  cbn [find]. destruct Hin as [-> | Hin].
  - now rewrite String.eqb_refl.
  - destruct (String.eqb_spec (id x) (id a)) as [E | E]; [|auto].
    exfalso. apply Hx. rewrite E. now apply in_map.
Qed.

Lemma merge_fixed l : shaped l -> merge l = l.
Proof.
  intros Hs. pose proof (shaped_NoDup l Hs) as Hnd.
  unfold merge.
  assert (H : forall cat l',
            map static l' = map static cat ->
            (forall a, In a l' -> In a l) ->
            map (fun a =>
                   match find (fun s => String.eqb (id s) (id a)) l with
                   | Some s =>
                       {| id := id a; unlocked := unlocked s;
                          unlockedAt := unlockedAt s;
                          category := category a; rarity := rarity a;
                          xpReward := xpReward a |}
                   | None => a
                   end) cat = l').
  { induction cat as [|c cat IH]; intros l' E Hin.
    - destruct l'; [reflexivity|discriminate].
    - destruct l' as [|x l']; [discriminate|].
      cbn [map] in E.
      assert (Ex : static x = static c) by congruence.
      assert (El : map static l' = map static cat) by congruence.
      clear E. cbn [map]. f_equal.
      + unfold static in Ex.
        assert (E1 : id x = id c) by congruence.
        assert (E2 : category x = category c) by congruence.
        assert (E3 : rarity x = rarity c) by congruence.
        assert (E4 : xpReward x = xpReward c) by congruence.
        rewrite <- E1, (find_NoDup l x Hnd (Hin x (or_introl eq_refl))).
        rewrite <- E2, <- E3, <- E4. destruct x; reflexivity.
      + apply IH; [exact El|]. intros a Ha. apply Hin. now right. }
  apply H; [exact Hs|auto].
Qed.

Lemma actAll_reload actions : forall st,
  shaped (achievements st) ->
  achievements (load (saved st)) = achievements st
  /\ stats (load (saved st)) = stats st ->
  achievements (load (saved (actAll actions st)))
  = achievements (actAll actions st)
  /\ stats (load (saved (actAll actions st))) = stats (actAll actions st).
Proof.
  induction actions as [|a actions IH]; intros st Hs Hinv;
    [exact Hinv|].
  change (actAll (a :: actions) st) with (actAll actions (act st a)).
  apply IH; [now apply act_shaped|].
  pose proof (act_shaped st a Hs) as Hs'.
  destruct a as [[[[game won] extraData] now]|i now|]; cbn [act play] in *.
  - destruct (trackGamePlayed_fold game won extraData now st)
      as (_ & E2 & _ & E4). cbv zeta in E2, E4.
    rewrite E4. cbn [load achievements stats]. rewrite <- E2.
    split; [now apply merge_fixed|reflexivity].
  - unfold checkAndUnlock in *.
    destruct (find _ (achievements st)) as [a|]; [|exact Hinv].
    destruct (unlocked a); [exact Hinv|].
    cbn [snd saved load achievements stats] in *.
    split; [now apply merge_fixed|reflexivity].
  - exact Hinv.
Qed.

(** X18.  When the component renders after each call, what the hook
    saves is what it holds: after the state is loaded, whatever was
    stored and whatever the hook is then asked to do, loading the saved
    content again, as a reload of the page does, gives the achievements
    and the statistics React holds, which are those of the last
    render. *)
Theorem achievements_reload stored actions :
  let c := turns (rendered actions) (UseAchievements.mount stored) in
  achievements (load (saved (UseAchievements.held c)))
  = achievements (UseAchievements.held c)
  /\ stats (load (saved (UseAchievements.held c)))
     = stats (UseAchievements.held c)
  /\ UseAchievements.seen c = UseAchievements.held c.
Proof.
  intros c. subst c. rewrite mount_fresh, turns_rendered.
  cbn [UseAchievements.held UseAchievements.seen fresh].
  destruct (actAll_reload actions (load stored) (load_shaped stored))
    as [H1 H2].
  - destruct stored as [[sa ss]|]; split; reflexivity.
  - auto.
Qed.

(** ** The statistics count the games *)

Lemma winsAt_cons game call calls :
  winsAt game (call :: calls)
  = (if String.eqb (gameOf call) game && wonCall call then 1 else 0)
    + winsAt game calls.
Proof.
  unfold winsAt. cbn [filter].
  destruct (String.eqb (gameOf call) game && wonCall call);
    cbn [List.length]; lia.
Qed.

Lemma run_stats calls : forall st,
  let s := stats st in
  let s' := stats (run calls st) in
  (0 <= currentWinStreak s <= bestWinStreak s ->
   bestWinStreak s <= totalWins s <= totalGames s ->
   0 <= tttWins s -> 0 <= slWins s -> 0 <= unoWins s ->
   tttWins s + slWins s + unoWins s <= totalWins s ->
   0 <= Achievements.snakeHighScore s ->
   0 <= currentWinStreak s' <= bestWinStreak s'
   /\ bestWinStreak s' <= totalWins s' <= totalGames s'
   /\ tttWins s' + slWins s' + unoWins s' <= totalWins s'
   /\ 0 <= Achievements.snakeHighScore s')
  /\ totalGames s' = totalGames s + Z.of_nat (List.length calls)
  /\ totalWins s'
     = totalWins s + Z.of_nat (List.length (filter wonCall calls))
  /\ tttWins s' = tttWins s + winsAt "tictactoe" calls
  /\ slWins s' = slWins s + winsAt "snakeladders" calls
  /\ unoWins s' = unoWins s + winsAt "uno" calls.
Proof.
  induction calls as [|[[[game won] extraData] now] calls IH]; intros st s s';
    subst s s'.
  - cbn [run fold_left List.length filter]. unfold winsAt. cbn.
    repeat split; lia.
  - change (run ((game, won, extraData, now) :: calls) st)
      with (run calls (snd (trackGamePlayed game won extraData now st))).
    destruct (IH (snd (trackGamePlayed game won extraData now st)))
      as (Hineq & E1 & E2 & E3 & E4 & E5).
    cbv zeta in Hineq, E1, E2, E3, E4, E5.
    rewrite trackGamePlayed_stats in *.
    set (s := stats st) in *.
    assert (Hu : updateStats game won extraData s
                 = updateStats game won extraData s) by reflexivity.
    unfold updateStats at 2 in Hu.
    set (hs := match extraData with
               | Some {| extra_score := Some sc |} =>
                   if String.eqb game "snake" && negb (sc =? 0)
                   then (if sc >? Achievements.snakeHighScore s then sc
                         else Achievements.snakeHighScore s)
                   else Achievements.snakeHighScore s
               | _ => Achievements.snakeHighScore s
               end) in *.
    assert (Hhs : 0 <= Achievements.snakeHighScore s -> 0 <= hs).
    { subst hs. intros H0.
      destruct extraData as [[[sc|] ? ? ? ?]|]; try exact H0.
      destruct (String.eqb game "snake" && negb (sc =? 0)); [|exact H0].
      destruct (Z.gtb_spec sc (Achievements.snakeHighScore s)); lia. }
    rewrite Hu in *. clear Hu.
    cbn [totalGames totalWins currentWinStreak bestWinStreak tttWins slWins
         unoWins Achievements.snakeHighScore] in *.
    rewrite !winsAt_cons. cbn [gameOf wonCall fst snd filter].
    assert (Hg : (if String.eqb game "tictactoe" && won then 1 else 0)
                 + (if String.eqb game "snakeladders" && won then 1 else 0)
                 + (if String.eqb game "uno" && won then 1 else 0)
                 <= (if won then 1 else 0)
                 /\ 0 <= (if String.eqb game "tictactoe" && won then 1 else 0)
                 /\ 0 <= (if String.eqb game "snakeladders" && won
                          then 1 else 0)
                 /\ 0 <= (if String.eqb game "uno" && won then 1 else 0)).
    { destruct won; rewrite ?andb_false_r, ?andb_true_r; [|lia].
      destruct (String.eqb_spec game "tictactoe") as [-> | ?];
        [cbn; lia|].
      destruct (String.eqb_spec game "snakeladders") as [-> | ?];
        [cbn; lia|].
      destruct (String.eqb game "uno"); lia. }
    split.
    + intros H1 H2 H3 H4 H5 H6 H7.
      apply Hineq; clear Hineq IH E1 E2 E3 E4 E5.
      * destruct won;
          [destruct (Z.gtb_spec (currentWinStreak s + 1) (bestWinStreak s))|];
          lia.
      * destruct won;
          [destruct (Z.gtb_spec (currentWinStreak s + 1) (bestWinStreak s))|];
          lia.
      * destruct (String.eqb game "tictactoe" && won); lia.
      * destruct (String.eqb game "snakeladders" && won); lia.
      * destruct (String.eqb game "uno" && won); lia.
      * destruct Hg as (Hg & _).
        destruct (String.eqb game "tictactoe" && won);
          destruct (String.eqb game "snakeladders" && won);
          destruct (String.eqb game "uno" && won);
          destruct won; lia.
      * auto.
    + rewrite E1, E2, E3, E4, E5. clear Hineq IH E1 E2 E3 E4 E5.
      destruct won; rewrite ?andb_false_r, ?andb_true_r;
        cbn [List.length];
        destruct (String.eqb game "tictactoe");
        destruct (String.eqb game "snakeladders");
        destruct (String.eqb game "uno");
        repeat split; lia.
Qed.

(** The statistics never count more games than were tracked. *)
Lemma turns_totalGames ts : forall c n,
  totalGames (stats (UseAchievements.seen c)) <= n ->
  totalGames (stats (UseAchievements.held c)) <= n ->
  totalGames (stats (UseAchievements.seen (turns ts c))) <= n + trackCalls ts
  /\ totalGames (stats (UseAchievements.held (turns ts c)))
     <= n + trackCalls ts.
Proof.
  induction ts as [|t ts IH]; intros c n Hs Hh.
  - unfold trackCalls. cbn. lia.
  - change (turns (t :: ts) c) with (turns ts (turn c t)).
    destruct t as [[[[[game won] extraData] now]|i now|]|].
    + replace (n + trackCalls (Calls (Track (game, won, extraData, now))
                               :: ts))
        with (n + 1 + trackCalls ts)
        by (unfold trackCalls; cbn [filter List.length]; lia).
      apply IH; cbn [turn].
      * rewrite track_seen. lia.
      * rewrite track_stats. cbn [updateStats totalGames]. lia.
    + change (trackCalls (Calls (Unlock i now) :: ts)) with (trackCalls ts).
      apply IH; cbn [turn]; unfold UseAchievements.checkAndUnlock;
        destruct (find _ _) as [a|]; try assumption;
        destruct (unlocked a); assumption.
    + change (trackCalls (Calls Clear :: ts)) with (trackCalls ts).
      apply IH; assumption.
    + change (trackCalls (Renders :: ts)) with (trackCalls ts).
      apply IH; assumption.
Qed.

(** X19.  When the component renders after each call, the statistics
    count what was tracked from the initial state: [totalGames] is the
    number of calls of [trackGamePlayed], [totalWins] the number of
    calls with a win, and [tttWins], [slWins] and [unoWins] the numbers
    of wins under the game names ["tictactoe"], ["snakeladders"] and
    ["uno"]; the three together are at most [totalWins], and the win
    streaks satisfy [0 <= currentWinStreak <= bestWinStreak <=
    totalWins].  However calls and renders follow each other,
    [totalGames] never exceeds the number of calls. *)
Theorem stats_count_games calls :
  let s :=
    stats (UseAchievements.held
             (turns (rendered (map Track calls))
                (UseAchievements.mount None))) in
  totalGames s = Z.of_nat (List.length calls)
  /\ totalWins s = Z.of_nat (List.length (filter wonCall calls))
  /\ tttWins s = winsAt "tictactoe" calls
  /\ slWins s = winsAt "snakeladders" calls
  /\ unoWins s = winsAt "uno" calls
  /\ tttWins s + slWins s + unoWins s <= totalWins s <= totalGames s
  /\ 0 <= currentWinStreak s <= bestWinStreak s
  /\ bestWinStreak s <= totalWins s
  /\ 0 <= Achievements.snakeHighScore s
  /\ forall ts,
       totalGames
         (stats (UseAchievements.held
                   (turns ts (UseAchievements.mount None))))
       <= trackCalls ts.
Proof.
  intros s. subst s.
  rewrite mount_fresh, turns_rendered, actAll_tracks.
  cbn [UseAchievements.held fresh].
  destruct (run_stats calls (load None))
    as (Hineq & E1 & E2 & E3 & E4 & E5).
  cbv zeta in Hineq, E1, E2, E3, E4, E5.
  change (stats (load None)) with initialStats in Hineq, E1, E2, E3, E4, E5.
  cbn [initialStats totalGames totalWins currentWinStreak
       bestWinStreak tttWins slWins unoWins Achievements.snakeHighScore]
    in Hineq, E1, E2, E3, E4, E5.
  repeat split; try (destruct Hineq as (H1 & H2 & H3 & H4); lia).
  intros ts.
  destruct (turns_totalGames ts (fresh (load None)) 0) as [_ H];
    [cbn; lia|cbn; lia|]. lia.
Qed.

(** ** The connection *)

Lemma initializeLinera_unloaded env s :
  Client.isInitialized s = false -> Client.lineraModule s = None ->
  fst (Client.initializeLinera env s) = false
  /\ Client.isInitialized (snd (Client.initializeLinera env s)) = false
  /\ Client.lineraModule (snd (Client.initializeLinera env s)) = None
  /\ Client.initializationAttempted (snd (Client.initializeLinera env s))
     = true.
Proof.
  intros Hi Hm. unfold Client.initializeLinera. rewrite Hi.
  destruct (Client.initializationAttempted s) eqn:Ha; cbn [fst snd].
  - auto.
  - destruct (negb (Config.isLineraConfigured env)); cbn; auto.
Qed.

(** X20.  [initializeLinera] never loads the SDK: from the module state
    as declared, however often it is called and whatever the
    configuration, every call returns [false], [lineraModule] stays
    [null] and [isLineraAvailable] stays [false]. *)
Theorem sdk_never_available env n :
  let s := initialized env n in
  fst (Client.initializeLinera env s) = false
  /\ Client.isLineraAvailable s = false
  /\ Client.lineraModule s = None
  /\ Client.isInitialized s = false
  /\ (Client.initializationAttempted s = true <-> (0 < n)%nat).
Proof.
  intros s. subst s.
  assert (H : Client.isInitialized (initialized env n) = false
              /\ Client.lineraModule (initialized env n) = None
              /\ (Client.initializationAttempted (initialized env n) = true
                  <-> (0 < n)%nat)).
  { induction n as [|n (Hi & Hm & Ha)].
    - cbn. repeat split; auto; [discriminate|lia].
    - change (initialized env (S n))
        with (snd (Client.initializeLinera env (initialized env n))).
      destruct (initializeLinera_unloaded env _ Hi Hm) as (_ & Hi' & Hm' & Ha').
      repeat split; auto. lia. }
  destruct H as (Hi & Hm & Ha).
  destruct (initializeLinera_unloaded env _ Hi Hm) as (Hf & _).
  unfold Client.isLineraAvailable. rewrite Hi. auto.
Qed.

(** The invariant of the connection: the SDK is not loaded, the client is
    as declared, the hook is in demo mode, and it is connected exactly
    when it has a wallet, which is then not one of a real chain. *)
Lemma step_invariant env w ev :
  (Client.isInitialized (Hook.sdk w) = false
   /\ Client.lineraModule (Hook.sdk w) = None
   /\ Hook.lineraClient w = offline
   /\ Hook.usingDemoMode (Hook.state (Hook.session w)) = true
   /\ match Hook.wallet (Hook.state (Hook.session w)) with
      | Some wlt =>
          Hook.isConnected (Hook.state (Hook.session w)) = true
          /\ Hook.isRealBlockchain wlt = false
      | None => Hook.isConnected (Hook.state (Hook.session w)) = false
      end) ->
  let w' := step env w ev in
  Client.isInitialized (Hook.sdk w') = false
  /\ Client.lineraModule (Hook.sdk w') = None
  /\ Hook.lineraClient w' = offline
  /\ Hook.usingDemoMode (Hook.state (Hook.session w')) = true
  /\ match Hook.wallet (Hook.state (Hook.session w')) with
     | Some wlt =>
         Hook.isConnected (Hook.state (Hook.session w')) = true
         /\ Hook.isRealBlockchain wlt = false
     | None => Hook.isConnected (Hook.state (Hook.session w')) = false
     end.
Proof.
  intros (Hi & Hm & Hc & Hd & Hw) w'. subst w'.
  assert (Hsdk : forall b : bool,
            let sdk' :=
              if b then snd (Client.initializeLinera env (Hook.sdk w))
              else Hook.sdk w in
            Client.isInitialized sdk' = false
            /\ Client.lineraModule sdk' = None
            /\ Client.isLineraAvailable sdk' = false).
  { intros b sdk'. subst sdk'.
    destruct (initializeLinera_unloaded env _ Hi Hm) as (_ & Hi' & Hm' & _).
    unfold Client.isLineraAvailable.
    destruct b; [rewrite Hi'|rewrite Hi]; auto. }
  destruct ev as [|rc r1 r2 r3|]; cbn [step].
  - unfold Hook.checkConnection.
    destruct (Hook.initAttempted (Hook.session w)); [auto|].
    destruct (Hsdk (Config.isLineraConfigured env)) as (Hi' & Hm' & Ha').
    cbv zeta in Hi', Hm', Ha'. rewrite Ha'.
    rewrite andb_false_l, andb_false_r.
    destruct (Hook.linera_wallet w);
      cbn [Hook.sdk Hook.lineraClient Hook.session Hook.state
           Hook.signed_in Hook.usingDemoMode Hook.wallet Hook.isConnected
           Hook.isRealBlockchain];
      repeat split; auto.
  - unfold Hook.connect.
    destruct (Hsdk (Config.isLineraConfigured env)) as (Hi' & Hm' & Ha').
    cbv zeta in Hi', Hm', Ha'. rewrite Ha'.
    rewrite !andb_false_r, andb_false_l.
    cbn [Hook.sdk Hook.lineraClient Hook.session Hook.state
         Hook.signed_in Hook.usingDemoMode Hook.wallet Hook.isConnected
         Hook.isRealBlockchain].
    repeat split; auto.
  - unfold Hook.disconnect, Hook.remote. rewrite Hd.
    cbn [negb andb Hook.sdk Hook.lineraClient Hook.session Hook.state
         Hook.usingDemoMode Hook.wallet Hook.isConnected].
    repeat split; auto.
Qed.

Lemma steps_invariant env events : forall w,
  (Client.isInitialized (Hook.sdk w) = false
   /\ Client.lineraModule (Hook.sdk w) = None
   /\ Hook.lineraClient w = offline
   /\ Hook.usingDemoMode (Hook.state (Hook.session w)) = true
   /\ match Hook.wallet (Hook.state (Hook.session w)) with
      | Some wlt =>
          Hook.isConnected (Hook.state (Hook.session w)) = true
          /\ Hook.isRealBlockchain wlt = false
      | None => Hook.isConnected (Hook.state (Hook.session w)) = false
      end) ->
  let w' := steps env events w in
  Client.isInitialized (Hook.sdk w') = false
  /\ Client.lineraModule (Hook.sdk w') = None
  /\ Hook.lineraClient w' = offline
  /\ Hook.usingDemoMode (Hook.state (Hook.session w')) = true
  /\ match Hook.wallet (Hook.state (Hook.session w')) with
     | Some wlt =>
         Hook.isConnected (Hook.state (Hook.session w')) = true
         /\ Hook.isRealBlockchain wlt = false
     | None => Hook.isConnected (Hook.state (Hook.session w')) = false
     end.
Proof.
  induction events as [|ev events IH]; intros w H; [exact H|].
  change (steps env (ev :: events) w) with (steps env events (step env w ev)).
  apply IH. now apply step_invariant.
Qed.

Lemma freshWorld_invariant saved :
  let w := freshWorld saved in
  Client.isInitialized (Hook.sdk w) = false
  /\ Client.lineraModule (Hook.sdk w) = None
  /\ Hook.lineraClient w = offline
  /\ Hook.usingDemoMode (Hook.state (Hook.session w)) = true
  /\ match Hook.wallet (Hook.state (Hook.session w)) with
     | Some wlt =>
         Hook.isConnected (Hook.state (Hook.session w)) = true
         /\ Hook.isRealBlockchain wlt = false
     | None => Hook.isConnected (Hook.state (Hook.session w)) = false
     end.
Proof. cbn. repeat split. Qed.

(** X21.  The hook never leaves demo mode.  From a page that has just
    been loaded, whatever is saved under [linera-wallet], whatever the
    configuration and whatever [lineraClient.connect()] would answer,
    after any sequence of mounts, connects and disconnects
    [usingDemoMode] is [true], no operation is sent to the remote
    client, which is never connected, and the hook is connected exactly
    when it has a wallet, which is then not marked as one of a real
    chain. *)
Theorem hook_stays_in_demo_mode env events saved :
  let w := steps env events (freshWorld saved) in
  let h := Hook.state (Hook.session w) in
  Hook.usingDemoMode h = true
  /\ Hook.remote h (Hook.lineraClient w) = false
  /\ Client.isConnected (Hook.lineraClient w) = false
  /\ (Hook.isConnected h = true <-> Hook.wallet h <> None)
  /\ (forall wlt, Hook.wallet h = Some wlt ->
        Hook.isRealBlockchain wlt = false).
Proof.
  intros w h. subst w h.
  destruct (steps_invariant env events (freshWorld saved)
              (freshWorld_invariant saved)) as (_ & _ & Hc & Hd & Hw).
  cbv zeta in Hc, Hd, Hw.
  unfold Hook.remote. rewrite Hd, Hc.
  split; [reflexivity|]. split; [reflexivity|]. split; [reflexivity|].
  destruct (Hook.wallet _) as [wlt|].
  - destruct Hw as [Hw1 Hw2]. split.
    + rewrite Hw1. split; [discriminate|reflexivity].
    + intros ? [= <-]. exact Hw2.
  - split.
    + rewrite Hw. split; [discriminate|congruence].
    + discriminate.
Qed.

Lemma checkConnection_fresh env saved :
  Hook.state (Hook.session (Hook.checkConnection env (freshWorld saved)))
  = match saved with
    | Json parsed =>
        {| Hook.isConnected := true;
           Hook.wallet :=
             Some {| Hook.address := Hook.address parsed;
                     Hook.chainId := Hook.chainId parsed;
                     Hook.isRealBlockchain := false |};
           Hook.usingDemoMode := true |}
    | _ => Hook.state Hook.initialSession
    end
  /\ Hook.linera_wallet (Hook.checkConnection env (freshWorld saved))
     = match saved with
       | Json parsed => saved
       | _ => Absent
       end.
Proof.
  unfold freshWorld, Hook.checkConnection.
  cbn [Hook.session Hook.initialSession Hook.initAttempted Hook.sdk
       Hook.lineraClient Hook.linera_wallet].
  assert (Hfresh : forall b : bool,
            Client.isLineraAvailable
              (if b
               then snd (Client.initializeLinera env Client.initialSdk)
               else Client.initialSdk)
            = false).
  { intros b.
    destruct (initializeLinera_unloaded env Client.initialSdk eq_refl eq_refl)
      as (_ & Hi' & _).
    unfold Client.isLineraAvailable.
    destruct b; [rewrite Hi'|]; reflexivity. }
  rewrite Hfresh, andb_false_l, andb_false_r.
  destruct saved; split; reflexivity.
Qed.

(** X22.  The demo wallet survives a reload and a disconnect removes it.
    After [connect] the hook holds the mock wallet made of the random
    texts and has saved it; when the page is loaded again the mount
    effect restores the same wallet and the hook is connected.  After
    [disconnect] nothing is saved, and a page loaded again stays
    disconnected. *)
Theorem wallet_survives_reload env events saved remoteConnect r1 r2 r3 :
  let w :=
    Hook.connect env remoteConnect r1 r2 r3
      (steps env events (freshWorld saved)) in
  Hook.wallet (Hook.state (Hook.session w)) = Some (mockWallet r1 r2 r3)
  /\ Hook.isConnected (Hook.state (Hook.session w)) = true
  /\ Hook.isConnecting (Hook.session w) = false
  /\ Hook.linera_wallet w = Json (mockWallet r1 r2 r3)
  /\ Hook.state (Hook.session (Hook.checkConnection env (reload w)))
     = Hook.state (Hook.session w)
  /\ Hook.linera_wallet (Hook.disconnect w) = Absent
  /\ Hook.state
       (Hook.session (Hook.checkConnection env (reload (Hook.disconnect w))))
     = Hook.state Hook.initialSession.
Proof.
  intros w.
  destruct (steps_invariant env events (freshWorld saved)
              (freshWorld_invariant saved)) as (Hi & Hm & _).
  cbv zeta in Hi, Hm.
  assert (Hav : forall b : bool,
            Client.isLineraAvailable
              (if b
               then snd (Client.initializeLinera env
                           (Hook.sdk (steps env events (freshWorld saved))))
               else Hook.sdk (steps env events (freshWorld saved)))
            = false).
  { intros b.
    destruct (initializeLinera_unloaded env _ Hi Hm) as (_ & Hi' & _).
    unfold Client.isLineraAvailable.
    destruct b; [rewrite Hi'|rewrite Hi]; reflexivity. }
  assert (Ew : w = {| Hook.session :=
                        Hook.signed_in (mockWallet r1 r2 r3) true
                          {| Hook.state :=
                               Hook.state
                                 (Hook.session
                                    (steps env events (freshWorld saved)));
                             Hook.isConnecting := false;
                             Hook.error := None;
                             Hook.initAttempted :=
                               Hook.initAttempted
                                 (Hook.session
                                    (steps env events (freshWorld saved))) |};
                      Hook.sdk :=
                        if Config.isLineraConfigured env
                        then snd (Client.initializeLinera env
                                    (Hook.sdk
                                       (steps env events (freshWorld saved))))
                        else Hook.sdk (steps env events (freshWorld saved));
                      Hook.lineraClient :=
                        Hook.lineraClient
                          (steps env events (freshWorld saved));
                      Hook.linera_wallet := Json (mockWallet r1 r2 r3) |}).
  { subst w. unfold Hook.connect. rewrite Hav.
    rewrite !andb_false_r, andb_false_l. reflexivity. }
  rewrite Ew. clear Ew w.
  cbn [Hook.session Hook.state Hook.signed_in Hook.wallet Hook.isConnected
       Hook.isConnecting Hook.linera_wallet Hook.disconnect].
  repeat (split; [reflexivity|]).
  unfold reload. cbn [Hook.linera_wallet Hook.disconnect].
  rewrite (proj1 (checkConnection_fresh env (Json (mockWallet r1 r2 r3)))).
  rewrite (proj1 (checkConnection_fresh env Absent)).
  repeat split.
Qed.

(** X23.  The mount effect restores a saved wallet once.  On a page that
    has just been loaded, a wallet saved under [linera-wallet] connects
    the hook in demo mode with the saved address and chain, never marked
    as one of a real chain; a text that does not parse is removed and the
    hook stays disconnected, as it does when nothing is saved.  A second
    run of the effect changes nothing. *)
Theorem mount_restores_saved_wallet env saved :
  let w := Hook.checkConnection env (freshWorld saved) in
  match saved with
  | Json parsed =>
      Hook.state (Hook.session w)
      = {| Hook.isConnected := true;
           Hook.wallet :=
             Some {| Hook.address := Hook.address parsed;
                     Hook.chainId := Hook.chainId parsed;
                     Hook.isRealBlockchain := false |};
           Hook.usingDemoMode := true |}
      /\ Hook.linera_wallet w = saved
  | _ =>
      Hook.state (Hook.session w) = Hook.state Hook.initialSession
      /\ Hook.linera_wallet w = Absent
  end
  /\ forall w0,
       Hook.checkConnection env (Hook.checkConnection env w0)
       = Hook.checkConnection env w0.
Proof.
  intros w. subst w. split.
  - destruct (checkConnection_fresh env saved) as [E1 E2].
    destruct saved; auto.
  - intros w0. unfold Hook.checkConnection at 1.
    assert (H : Hook.initAttempted
                  (Hook.session (Hook.checkConnection env w0)) = true).
    { unfold Hook.checkConnection.
      destruct (Hook.initAttempted (Hook.session w0)) eqn:E; [exact E|].
      destruct (_ && _); [reflexivity|].
      destruct (Hook.linera_wallet w0); reflexivity. }
    now rewrite H.
Qed.

(** X24.  Without a wallet nothing is recorded.  When the hook is not
    connected or has no wallet, each of the seven operations that write
    returns its failure value and leaves [localStorage] as it was,
    whether or not a remote client is connected, and, without an address
    given, the profile is [null] and the snake high score [0].  This is
    the state [disconnect] leaves the hook in. *)
Theorem operations_need_a_wallet h c ls :
  Hook.isConnected h = false \/ Hook.wallet h = None ->
  (forall score, Hook.submitSnakeScore h c score ls = (false, ls))
  /\ (forall won, Hook.submitTicTacToeResult h c won ls = (false, ls))
  /\ (forall won position,
        Hook.submitSnakeLaddersResult h c won position ls = (false, ls))
  /\ (forall won, Hook.submitUnoResult h c won ls = (false, ls))
  /\ (forall username avatarId,
        Hook.updateProfile h c username avatarId ls = (false, ls))
  /\ (forall gameType maxPlayers fee random now,
        Hook.createRoom h c gameType maxPlayers fee random now ls
        = (None, ls))
  /\ (forall roomId, Hook.joinRoom h c roomId ls = (false, ls))
  /\ (Hook.wallet h = None ->
      Hook.getUserProfile h c None ls = None
      /\ Hook.getSnakeHighScore h c None ls = 0)
  /\ forall w,
       Hook.isConnected (Hook.state (Hook.session (Hook.disconnect w)))
       = false
       /\ Hook.wallet (Hook.state (Hook.session (Hook.disconnect w))) = None.
Proof.
  intros H.
  unfold Hook.submitSnakeScore, Hook.submitTicTacToeResult,
    Hook.submitSnakeLaddersResult, Hook.submitUnoResult, Hook.updateProfile,
    Hook.createRoom, Hook.joinRoom, Hook.getUserProfile,
    Hook.getSnakeHighScore, Hook.targetAddress_of.
  destruct H as [-> | ->].
  - repeat split; try reflexivity; rewrite H; reflexivity.
  - destruct (Hook.isConnected h); repeat split; reflexivity.
Qed.

Lemma operations_need_a_wallet_witness :
  (Hook.isConnected (Hook.state Hook.initialSession) = false
   \/ Hook.wallet (Hook.state Hook.initialSession) = None)
  /\ Hook.submitSnakeScore (Hook.state Hook.initialSession) failing 25
       sampleStore = (false, sampleStore).
Proof.
  assert (H : Hook.isConnected (Hook.state Hook.initialSession) = false
              \/ Hook.wallet (Hook.state Hook.initialSession) = None)
    by (left; reflexivity).
  split; [exact H|].
  exact (proj1 (operations_need_a_wallet (Hook.state Hook.initialSession)
                  failing sampleStore H) 25).
Defined.

(** ** The snake game *)

Lemma same_eq p q : SnakeGame.same p q = true <-> p = q.
Proof.
  unfold SnakeGame.same. rewrite andb_true_iff, !Z.eqb_eq.
  destruct p, q; cbn. split; [intros [-> ->]; reflexivity|].
  intros [= -> ->]. auto.
Qed.

Lemma hits_In p s : SnakeGame.hits p s = false -> ~ In p s.
Proof.
  unfold SnakeGame.hits. intros H Hin.
  assert (Ht : existsb (fun segment => SnakeGame.same segment p) s = true).
  { apply existsb_exists. exists p. split; [exact Hin|]. now apply same_eq. }
  congruence.
Qed.

Lemma NoDup_removelast (A : Type) (l : list A) :
  NoDup l -> NoDup (removelast l).
Proof.
  induction l as [|a l IH]; [auto|].
  intros H. inversion H as [|? ? Ha Hl]; subst.
  cbn [removelast]. destruct l as [|b l]; [constructor|].
  constructor; [|auto].
  intros Hin. apply Ha.
  clear -Hin. revert Hin. generalize (b :: l). intros k.
  induction k as [|c k IHk]; cbn [removelast]; [auto|].
  destruct k; [intros []|]. intros [-> | Hin]; [now left|right; auto].
Qed.

Lemma In_removelast (A : Type) (l : list A) (a : A) :
  In a (removelast l) -> In a l.
Proof.
  induction l as [|c k IHk]; cbn [removelast]; [auto|].
  destruct k; [intros []|]. intros [-> | Hin]; [now left|right; auto].
Qed.

Lemma removelast_length (A : Type) (a : A) (l : list A) :
  List.length (removelast (a :: l)) = List.length l.
Proof.
  revert a. induction l as [|b l IH]; intros a; [reflexivity|].
  change (removelast (a :: b :: l)) with (a :: removelast (b :: l)).
  cbn [List.length]. now rewrite IH.
Qed.

Lemma initial_board_ok saved hook : board_ok (SnakeGame.initial saved hook).
Proof.
  unfold board_ok, segments. cbn.
  repeat split; try discriminate; try lia.
  - repeat constructor; cbn; lia.
  - repeat constructor. intros [].
Qed.

Lemma resetGame_board_ok newFood g : board_ok (SnakeGame.resetGame newFood g).
Proof.
  unfold board_ok, segments. cbn.
  repeat split; try discriminate; try lia.
  - repeat constructor; cbn; lia.
  - repeat constructor. intros [].
Qed.

Lemma with_gameState_board_ok p g :
  board_ok g -> board_ok (SnakeGame.with_gameState p g).
Proof. auto. Qed.

Lemma handleGameOver_board_ok s now g :
  board_ok g -> board_ok (SnakeGame.handleGameOver s now g).
Proof. auto. Qed.

Lemma startGame_board_ok newFood g :
  board_ok g -> board_ok (SnakeGame.startGame newFood g).
Proof.
  intros H. unfold SnakeGame.startGame.
  destruct (SnakeGame.gameState g); auto using resetGame_board_ok,
    with_gameState_board_ok.
Qed.

Lemma moveSnake_board_ok newFood now g :
  board_ok g -> board_ok (SnakeGame.moveSnake newFood now g).
Proof.
  intros H. unfold SnakeGame.moveSnake.
  destruct (SnakeGame.gameState g); try exact H.
  destruct (SnakeGame.snake g) as [|head tail] eqn:Es; [exact H|].
  set (newHead := SnakeGame.ahead (SnakeGame.direction g) head).
  destruct (((SnakeGame.x newHead <? 0)
             || (SnakeGame.x newHead >=? SnakeGame.GRID_SIZE)
             || (SnakeGame.y newHead <? 0)
             || (SnakeGame.y newHead >=? SnakeGame.GRID_SIZE))%bool) eqn:Ew;
    [now apply handleGameOver_board_ok|].
  destruct (SnakeGame.hits newHead (head :: tail)) eqn:Eh;
    [now apply handleGameOver_board_ok|].
  apply hits_In in Eh.
  assert (Hin : inside newHead).
  { apply orb_false_iff in Ew. destruct Ew as [Ew E4].
    apply orb_false_iff in Ew. destruct Ew as [Ew E3].
    apply orb_false_iff in Ew. destruct Ew as [E1 E2].
    unfold inside.
    destruct (Z.ltb_spec (SnakeGame.x newHead) 0); [discriminate|].
    destruct (Z.geb_spec (SnakeGame.x newHead) SnakeGame.GRID_SIZE);
      [discriminate|].
    destruct (Z.ltb_spec (SnakeGame.y newHead) 0); [discriminate|].
    destruct (Z.geb_spec (SnakeGame.y newHead) SnakeGame.GRID_SIZE);
      [discriminate|].
    lia. }
  destruct H as (_ & Hf & Hnd & Hs & Hv).
  unfold segments in *. rewrite Es in *.
  destruct (SnakeGame.same newHead (SnakeGame.food g)).
  - unfold board_ok, segments.
    cbn [SnakeGame.snake SnakeGame.score SnakeGame.speed].
    split; [discriminate|].
    split; [now constructor|].
    split; [now constructor|].
    rewrite Hs, Hv. cbn [List.length] in *. split; lia.
  - unfold board_ok, segments.
    cbn [SnakeGame.snake SnakeGame.score SnakeGame.speed].
    rewrite removelast_length.
    split; [cbn [removelast]; discriminate|].
    split.
    + apply Forall_forall. intros p Hp. apply In_removelast in Hp.
      assert (Hall : Forall inside (newHead :: head :: tail))
        by now constructor.
      rewrite Forall_forall in Hall. now apply Hall.
    + split; [apply NoDup_removelast; now constructor|].
      split; assumption.
Qed.

Lemma react_board_ok g ev : board_ok g -> board_ok (react g ev).
Proof.
  intros H. destruct ev as [f now|code f|d|f| |f]; cbn [react].
  - now apply moveSnake_board_ok.
  - unfold SnakeGame.handleKeyDown, SnakeGame.pauseGame.
    destruct (SnakeGame.gameState g) eqn:Eg;
      repeat match goal with
      | |- context [if ?b then _ else _] => destruct b
      | |- context [match SnakeGame.keyDirection ?c with _ => _ end] =>
          destruct (SnakeGame.keyDirection c)
      end;
      auto using startGame_board_ok.
  - unfold SnakeGame.handleDirectionClick.
    destruct (SnakeGame.gameState g); auto.
    destruct (SnakeGame.Direction_eqb _ _); auto.
  - now apply startGame_board_ok.
  - unfold SnakeGame.pauseGame. destruct (SnakeGame.gameState g); auto.
  - apply resetGame_board_ok.
Qed.

Lemma playGame_board_ok events : forall g,
  board_ok g -> board_ok (playGame events g).
Proof.
  induction events as [|ev events IH]; intros g H; [exact H|].
  apply IH. now apply react_board_ok.
Qed.

Lemma cells_length : List.length cells = 400%nat.
Proof. reflexivity. Qed.

Lemma inside_cells p : inside p -> In p cells.
Proof.
  unfold inside, SnakeGame.GRID_SIZE, cells. intros [Hx Hy].
  apply in_map_iff. exists (SnakeGame.x p, SnakeGame.y p).
  split; [destruct p; reflexivity|].
  apply in_prod; apply in_map_iff.
  - exists (Z.to_nat (SnakeGame.x p)). split; [lia|]. apply in_seq. lia.
  - exists (Z.to_nat (SnakeGame.y p)). split; [lia|]. apply in_seq. lia.
Qed.

(** X25.  The board of the snake game stays in order.  From the state on
    mount, whatever ticks, keys and buttons follow, the snake has a head,
    every segment lies on the 20 by 20 board, no two segments share a
    cell, the score is ten times the number of segments after the first,
    and the interval of the game loop is [max 50 (150 - 2 * (segments -
    1))]; so the snake has at most 400 segments and the score never
    exceeds 3990. *)
Theorem snake_board_in_order saved hook events :
  let g := playGame events (SnakeGame.initial saved hook) in
  SnakeGame.snake g <> []
  /\ Forall inside (SnakeGame.snake g)
  /\ NoDup (SnakeGame.snake g)
  /\ SnakeGame.score g = 10 * (segments g - 1)
  /\ SnakeGame.speed g = Z.max 50 (150 - 2 * (segments g - 1))
  /\ 50 <= SnakeGame.speed g <= 150
  /\ 1 <= segments g <= 400
  /\ 0 <= SnakeGame.score g <= 3990.
Proof.
  intros g.
  destruct (playGame_board_ok events _ (initial_board_ok saved hook))
    as (Hne & Hf & Hnd & Hs & Hv).
  fold g in Hne, Hf, Hnd, Hs, Hv.
  assert (Hl : 1 <= segments g <= 400).
  { unfold segments. split.
    - destruct (SnakeGame.snake g); [congruence|cbn [List.length]; lia].
    - assert (H : (List.length (SnakeGame.snake g) <= List.length cells)%nat).
      { apply NoDup_incl_length; [exact Hnd|].
        intros p Hp. apply inside_cells.
        rewrite Forall_forall in Hf. now apply Hf. }
      rewrite cells_length in H. lia. }
  repeat split; try assumption; lia.
Qed.

(** ** The snake game and the achievements *)

Lemma known_catalogue l i :
  shaped l -> known l i = known ALL_ACHIEVEMENTS i.
Proof. intros H. apply known_ids. now apply shaped_ids. Qed.

Lemma snake_checks newStats s i n :
  In (i, n) snakeGoals ->
  holds (checkAchievements newStats (Some (SnakeGame.scoreData s))) i
  = (Achievements.snakeHighScore newStats >=? n).
Proof.
  intros Hin. cbn in Hin.
  destruct Hin as [[= <- <-] | [[= <- <-] | [[= <- <-] | [[= <- <-] | []]]]];
    unfold checkAchievements, holds; cbn;
    now rewrite ?orb_false_r.
Qed.

Lemma first_win_check newStats s :
  holds (checkAchievements newStats (Some (SnakeGame.scoreData s)))
    "first_win"
  = (totalWins newStats >=? 1).
Proof. unfold checkAchievements, holds. cbn. now rewrite ?orb_false_r. Qed.

Lemma geb_leb a b : (a >=? b) = (b <=? a).
Proof. apply Z.geb_leb. Qed.

Lemma handleGameOver_records_ok s now g :
  0 <= s -> records_ok g -> records_ok (SnakeGame.handleGameOver s now g).
Proof.
  intros Hs (Hsh & H0 & Hhs & Hkey & Hw & Htw & Hfw & Hgoals).
  cbv zeta in *.
  set (hook := SnakeGame.achievements g) in *.
  set (H := SnakeGame.highScore g) in *.
  unfold records_ok.
  cbn [SnakeGame.handleGameOver SnakeGame.achievements SnakeGame.highScore
       SnakeGame.snake_highscore].
  fold hook H.
  set (isNew := s >? H).
  destruct (trackGamePlayed_fold "snake" isNew
              (Some (SnakeGame.scoreData s)) now hook)
    as (_ & E2 & E3 & _). cbv zeta in E2, E3.
  destruct (processUnlock_fold_spec now
              (checkAchievements
                 (updateStats "snake" isNew (Some (SnakeGame.scoreData s))
                    (stats hook))
                 (Some (SnakeGame.scoreData s)))
              (achievements hook) [] (shaped_NoDup _ Hsh)) as (U & _).
  cbv zeta in U. rewrite <- E2 in U.
  set (st' := snd (trackGamePlayed "snake" isNew
                     (Some (SnakeGame.scoreData s)) now hook)) in *.
  set (ns := updateStats "snake" isNew (Some (SnakeGame.scoreData s))
               (stats hook)) in *.
  rewrite E3.
  assert (Ehs : Achievements.snakeHighScore ns = if isNew then s else H).
  { subst ns. unfold updateStats.
    cbn [Achievements.snakeHighScore SnakeGame.scoreData extra_score].
    rewrite Hhs. subst isNew. cbn [String.eqb Ascii.eqb Bool.eqb andb].
    destruct (Z.eqb_spec s 0) as [-> | Hne]; cbn [negb].
    - destruct (Z.gtb_spec 0 H); [lia|reflexivity].
    - reflexivity. }
  assert (Etw : totalWins ns
                = if isNew then totalWins (stats hook) + 1
                  else totalWins (stats hook)).
  { reflexivity. }
  assert (Hnew : isNew = true -> H < s)
    by (subst isNew; intros E; now apply Z.gtb_lt in E).
  assert (Hold : isNew = false -> s <= H).
  { subst isNew. intros E. destruct (Z.gtb_spec s H); [discriminate|lia]. }
  split; [now apply trackGamePlayed_shaped|].
  split; [destruct isNew; [specialize (Hnew eq_refl)|]; lia|].
  split; [exact Ehs|].
  split.
  { destruct isNew; [|exact Hkey]. specialize (Hnew eq_refl).
    destruct (Z.eqb_spec s 0); [lia|reflexivity]. }
  split.
  { rewrite Etw. destruct isNew; [|exact Hw]. specialize (Hnew eq_refl).
    destruct (Z.leb_spec 1 (totalWins (stats hook) + 1));
      destruct (Z.ltb_spec 0 s); try reflexivity; lia. }
  split; [rewrite Etw; destruct isNew; lia|].
  split.
  { rewrite U, Hfw, first_win_check, (known_catalogue _ _ Hsh).
    change (known ALL_ACHIEVEMENTS "first_win") with true.
    cbn [andb]. rewrite Etw, geb_leb.
    destruct isNew; [specialize (Hnew eq_refl)|specialize (Hold eq_refl)].
    - destruct (Z.ltb_spec 0 H); destruct (Z.ltb_spec 0 s);
        destruct (Z.leb_spec 1 (totalWins (stats hook) + 1));
        cbn; try reflexivity; lia.
    - rewrite Hw. destruct (0 <? H); reflexivity. }
  intros i n Hin.
  rewrite U, (Hgoals i n Hin), (snake_checks _ s i n Hin),
    (known_catalogue _ _ Hsh), Ehs, geb_leb.
  assert (Hk : known ALL_ACHIEVEMENTS i = true).
  { cbn in Hin.
    destruct Hin as [[= <- <-] | [[= <- <-] | [[= <- <-] | [[= <- <-] | []]]]];
      reflexivity. }
  rewrite Hk. cbn [andb].
  destruct isNew; [specialize (Hnew eq_refl)|apply orb_diag].
  destruct (Z.leb_spec n H); destruct (Z.leb_spec n s);
    cbn; try reflexivity; lia.
Qed.

Lemma initial_records_ok : records_ok (SnakeGame.initial None (load None)).
Proof.
  unfold records_ok. cbv zeta.
  cbn [SnakeGame.initial SnakeGame.achievements SnakeGame.highScore
       SnakeGame.snake_highscore].
  split; [apply load_shaped|].
  repeat split; try reflexivity; try lia.
  intros i n Hin. cbn in Hin.
  destruct Hin as [[= <- <-] | [[= <- <-] | [[= <- <-] | [[= <- <-] | []]]]];
    reflexivity.
Qed.

Lemma react_records_ok g ev :
  board_ok g -> records_ok g -> records_ok (react g ev).
Proof.
  intros Hb Hr.
  assert (Hs : 0 <= SnakeGame.score g).
  { destruct Hb as (Hne & _ & _ & Hs & _). rewrite Hs. unfold segments.
    destruct (SnakeGame.snake g); [congruence|cbn [List.length]; lia]. }
  destruct ev as [f now|code f|d|f| |f]; cbn [react].
  - unfold SnakeGame.moveSnake.
    destruct (SnakeGame.gameState g); try exact Hr.
    destruct (SnakeGame.snake g) as [|head tail]; [exact Hr|].
    cbv zeta.
    destruct (_ || _ || _ || _)%bool;
      [now apply handleGameOver_records_ok|].
    destruct (SnakeGame.hits _ _); [now apply handleGameOver_records_ok|].
    destruct (SnakeGame.same _ _); exact Hr.
  - unfold SnakeGame.handleKeyDown, SnakeGame.pauseGame, SnakeGame.startGame.
    destruct (SnakeGame.gameState g) eqn:Eg;
      repeat match goal with
      | |- context [if ?b then _ else _] => destruct b
      | |- context [match SnakeGame.keyDirection ?c with _ => _ end] =>
          destruct (SnakeGame.keyDirection c)
      end;
      exact Hr.
  - unfold SnakeGame.handleDirectionClick.
    destruct (SnakeGame.gameState g); try exact Hr.
    destruct (SnakeGame.Direction_eqb _ _); exact Hr.
  - unfold SnakeGame.startGame. destruct (SnakeGame.gameState g); exact Hr.
  - unfold SnakeGame.pauseGame. destruct (SnakeGame.gameState g); exact Hr.
  - exact Hr.
Qed.

Lemma playGame_records_ok events : forall g,
  board_ok g -> records_ok g -> records_ok (playGame events g).
Proof.
  induction events as [|ev events IH]; intros g Hb Hr; [exact Hr|].
  apply IH; [now apply react_board_ok|now apply react_records_ok].
Qed.

(** X26.  The snake game and the achievements keep the same record.  In
    a game that starts with no saved high score and with the initial
    achievements, a game that ends counts as won for [trackGamePlayed]
    exactly when its score beats the high score; so, whatever is played,
    the high score of the component is the [snakeHighScore] of the
    statistics, it is saved under [snake-highscore] once it is positive,
    [first_win] is unlocked exactly when it is positive, and [snake_50],
    [snake_100], [snake_200] and [snake_500] are unlocked exactly when it
    has reached 50, 100, 200 and 500. *)
Theorem snake_records_and_achievements events :
  let g := playGame events (SnakeGame.initial None (load None)) in
  let hook := SnakeGame.achievements g in
  0 <= SnakeGame.highScore g
  /\ Achievements.snakeHighScore (stats hook) = SnakeGame.highScore g
  /\ SnakeGame.snake_highscore g
     = (if SnakeGame.highScore g =? 0 then None
        else Some (SnakeGame.highScore g))
  /\ unlockedIn (achievements hook) "first_win"
     = (0 <? SnakeGame.highScore g)
  /\ unlockedIn (achievements hook) "snake_50"
     = (50 <=? SnakeGame.highScore g)
  /\ unlockedIn (achievements hook) "snake_100"
     = (100 <=? SnakeGame.highScore g)
  /\ unlockedIn (achievements hook) "snake_200"
     = (200 <=? SnakeGame.highScore g)
  /\ unlockedIn (achievements hook) "snake_500"
     = (500 <=? SnakeGame.highScore g)
  /\ forall finalScore now,
       SnakeGame.highScore (SnakeGame.handleGameOver finalScore now g)
       = Z.max (SnakeGame.highScore g) finalScore
       /\ totalWins
            (stats (SnakeGame.achievements
                      (SnakeGame.handleGameOver finalScore now g)))
          = totalWins (stats hook)
            + (if finalScore >? SnakeGame.highScore g then 1 else 0).
Proof.
  intros g hook.
  destruct (playGame_records_ok events _ (initial_board_ok None (load None))
              initial_records_ok)
    as (_ & H0 & Hhs & Hkey & _ & _ & Hfw & Hgoals).
  cbv zeta in Hhs, Hfw, Hgoals. fold g in H0, Hhs, Hkey, Hfw, Hgoals.
  fold hook in Hhs, Hfw, Hgoals.
  split; [exact H0|]. split; [exact Hhs|]. split; [exact Hkey|].
  split; [exact Hfw|].
  split; [apply Hgoals; cbn; tauto|].
  split; [apply Hgoals; cbn; tauto|].
  split; [apply Hgoals; cbn; tauto|].
  split; [apply Hgoals; cbn; tauto|].
  intros finalScore now. split.
  - cbn [SnakeGame.handleGameOver SnakeGame.highScore].
    destruct (Z.gtb_spec finalScore (SnakeGame.highScore g)); lia.
  - cbn [SnakeGame.handleGameOver SnakeGame.achievements].
    rewrite trackGamePlayed_stats. fold hook.
    unfold updateStats. cbn [totalWins].
    destruct (finalScore >? SnakeGame.highScore g); lia.
Qed.

(** ** The limit of the leaderboard *)

Lemma firstn_min_length (A : Type) (l : list A) (a : nat) :
  firstn (Nat.min a (List.length l)) l = firstn a l.
Proof.
  destruct (Nat.le_ge_cases a (List.length l)) as [H | H].
  - now rewrite Nat.min_l.
  - rewrite Nat.min_r by exact H. rewrite firstn_all.
    symmetry. now apply firstn_all2.
Qed.

Lemma slice0_firstn (A : Type) (l : list A) (k : Z) :
  0 <= k -> JS.slice0 l k = firstn (Z.to_nat k) l.
Proof.
  intros Hk. unfold JS.slice0.
  destruct (Z.ltb_spec k 0); [lia|].
  rewrite <- (firstn_min_length A l (Z.to_nat k)). f_equal. lia.
Qed.

Lemma mapi_from_firstn (A B : Type) (f : A -> Z -> B) (l : list A) :
  forall i n,
    Hook.mapi_from f i (firstn n l) = firstn n (Hook.mapi_from f i l).
Proof.
  induction l as [|x l IH]; intros i n.
  - now rewrite !firstn_nil.
  - destruct n; [reflexivity|].
    cbn [firstn Hook.mapi_from]. now rewrite IH.
Qed.

(** X27.  The limit of [getLeaderboard] cuts a ranking that does not
    depend on it.  In demo mode, whatever the store holds, the list for a
    limit [k >= 0] is the list of the first [k] entries of the list for
    any larger limit, ranks included, so raising the limit only adds
    entries at the end; and leaving the limit out is asking for 10. *)
Theorem leaderboard_top_k h c gameType k n ls :
  Hook.remote h c = false -> 0 <= k <= n ->
  Hook.getLeaderboard h c gameType (Some k) ls
  = firstn (Z.to_nat k) (Hook.getLeaderboard h c gameType (Some n) ls)
  /\ Hook.getLeaderboard h c gameType None ls
     = Hook.getLeaderboard h c gameType (Some 10) ls.
Proof.
  intros Hr Hk. split; [|reflexivity].
  assert (Hmin : Nat.min (Z.to_nat k) (Z.to_nat n) = Z.to_nat k) by lia.
  destruct (all_readable_dec ls) as [Ha | Hn].
  - rewrite !(getLeaderboard_demo h c gameType _ ls Hr Ha).
    cbn [JS.obj_or].
    destruct (Z.of_nat (List.length (board gameType ls)) =? 0).
    + unfold Hook.generateDemoLeaderboard.
      rewrite !slice0_firstn by lia.
      rewrite <- mapi_from_firstn, firstn_firstn, Hmin. reflexivity.
    + rewrite !slice0_firstn by lia.
      now rewrite firstn_firstn, Hmin.
  - rewrite !(getLeaderboard_unreadable h c gameType _ ls Hr Hn).
    cbn [JS.obj_or]. unfold Hook.generateDemoLeaderboard.
    rewrite !slice0_firstn by lia.
    rewrite <- mapi_from_firstn, firstn_firstn, Hmin. reflexivity.
Qed.

Lemma leaderboard_top_k_witness :
  Hook.remote demoHook offline = false
  /\ 0 <= 2 <= 3
  /\ Hook.getLeaderboard demoHook offline "snake" (Some 2) threePlayers
     = firstn (Z.to_nat 2)
         (Hook.getLeaderboard demoHook offline "snake" (Some 3) threePlayers).
Proof.
  split; [reflexivity|]. split; [lia|].
  exact (proj1 (leaderboard_top_k demoHook offline "snake" 2 3 threePlayers
                  eq_refl ltac:(lia))).
Defined.

(** ** The hash of a name *)

Lemma to_int32_congr a b :
  a mod 2 ^ 32 = b mod 2 ^ 32 -> JS.to_int32 a = JS.to_int32 b.
Proof.
  intros H. unfold JS.to_int32. f_equal.
  rewrite (Z.add_mod a), (Z.add_mod b) by lia. now rewrite H.
Qed.

Lemma to_int32_mod z : JS.to_int32 z mod 2 ^ 32 = z mod 2 ^ 32.
Proof.
  unfold JS.to_int32.
  rewrite <- Zminus_mod_idemp_l. rewrite Z.mod_mod by lia.
  rewrite Zminus_mod_idemp_l. f_equal. lia.
Qed.

Lemma to_int32_fixed z : - 2 ^ 31 <= z < 2 ^ 31 -> JS.to_int32 z = z.
Proof.
  intros H. unfold JS.to_int32. rewrite Z.mod_small; lia.
Qed.

Lemma hash_step h h' c :
  h mod 2 ^ 32 = h' mod 2 ^ 32 ->
  JS.to_int32 (JS.to_int32 (h * 2 ^ 5) - h + c) mod 2 ^ 32
  = (31 * h' + c) mod 2 ^ 32.
Proof.
  intros H. rewrite to_int32_mod.
  rewrite Z.add_mod by lia. rewrite Zminus_mod by lia.
  rewrite to_int32_mod.
  rewrite <- Zminus_mod by lia. rewrite <- Z.add_mod by lia.
  replace (h * 2 ^ 5 - h + c) with (31 * h + c)
    by (change (2 ^ 5) with 32; lia).
  rewrite Z.add_mod by lia. rewrite Z.mul_mod by lia. rewrite H.
  rewrite <- Z.mul_mod by lia. rewrite <- Z.add_mod by lia. reflexivity.
Qed.

(** X28.  The truncations inside [hashCode] do not matter: the hash of a
    text is the absolute value of the 32-bit wrap of the exact polynomial
    [c1 * 31^(n-1) + ... + cn] of its character codes, the hash Java
    gives a string. *)
Theorem hashCode_polynomial s :
  Hook.hashCode s = Z.abs (JS.to_int32 (polynomial31 (JS.charCodes s))).
Proof.
  unfold Hook.hashCode, polynomial31. f_equal.
  set (F := fun hash char =>
              JS.to_int32 (JS.to_int32 (hash * 2 ^ 5) - hash + char)).
  set (G := fun hash char => 31 * hash + char).
  assert (H : forall l a a',
            a mod 2 ^ 32 = a' mod 2 ^ 32 -> - 2 ^ 31 <= a < 2 ^ 31 ->
            fold_left F l a mod 2 ^ 32 = fold_left G l a' mod 2 ^ 32
            /\ - 2 ^ 31 <= fold_left F l a < 2 ^ 31).
  { induction l as [|x l IH]; intros a a' Ha Hr; [auto|].
    cbn [fold_left]. apply IH.
    - subst F G. cbv beta. now apply hash_step.
    - subst F. cbv beta. apply to_int32_range. }
  destruct (H (JS.charCodes s) 0 0 eq_refl ltac:(lia)) as [Hm Hr].
  rewrite <- (to_int32_fixed _ Hr). now apply to_int32_congr.
Qed.

(** ** The snake board *)

Lemma gamesPlayed_of_zero stored :
  Hook.gamesPlayed_of 0 0 stored
  = (if JS.num_or stored 0 =? 0 then 1 else JS.num_or stored 0).
Proof.
  unfold Hook.gamesPlayed_of. cbn [Z.add JS.or_num Z.eqb].
  rewrite num_or_0. unfold JS.num_or, JS.or_num.
  destruct stored as [n|]; [|reflexivity].
  destruct (n =? 0); reflexivity.
Qed.

(** X29.  On the snake board the games and the win rate of an entry are
    derived from the score, not from the play counter.  A high score of
    50 or more (below [50 * 2^44]) is listed with [floor(score / 50)]
    games played and a win rate of 100; a high score below 50 is listed
    with the play counter as games played, or 1 when the counter is zero
    or missing, and a win rate of 0. *)
Theorem snake_board_entry ls a :
  let s := storedHigh a ls in
  let e := entryFor "snake" ls a in
  Types.score e = s
  /\ (50 <= s < 50 * 2 ^ 44 ->
      Types.gamesPlayed e = s / 50 /\ Types.winRate e = 100)
  /\ (0 <= s < 50 ->
      Types.gamesPlayed e
      = (if playCount a ls =? 0 then 1 else playCount a ls)
      /\ (playCount a ls < 2 ^ 44 -> Types.winRate e = 0)).
Proof.
  intros s e. subst e.
  destruct (entryFor_fields "snake" ls a) as (_ & _ & Esc & Egp & Ewr).
  cbv zeta in Esc, Egp, Ewr.
  unfold scoreFor, winsFor, lossesFor, tallyFor in *.
  fold s in Esc, Egp, Ewr.
  change (Hook.tally "snake" s
            (statsOf a Hook.no_stats (linera_tictactoe_stats ls))
            (statsOf a Hook.no_stats (linera_snakeladders_stats ls))
            (statsOf a Hook.no_stats (linera_uno_stats ls)))
    with (s, JS.floor_div s 50, 0) in Esc, Egp, Ewr.
  cbn [fst snd] in Esc, Egp, Ewr.
  split; [exact Esc|]. split.
  - intros Hs. rewrite floor_div_exact in Egp, Ewr by lia.
    assert (Hw : 1 <= s / 50 < 2 ^ 44).
    { split; [apply Z.div_le_lower_bound; lia
             |apply Z.div_lt_upper_bound; lia]. }
    assert (Eg : Hook.gamesPlayed_of (s / 50) 0
                   (JS.get a (table (linera_games_played ls))) = s / 50).
    { unfold Hook.gamesPlayed_of, JS.or_num. rewrite Z.add_0_r.
      destruct (Z.eqb_spec (s / 50) 0); [lia|reflexivity]. }
    rewrite Ewr, Egp, Eg. split; [reflexivity|].
    destruct (winRate_of_exact (s / 50) 0 ltac:(lia) ltac:(lia) ltac:(lia))
      as (Hex & _).
    rewrite Z.add_0_r in Hex. rewrite Hex.
    + unfold exactRound. symmetry.
      apply Z.div_unique with (r := s / 50); lia.
    + unfold tie. apply Z.eqb_neq.
      replace (200 * (s / 50)) with (100 * (2 * (s / 50))) by lia.
      rewrite Z.mod_mul by lia. lia.
  - intros Hs. rewrite floor_div_exact in Egp, Ewr by lia.
    assert (Hw : s / 50 = 0) by (apply Z.div_small; lia).
    rewrite Hw in Egp, Ewr.
    rewrite gamesPlayed_of_zero in Egp. fold (playCount a ls) in Egp.
    split; [exact Egp|].
    intros Hc. rewrite Ewr, Egp.
    set (g := if playCount a ls =? 0 then 1 else playCount a ls).
    destruct (Z.le_gt_cases g 0) as [Hle | Hgt].
    + unfold Hook.winRate_of.
      destruct (Z.gtb_spec g 0); [lia|reflexivity].
    + assert (Hg : g < 2 ^ 44).
      { subst g. destruct (playCount a ls =? 0); [reflexivity|exact Hc]. }
      pose proof (winRate_of_exact 0 g ltac:(lia) ltac:(lia) ltac:(lia))
        as (Hex & _).
      change (0 + g) with g in Hex. rewrite Hex.
      * unfold exactRound. apply Z.div_small. lia.
      * unfold tie. apply Z.eqb_neq. change (200 * 0) with 0.
        rewrite Z.mod_0_l by lia. lia.
Qed.
